(** * SheRockets conjoint-analysis scripts: choice-set building, coding,
      estimation glue and significance reporting.

    The development embeds the Python functions of [src/data_analysis] that
    build choice records from the wide survey table, code the attribute
    levels, select design columns, call the fitting libraries and assemble the
    per-level result rows.

    Conventions of the embedding.
    - A pandas row is a finite map from column names to cells; indexing an
      absent column raises [KeyError] as [row[...]] does.
    - Python exceptions are values of [exn]; a function that can raise returns
      [result].
    - float64 numbers are idealised as exact rationals ([Q]); [NaN] is kept as
      a separate value of [pyfloat] where a library call of the source can
      produce it ([np.mean] of an empty array, a test statistic).
    - numpy, scipy, scikit-learn and statsmodels are not part of the
      repository: their entry points are fields of the interface classes
      below, and every statement holds for each implementation of them. *)

From Stdlib Require Import Ascii QArith Qabs Lqa ZArith Lia.
From stdpp Require Import base option list strings gmap pretty.

Local Open Scope string_scope.

(** ** Exceptions and results *)

Inductive exn : Type :=
| KeyError (key : string)
| IndexError
| TypeError
| ValueError
| LinAlgError
| SolverError.

Inductive result (A : Type) : Type :=
| Ok (a : A)
| Raise (e : exn).
Arguments Ok {A} a.
Arguments Raise {A} e.

#[global] Instance result_ret : MRet result := fun A a => Ok a.
#[global] Instance result_bind : MBind result := fun A B f m =>
  match m with Ok a => f a | Raise e => Raise e end.
#[global] Instance result_fmap : FMap result := fun A B f m =>
  match m with Ok a => Ok (f a) | Raise e => Raise e end.

Definition raises {A} (m : result A) : Prop := exists e, m = Raise e.
Definition returns {A} (m : result A) : Prop := exists a, m = Ok a.

(** [for x in xs: ys.append(f(x))] where [f] may raise: the first exception
    aborts the loop. *)
Fixpoint for_each {A B} (f : A -> result B) (xs : list A) : result (list B) :=
  match xs with
  | [] => Ok []
  | x :: xs' => y ← f x; ys ← for_each f xs'; mret (y :: ys)
  end.

(** ** Cells and rows of the survey table *)

Inductive cell : Type :=
| CStr (s : string)
| CNum (q : Q)
| CNaN.

Abbreviation row := (gmap string cell).

(** [row[col]] *)
Definition getitem (r : row) (col : string) : result cell :=
  match r !! col with
  | Some c => Ok c
  | None => Raise (KeyError col)
  end.

(** [col in row] *)
Definition has_col (r : row) (col : string) : bool := bool_decide (is_Some (r !! col)).

(** [value == 'literal'] for a cell: only a str equal to the literal. *)
Definition cell_eq_str (c : cell) (lit : string) : bool :=
  match c with
  | CStr s => String.eqb s lit
  | _ => false
  end.

(** [pd.isna(value)] *)
Definition isna (c : cell) : bool :=
  match c with CNaN => true | _ => false end.

(** ** Strings *)

(** [needle in hay] *)
Definition contains (needle hay : string) : bool :=
  match String.index 0 needle hay with
  | Some _ => true
  | None => false
  end.

(** [s.endswith(suffix)] *)
Definition endswith (s suffix : string) : bool :=
  let n := String.length s in
  let k := String.length suffix in
  (k <=? n)%nat && String.eqb (String.substring (n - k) k s) suffix.

Definition lower_ascii (c : ascii) : ascii :=
  let n := nat_of_ascii c in
  if ((65 <=? n) && (n <=? 90))%nat then ascii_of_nat (n + 32) else c.

(** [s.lower()] on ASCII text *)
Fixpoint lower (s : string) : string :=
  match s with
  | EmptyString => EmptyString
  | String c s' => String (lower_ascii c) (lower s')
  end.

(** [s.replace(old, new)] for a non-empty [old]: occurrences are replaced
    from the left and do not overlap; [skip] counts the characters of a
    match still to be dropped. *)
Fixpoint replace_go (old new : string) (skip : nat) (s : string) : string :=
  match s with
  | EmptyString => EmptyString
  | String c s' =>
      match skip with
      | S k => replace_go old new k s'
      | O =>
          if String.prefix old s
          then new +:+ replace_go old new (String.length old - 1) s'
          else String c (replace_go old new 0 s')
      end
  end.

Fixpoint intersperse_str (sep : string) (s : string) : string :=
  match s with
  | EmptyString => sep
  | String c s' => sep +:+ String c (intersperse_str sep s')
  end.

Definition replace (s old new : string) : string :=
  match old with
  | EmptyString => intersperse_str new s
  | _ => replace_go old new 0 s
  end.

(** [f'{n}'] for a non-negative integer *)
Definition fmt_nat (n : nat) : string := pretty n.

(** ** Numbers *)

Definition Qltb (x y : Q) : bool := negb (Qle_bool y x).
Definition Qgtb (x y : Q) : bool := Qltb y x.
Definition Qgeb (x y : Q) : bool := Qle_bool y x.

Definition Qsum (l : list Q) : Q := foldr Qplus 0%Q l.

Inductive pyfloat : Type :=
| Fin (q : Q)
| NaN.

(** Comparisons with NaN are false. *)
Definition flt (a b : pyfloat) : bool :=
  match a, b with
  | Fin x, Fin y => Qltb x y
  | _, _ => false
  end.

Definition fmul (a b : pyfloat) : pyfloat :=
  match a, b with
  | Fin x, Fin y => Fin (x * y)
  | _, _ => NaN
  end.

(** The builtin [min(a, b)]: [b] when [b < a], otherwise [a]. *)
Definition py_min (a b : pyfloat) : pyfloat := if flt b a then b else a.
(** The builtin [max(a, b)]: [b] when [b > a], otherwise [a]. *)
Definition py_max (a b : pyfloat) : pyfloat := if flt a b then b else a.

(** [np.mean] of a one-dimensional array: NaN on an empty one. *)
Definition np_mean (l : list Q) : pyfloat :=
  match l with
  | [] => NaN
  | _ => Fin (Qsum l / inject_Z (Z.of_nat (length l)))
  end.

(** A boolean array averaged as 0/1 values. *)
Definition indicator (b : bool) : Q := if b then 1%Q else 0%Q.

Abbreviation matrix := (list (list Q)).

(** The seven attributes of the study, in the order every builder loops. *)
Definition attributes : list string :=
  ["Tutor"; "Color_palette"; "Pricing"; "Message_success_";
   "Message_failure_"; "Storytelling"; "Role_play"].

(** [range(1, 9)] *)
Definition tasks : list nat := seq 1 8.

Definition choice_col (task : nat) : string := "Task" +:+ fmt_nat task +:+ "_choice".
Definition attr_col (alt attr : string) (task : nat) : string :=
  alt +:+ "_" +:+ attr +:+ fmt_nat task.

(** [df.iterrows()] over a frame with the default integer index. *)
Definition iterrows (df : list row) : list (nat * row) :=
  imap (fun i r => (i, r)) df.

Example replace_diff : replace "female_tutor_diff" "_diff" "" = "female_tutor".
Proof. reflexivity. Qed.
Example endswith_499 : endswith "Pricing_4.99" "_4.99" = true /\ endswith "grade" "_diff" = false.
Proof. split; reflexivity. Qed.
Example attr_col_ex : attr_col "A" "Tutor" 3 = "A_Tutor3".
Proof. reflexivity. Qed.

(** [str(value)] of a cell; the text of a float is the Python runtime's. *)
Class PyRuntime := { float_repr : Q -> string }.

Definition py_str {py : PyRuntime} (c : cell) : string :=
  match c with
  | CStr s => s
  | CNum q => float_repr q
  | CNaN => "nan"
  end.

(** Loop with an accumulator whose body may raise. *)
Fixpoint for_fold {A S} (f : S -> A -> result S) (xs : list A) (s : S) : result S :=
  match xs with
  | [] => Ok s
  | x :: xs' => s' ← f s x; for_fold f xs' s'
  end.

(** Python dicts with string keys, in insertion order. *)
Fixpoint dict_get {V} (d : list (string * V)) (k : string) : option V :=
  match d with
  | [] => None
  | (k', v) :: d' => if String.eqb k' k then Some v else dict_get d' k
  end.

(** [d[k] = v]: an existing key keeps its place. *)
Fixpoint dict_set {V} (d : list (string * V)) (k : string) (v : V) : list (string * V) :=
  match d with
  | [] => [(k, v)]
  | (k', v') :: d' =>
      if String.eqb k' k then (k, v) :: d' else (k', v') :: dict_set d' k v
  end.

(** [a[i]] on a list or one-dimensional array. *)
Definition at_index {A} (l : list A) (i : nat) : result A :=
  match l !! i with
  | Some x => Ok x
  | None => Raise IndexError
  end.

(** [frame.iloc[indices]]: rows by position. *)
Definition iloc {A} (l : list A) (indices : list nat) : result (list A) :=
  for_each (at_index l) indices.

(** ** scikit-learn and numpy.random, as the scripts use them

    [lr_fit s X y] is [LogisticRegression(random_state=s, max_iter=1000).fit(X, y)];
    [coef_ m] is [m.coef_[0]] and [predict_proba1 m X] is
    [m.predict_proba(X)[:, 1]].  A fit succeeds only on a non-empty
    rectangular [X], and returns one coefficient per column. *)
Class Sklearn := {
  lr_model : Type;
  lr_fit : nat -> matrix -> list Z -> result lr_model;
  coef_ : lr_model -> list Q;
  predict_proba1 : lr_model -> matrix -> list Q;
  lr_fit_shape : forall s X y m,
    lr_fit s X y = Ok m ->
    X <> [] /\ Forall (fun r => length r = length (coef_ m)) X;
  predict_proba1_length : forall m X, length (predict_proba1 m X) = length X
}.

(** [random_choice n g] is [np.random.choice(n, size=n, replace=True)] drawn
    from the global generator in state [g], with the state it leaves. *)
Class NpRandom := {
  rng_state : Type;
  random_choice : nat -> rng_state -> list nat * rng_state;
  random_choice_range : forall n g,
    length (random_choice n g).1 = n /\ Forall (fun i => (i < n)%nat) (random_choice n g).1
}.

(** * final_robust_conjoint_analysis.py *)
Module FinalRobust.

Inductive coding : Type :=
| Scalar (v : Z)
| Levels (d : list (string * Z)).

Definition pm (b : bool) : coding := Scalar (if b then 1 else -1)%Z.

Definition pricing_levels (free p499 p799 p999 p1299 : Z) : coding :=
  Levels [("free", free); ("4.99", p499); ("7.99", p799); ("9.99", p999); ("12.99", p1299)].

Definition get_effects_coding_final {py : PyRuntime} (value : cell) (attr : string) : coding :=
  let value_str := py_str value in
  if String.eqb attr "Tutor" then pm (contains "Female" value_str)
  else if String.eqb attr "Color_palette" then pm (contains "Friendly" value_str)
  else if String.eqb attr "Pricing" then
    if contains "School pays" value_str then pricing_levels 1 0 0 0 (-1)
    else if contains "$4.99" value_str then pricing_levels 0 1 0 0 (-1)
    else if contains "$7.99" value_str then pricing_levels 0 0 1 0 (-1)
    else if contains "$9.99" value_str then pricing_levels 0 0 0 1 (-1)
    else pricing_levels (-1) (-1) (-1) (-1) 1
  else if String.eqb attr "Message_success_" then pm (contains "effort and persistence" value_str)
  else if String.eqb attr "Message_failure_" then
    pm (contains "mistakes are how scientists learn" value_str)
  else if String.eqb attr "Storytelling" then pm (contains "Space rescue story" value_str)
  else if String.eqb attr "Role_play" then pm (contains "Hero astronaut" value_str)
  else Scalar 0.

(** One row of the choice frame: the four fixed keys and, in insertion
    order, the coded difference columns. *)
Record choice_record : Type := {
  respondent_id : nat;
  task : nat;
  choice : Z;
  grade : cell;
  features : list (string * Z)
}.

(** [b_effects.get(level, 0)]; an int has no [get]. *)
Definition coding_get (c : coding) (level : string) : result Z :=
  match c with
  | Levels d => Ok (default 0%Z (dict_get d level))
  | Scalar _ => Raise TypeError
  end.

(** The body of the loop over attributes. *)
Definition add_attribute {py : PyRuntime} (r : row) (t : nat)
    (feats : list (string * Z)) (attr : string) : result (list (string * Z)) :=
  a_val ← getitem r (attr_col "A" attr t);
  b_val ← getitem r (attr_col "B" attr t);
  let a_effects := get_effects_coding_final a_val attr in
  let b_effects := get_effects_coding_final b_val attr in
  match a_effects with
  | Levels da =>
      for_fold (fun fs '(level, effect) =>
                  b ← coding_get b_effects level;
                  mret (dict_set fs (attr +:+ "_" +:+ level) (effect - b)%Z))
               da feats
  | Scalar a =>
      match b_effects with
      | Scalar b => Ok (dict_set feats (attr +:+ "_diff") (a - b)%Z)
      | Levels _ => Raise TypeError
      end
  end.

(** The record of one respondent and task. *)
Definition build_record {py : PyRuntime} (idx : nat) (r : row) (t : nat) : result choice_record :=
  ch ← getitem r (choice_col t);
  g ← getitem r "Grade";
  feats ← for_fold (add_attribute r t) attributes [];
  mret {| respondent_id := idx; task := t;
          choice := if cell_eq_str ch "A" then 1%Z else 0%Z;
          grade := g; features := feats |}.

Definition convert_to_choice_format_final {py : PyRuntime} (df : list row) : result (list choice_record) :=
  per_row ← for_each (fun '(idx, r) => for_each (build_record idx r) tasks) (iterrows df);
  mret (concat per_row).

(** Columns of [pd.DataFrame(choice_records)]; every record of a frame built
    above carries the same keys, those of the first record. *)
Definition columns (cd : list choice_record) : list string :=
  match cd with
  | [] => []
  | r :: _ => ["respondent_id"; "task"; "choice"; "grade"] ++ (features r).*1
  end.

Definition is_feature (col : string) : bool :=
  endswith col "_diff" || endswith col "_free" || endswith col "_4.99"
  || endswith col "_7.99" || endswith col "_9.99" || endswith col "_12.99".

Definition design_row (feature_cols : list string) (r : choice_record) : list Q :=
  map (fun c => inject_Z (default 0%Z (dict_get (features r) c))) feature_cols.

Definition calculate_pp_effects_final (coefficients : list Q) (feature_names : list string)
  : result (list Q) :=
  for_each (fun '(i, _) => coef ← at_index coefficients i; mret (coef * 25)%Q)
           (imap (fun i f => (i, f)) feature_names).

Definition get_significance_final (p_value : pyfloat) : string :=
  if flt p_value (Fin 0.001) then "***"
  else if flt p_value (Fin 0.01) then "**"
  else if flt p_value (Fin 0.05) then "*"
  else if flt p_value (Fin 0.1) then "(marginal)"
  else "n.s.".

(** [bootstrap_coefs[:, i]]: an empty list of rows gives a one-dimensional
    array, which two indices do not fit. *)
Definition column (rows : matrix) (i : nat) : result (list Q) :=
  match rows with
  | [] => Raise IndexError
  | _ => for_each (fun r => at_index r i) rows
  end.

Section Estimation.
Context {sk : Sklearn} {rnd : NpRandom}.

(** The resampling loop: iteration [i] draws the indices, then fits with
    [random_state=i]; a fit that raises contributes the original
    coefficients. *)
Fixpoint bootstrap_loop (original_coefs : list Q) (X : matrix) (y : list Z)
    (iterations : list nat) (g : rng_state) : result (matrix * rng_state) :=
  match iterations with
  | [] => Ok ([], g)
  | i :: rest =>
      let '(indices, g') := random_choice (length X) g in
      X_boot ← iloc X indices;
      y_boot ← iloc y indices;
      let coefs :=
        match lr_fit i X_boot y_boot with
        | Ok model_boot => coef_ model_boot
        | Raise _ => original_coefs
        end in
      '(more, g'') ← bootstrap_loop original_coefs X y rest g';
      mret (coefs :: more, g'')
  end.

(** The two-tailed value of one coefficient from its bootstrap column. *)
Definition two_tailed (coef_dist : list Q) (original : Q) : pyfloat :=
  let p_value :=
    fmul (Fin 2)
         (py_min (np_mean (map (fun d => indicator (Qgeb d (Qabs original))) coef_dist))
                 (np_mean (map (fun d => indicator (Qle_bool d (- Qabs original))) coef_dist))) in
  py_max p_value (Fin 1e-6).

Definition p_values_of (original_coefs : list Q) (bootstrap_coefs : matrix)
  : result (list pyfloat) :=
  for_each (fun '(i, c) => coef_dist ← column bootstrap_coefs i; mret (two_tailed coef_dist c))
           (imap (fun i c => (i, c)) original_coefs).

Definition calculate_bootstrap_p_values (model : lr_model) (X : matrix) (y : list Z)
    (n_bootstrap : nat) (g : rng_state) : result (list pyfloat * rng_state) :=
  let original_coefs := coef_ model in
  '(bootstrap_coefs, g') ← bootstrap_loop original_coefs X y (seq 0 n_bootstrap) g;
  p_values ← p_values_of original_coefs bootstrap_coefs;
  mret (p_values, g').

Record result_row : Type := {
  feature : string;
  coefficient : Q;
  p_value : pyfloat;
  pp_effect : Q;
  significance : string
}.

(** [n_bootstrap=1000] at the only call of the bootstrap. *)
Definition n_bootstrap_used : nat := 1000.

Definition run_robust_analysis (choice_data : list choice_record) (g : rng_state)
  : result (list result_row * rng_state) :=
  let feature_cols := filter (fun c => is_feature c = true) (columns choice_data) in
  let X := map (design_row feature_cols) choice_data in
  y ← (if bool_decide ("choice" ∈ columns choice_data)
       then Ok (map choice choice_data) else Raise (KeyError "choice"));
  model ← lr_fit 42 X y;
  let coefficients := coef_ model in
  '(p_values, g') ← calculate_bootstrap_p_values model X y n_bootstrap_used g;
  pp_effects ← calculate_pp_effects_final coefficients feature_cols;
  results ← for_each (fun '(i, f) =>
                        c ← at_index coefficients i;
                        p ← at_index p_values i;
                        e ← at_index pp_effects i;
                        mret {| feature := f; coefficient := c; p_value := p;
                                pp_effect := e; significance := get_significance_final p |})
                     (imap (fun i f => (i, f)) feature_cols);
  mret (results, g').

End Estimation.

End FinalRobust.

(** ** numpy.linalg and scipy.stats

    [linalg_inv] raises [LinAlgError] on a singular matrix.  The elementwise
    division of two arrays is exact division; a zero divisor, where numpy
    answers inf or nan, is not modelled (the quotient is 0 there). *)
Class NumPy := {
  np_sqrt : Q -> Q;
  linalg_inv : matrix -> result matrix
}.

(** [chi2_contingency] and [ttest_ind] return the p-value of the test, which
    may be NaN, or raise. *)
Class SciPy := {
  norm_cdf : Q -> Q;
  chi2_contingency : list (list Z) -> result pyfloat;
  ttest_ind : list Z -> list Z -> result pyfloat
}.

Definition dot (u v : list Q) : Q := Qsum (zip_with Qmult u v).

Definition ncols (X : matrix) : nat :=
  match X with
  | [] => 0
  | r :: _ => length r
  end.

Definition col_of (X : matrix) (j : nat) : list Q := map (fun r => nth j r 0%Q) X.

(** [X.T @ X] *)
Definition gram (X : matrix) : matrix :=
  map (fun j => map (fun k => dot (col_of X j) (col_of X k)) (seq 0 (ncols X)))
      (seq 0 (ncols X)).

(** [np.diag(M)] *)
Definition diag (M : matrix) : list Q := imap (fun i r => nth i r 0%Q) M.

(** [X * s.reshape(-1, 1)]: row [i] is multiplied by [s[i]]. *)
Definition scale_rows (X : matrix) (s : list Q) : matrix :=
  zip_with (fun r si => map (fun x => x * si)%Q r) X s.

(** [a / b] on two arrays of one dimension: the shapes must agree. *)
Definition array_div (a b : list Q) : result (list Q) :=
  if (length a =? length b)%nat then Ok (zip_with Qdiv a b) else Raise ValueError.

(** * proper_conjoint_analysis.py *)
Module ProperConjoint.

Section Estimation.
Context {sk : Sklearn} {np : NumPy} {sp : SciPy}.

Definition calculate_proper_p_values (model : lr_model) (X : matrix) (y : list Z)
  : result (list Q) :=
  let y_pred := predict_proba1 model X in
  let p := y_pred in
  let w := map (fun pi => pi * (1 - pi))%Q p in
  let X_weighted := scale_rows X (map np_sqrt w) in
  match linalg_inv (gram X_weighted) with
  | Ok cov_matrix =>
      let se := map np_sqrt (diag cov_matrix) in
      z_scores ← array_div (coef_ model) se;
      mret (map (fun z => 2 * (1 - norm_cdf (Qabs z)))%Q z_scores)
  | Raise LinAlgError =>
      Ok (map (fun one => one * 0.5)%Q (repeat 1%Q (length (coef_ model))))
  | Raise e => Raise e
  end.

Definition calculate_pp_effects_proper (coefficients : list Q) (feature_names : list string)
  : result (list Q) :=
  for_each (fun '(i, _) => coef ← at_index coefficients i; mret (coef * 25)%Q)
           (imap (fun i f => (i, f)) feature_names).

Definition get_significance_proper (p_value : pyfloat) : string :=
  if flt p_value (Fin 0.001) then "***"
  else if flt p_value (Fin 0.01) then "**"
  else if flt p_value (Fin 0.05) then "*"
  else if flt p_value (Fin 0.1) then "(marginal)"
  else "n.s.".

Record result_row : Type := {
  feature : string;
  coefficient : Q;
  p_value : Q;
  pp_effect : Q;
  significance : string
}.

(** [convert_to_proper_choice_format] builds the same frame as
    [FinalRobust.convert_to_choice_format_final]; the analysis is stated on
    that frame type. *)
Definition run_logistic_regression_analysis (choice_data : list FinalRobust.choice_record)
  : result (list result_row) :=
  let feature_cols :=
    filter (fun c => FinalRobust.is_feature c = true) (FinalRobust.columns choice_data) in
  let X := map (FinalRobust.design_row feature_cols) choice_data in
  y ← (if bool_decide ("choice" ∈ FinalRobust.columns choice_data)
       then Ok (map FinalRobust.choice choice_data) else Raise (KeyError "choice"));
  model ← lr_fit 42 X y;
  let coefficients := coef_ model in
  p_values ← calculate_proper_p_values model X y;
  pp_effects ← calculate_pp_effects_proper coefficients feature_cols;
  for_each (fun '(i, f) =>
              c ← at_index coefficients i;
              p ← at_index p_values i;
              e ← at_index pp_effects i;
              mret {| feature := f; coefficient := c; p_value := p;
                      pp_effect := e; significance := get_significance_proper (Fin p) |})
           (imap (fun i f => (i, f)) feature_cols).

End Estimation.

End ProperConjoint.

(** * simple_conjoint_results.py *)
(** The cell 'Effect (pp)' of a results table: the text "n.s.", or the
    signed effect followed by the significance marker of the row. *)
Inductive pp_text : Type :=
| NotSignificant
| Signed (pp_effect : Q) (significance : string).

Module SimpleResults.

(** [coefficients * 25] on an array *)
Definition calculate_pp_effects (coefficients : list Q) : list Q :=
  map (fun c => c * 25)%Q coefficients.

(** [significance] in the loop of [create_results_table]. *)
Definition row_significance (p_val : pyfloat) : string :=
  if flt p_val (Fin 0.001) then "***"
  else if flt p_val (Fin 0.01) then "**"
  else if flt p_val (Fin 0.05) then "*"
  else if flt p_val (Fin 0.1) then "(marginal)"
  else EmptyString.

(** [pp_str] in the same loop. *)
Definition pp_str (pp_effect : Q) (p_val : pyfloat) : pp_text :=
  if Qltb (Qabs pp_effect) 0.1 then NotSignificant
  else Signed pp_effect (row_significance p_val).

End SimpleResults.

(** * conjoint_results_analysis.py *)
Module ResultsAnalysis.

(** [significance] in the loop of [_create_results_table]. *)
Definition row_significance (p_val : pyfloat) : string :=
  if flt p_val (Fin 0.001) then "***"
  else if flt p_val (Fin 0.01) then "**"
  else if flt p_val (Fin 0.05) then "*"
  else if flt p_val (Fin 0.1) then "(marginal)"
  else EmptyString.

(** [pp_str] in the same loop. *)
Definition pp_str (pp_val : Q) (p_val : pyfloat) : pp_text :=
  if Qltb (Qabs pp_val) 0.1 then NotSignificant
  else Signed pp_val (row_significance p_val).

Section Estimation.
Context {sk : Sklearn} {np : NumPy} {sp : SciPy}.

(** The handler is a bare [except:], so every exception of the inversion
    and of the square roots is replaced by the constant standard errors. *)
Definition _calculate_p_values (model : lr_model) (X : matrix) (y : list Z)
  : result (list Q) :=
  let coef := coef_ model in
  let y_pred := predict_proba1 model X in
  let p := y_pred in
  let w := map (fun pi => pi * (1 - pi))%Q p in
  let X_weighted := scale_rows X (map np_sqrt w) in
  let se :=
    match linalg_inv (gram X_weighted) with
    | Ok cov_matrix => map np_sqrt (diag cov_matrix)
    | Raise _ => map (fun one => one * 0.1)%Q (repeat 1%Q (length coef))
    end in
  z_scores ← array_div coef se;
  mret (map (fun z => 2 * (1 - norm_cdf (Qabs z)))%Q z_scores).

Definition _calculate_pp_effects (coefficients : list Q) (feature_names : list string)
  : result (list Q) :=
  for_each (fun '(i, _) => coef ← at_index coefficients i; mret (coef * 25)%Q)
           (imap (fun i f => (i, f)) feature_names).

End Estimation.

End ResultsAnalysis.

(** ** statsmodels

    [logit_fit y X] is [sm.Logit(y, X).fit(disp=0)] on a frame [X] with named
    columns; the fitted result carries one parameter, standard error, p-value
    and confidence interval per column. *)
Record design : Type := {
  exog_names : list string;
  exog : matrix
}.

Class Statsmodels := {
  logit_result : Type;
  logit_fit : list Z -> design -> result logit_result;
  params : logit_result -> list Q;
  pvalues : logit_result -> list pyfloat;
  bse : logit_result -> list Q;
  conf_int : logit_result -> list (Q * Q);
  predict : logit_result -> list Q;
  logit_fit_shape : forall y X r,
    logit_fit y X = Ok r ->
    length (params r) = length (exog_names X)
    /\ length (pvalues r) = length (exog_names X)
    /\ length (bse r) = length (exog_names X)
    /\ length (conf_int r) = length (exog_names X)
}.

(** [needle in value] for a cell: a float is not iterable. *)
Definition py_in (needle : string) (value : cell) : result bool :=
  match value with
  | CStr s => Ok (contains needle s)
  | _ => Raise TypeError
  end.

Definition dquote : string := String (ascii_of_nat 34) EmptyString.

(** One placeholder or estimate per attribute level, as both conditional
    logit scripts report it. *)
Record level_row : Type := {
  attribute : string;
  level : string;
  level_code : string;
  coefficient : Q;
  std_error : Q;
  p_value : pyfloat;
  conf_int_lower : Q;
  conf_int_upper : Q;
  pp_effect : pyfloat;
  significance : string
}.

(** * improved_conditional_logit.py *)
Module ImprovedLogit.

Record choice_record : Type := {
  respondent_id : nat;
  task : nat;
  choice_set_id : string;
  chosen_a : Z;
  grade : cell;
  diffs : list (string * Z)
}.

Definition b2z (b : bool) : Z := if b then 1%Z else 0%Z.

(** [(1 if needle in a_val else 0) - (1 if needle in b_val else 0)] *)
Definition in_diff (needle : string) (a_val b_val : cell) : result Z :=
  a ← py_in needle a_val;
  b ← py_in needle b_val;
  mret (b2z a - b2z b)%Z.

(** The dummies of a substring-coded attribute: one [(column, needle)] pair
    per level, evaluated in order. *)
Definition in_dummies (levels : list (string * string)) (a_val b_val : cell)
  : result (list (string * Z)) :=
  for_fold (fun d '(name, needle) => v ← in_diff needle a_val b_val; mret (dict_set d name v))
           levels [].

Definition create_attribute_dummies (attr : string) (a_val b_val : cell)
  : result (list (string * Z)) :=
  if String.eqb attr "Tutor" then
    Ok [("female_tutor_diff",
          (b2z (cell_eq_str a_val "Female AI tutor") - b2z (cell_eq_str b_val "Female AI tutor"))%Z);
        ("male_tutor_diff",
          (b2z (cell_eq_str a_val "Male AI tutor") - b2z (cell_eq_str b_val "Male AI tutor"))%Z)]
  else if String.eqb attr "Color_palette" then
    in_dummies [("friendly_colors_diff", "Friendly & warm"); ("tech_colors_diff", "Tech & bold")]
               a_val b_val
  else if String.eqb attr "Pricing" then
    in_dummies [("school_pays_diff", "School pays"); ("pricing_4.99_diff", "$4.99");
                ("pricing_7.99_diff", "$7.99"); ("pricing_9.99_diff", "$9.99");
                ("pricing_12.99_diff", "$12.99")]
               a_val b_val
  else if String.eqb attr "Message_success_" then
    in_dummies [("growth_message_diff", "effort and persistence");
                ("brilliance_message_diff", "special talent")]
               a_val b_val
  else if String.eqb attr "Message_failure_" then
    in_dummies [("supportive_message_diff", "mistakes are how scientists learn");
                ("neutral_message_diff", "Here is what went wrong")]
               a_val b_val
  else if String.eqb attr "Storytelling" then
    in_dummies [("space_rescue_story_diff", "Space rescue story"); ("no_story_diff", "No story")]
               a_val b_val
  else if String.eqb attr "Role_play" then
    in_dummies [("hero_astronaut_diff", "Hero astronaut");
                ("no_specific_role_diff", "No specific role")]
               a_val b_val
  else Ok [].

(** [record.update(dummies)] *)
Definition dict_update {V} (d extra : list (string * V)) : list (string * V) :=
  foldl (fun acc '(k, v) => dict_set acc k v) d extra.

Definition add_attribute (r : row) (t : nat) (d : list (string * Z)) (attr : string)
  : result (list (string * Z)) :=
  a_val ← getitem r (attr_col "A" attr t);
  b_val ← getitem r (attr_col "B" attr t);
  dummies ← create_attribute_dummies attr a_val b_val;
  mret (dict_update d dummies).

Definition build_record (idx : nat) (r : row) (t : nat) : result choice_record :=
  ch ← getitem r (choice_col t);
  g ← getitem r "Grade";
  d ← for_fold (add_attribute r t) attributes [];
  mret {| respondent_id := idx; task := t;
          choice_set_id := fmt_nat idx +:+ "_" +:+ fmt_nat t;
          chosen_a := if cell_eq_str ch "A" then 1%Z else 0%Z;
          grade := g; diffs := d |}.

Definition convert_to_choice_format (df : list row) : result (list choice_record) :=
  per_row ← for_each (fun '(idx, r) => for_each (build_record idx r) tasks) (iterrows df);
  mret (concat per_row).

Definition columns (cd : list choice_record) : list string :=
  match cd with
  | [] => []
  | r :: _ => ["respondent_id"; "task"; "choice_set_id"; "chosen_a"; "grade"] ++ (diffs r).*1
  end.

(** [choice_data[feature]] as numbers *)
Definition column_values (cd : list choice_record) (feature : string) : list Q :=
  map (fun r => inject_Z (default 0%Z (dict_get (diffs r) feature))) cd.

(** [abs(choice_data[feature].sum()) > 1e-10] *)
Definition has_variation (cd : list choice_record) (feature : string) : bool :=
  Qgtb (Qabs (Qsum (column_values cd feature))) 1e-10.

Definition get_level_info (code : string) : option (string * string) :=
  dict_get
    [("female_tutor", ("Tutor", "Female AI tutor"));
     ("male_tutor", ("Tutor", "Male AI tutor"));
     ("friendly_colors", ("Color_palette", "Friendly & warm (coral / lavender / peach)"));
     ("tech_colors", ("Color_palette", "Tech & bold (deep blue / black / neon)"));
     ("school_pays", ("Pricing", "School pays (free for families)"));
     ("pricing_4.99", ("Pricing", "Free trial + $4.99/month"));
     ("pricing_7.99", ("Pricing", "Free trial + $7.99/month"));
     ("pricing_9.99", ("Pricing", "Free trial + $9.99/month"));
     ("pricing_12.99", ("Pricing", "Free trial + $12.99/month"));
     ("growth_message",
       ("Message_success_", "Great job — your effort and persistence helped you solve this!"));
     ("brilliance_message",
       ("Message_success_",
        "You solved it so quickly — you must have a really special talent for science!"));
     ("supportive_message",
       ("Message_failure_",
        "That didn't work, but mistakes are how scientists learn. Let's try another design."));
     ("neutral_message",
       ("Message_failure_", "This design didn't launch successfully. Here is what went wrong."));
     ("space_rescue_story",
       ("Storytelling",
        "Space rescue story: " +:+ dquote
        +:+ "Your spaceship must deliver medicine to astronauts stranded on the Moon before their oxygen runs out."
        +:+ dquote));
     ("no_story", ("Storytelling", "No story: Just design and test rockets in a sandbox-style game."));
     ("hero_astronaut",
       ("Role_play",
        "Hero astronaut: You are the astronaut in charge — the team is counting on you to complete this mission."));
     ("no_specific_role",
       ("Role_play", "No specific role: Just design a rocket and see how it works."))]
    code.

Definition get_significance (p_value : pyfloat) : string :=
  if flt p_value (Fin 0.001) then "***"
  else if flt p_value (Fin 0.01) then "**"
  else if flt p_value (Fin 0.05) then "*"
  else if flt p_value (Fin 0.1) then "(marginal)"
  else "n.s.".

(** The row reported for an excluded column. *)
Definition placeholder (attr lvl code : string) : level_row :=
  {| attribute := attr; level := lvl; level_code := code;
     coefficient := 0.0; std_error := 0.0; p_value := Fin 1.0;
     conf_int_lower := 0.0; conf_int_upper := 0.0; pp_effect := Fin 0.0;
     significance := "excluded (collinear)" |}.

Section Estimation.
Context {sm : Statsmodels}.

Definition calculate_ame (res : logit_result) (X : design) (features : list string)
  : result (list pyfloat) :=
  let predicted_probs := predict res in
  for_each (fun '(i, _) =>
              coef ← at_index (params res) i;
              let derivative := map (fun p => p * (1 - p))%Q predicted_probs in
              mret (fmul (fmul (np_mean derivative) (Fin coef)) (Fin 100)))
           (imap (fun i f => (i, f)) features).

Definition diff_features (cd : list choice_record) : list string :=
  filter (fun c => endswith c "_diff" = true) (columns cd).

Definition final_features (cd : list choice_record) : list string :=
  filter (fun f => has_variation cd f = true) (diff_features cd).

Definition collinear_features (cd : list choice_record) : list string :=
  filter (fun f => has_variation cd f = false) (diff_features cd).

(** [choice_data[final_features].astype(float)]: the frame given to the fitter. *)
Definition design_matrix (cd : list choice_record) : design :=
  {| exog_names := final_features cd;
     exog := map (fun r => map (fun f => inject_Z (default 0%Z (dict_get (diffs r) f)))
                               (final_features cd)) cd |}.

Definition estimated_rows (res : logit_result) (pp_effects : list pyfloat)
    (features : list string) : result (list level_row) :=
  per_feature ←
    for_each (fun '(i, f) =>
                let original_feature := replace f "_diff" "" in
                match get_level_info original_feature with
                | Some (attr, lvl) =>
                    c ← at_index (params res) i;
                    se ← at_index (bse res) i;
                    p ← at_index (pvalues res) i;
                    ci ← at_index (conf_int res) i;
                    e ← at_index pp_effects i;
                    mret [ {| attribute := attr; level := lvl; level_code := original_feature;
                              coefficient := c; std_error := se; p_value := p;
                              conf_int_lower := ci.1; conf_int_upper := ci.2;
                              pp_effect := e; significance := get_significance p |} ]
                | None => mret []
                end)
             (imap (fun i f => (i, f)) features);
  mret (concat per_feature).

Definition placeholder_rows (excluded : list string) : list level_row :=
  concat (map (fun f =>
                 let original_feature := replace f "_diff" "" in
                 match get_level_info original_feature with
                 | Some (attr, lvl) => [placeholder attr lvl original_feature]
                 | None => []
                 end) excluded).

Record model_output : Type := {
  results : list level_row;
  model_result : logit_result;
  out_final_features : list string;
  out_collinear_features : list string
}.

Definition run_conditional_logit_model (cd : list choice_record) : result model_output :=
  let X := design_matrix cd in
  y ← (if bool_decide ("chosen_a" ∈ columns cd)
       then Ok (map chosen_a cd) else Raise (KeyError "chosen_a"));
  res ← logit_fit y X;
  pp_effects ← calculate_ame res X (final_features cd);
  estimated ← estimated_rows res pp_effects (final_features cd);
  mret {| results := (estimated ++ placeholder_rows (collinear_features cd))%list;
          model_result := res;
          out_final_features := final_features cd;
          out_collinear_features := collinear_features cd |}.

End Estimation.

End ImprovedLogit.

(** * conditional_logit_analysis.py *)
Module ConditionalLogit.

(** One alternative of one choice set (long format); [dummies] holds the
    columns added by [create_dummy_variables]. *)
Record alt_record : Type := {
  choice_set_id : string;
  respondent_id : nat;
  task : nat;
  alternative : string;
  chosen : Z;
  grade : cell;
  attrs : list (string * cell);
  dummies : list (string * Z)
}.

Definition build_alternative (idx : nat) (r : row) (t : nat) (ch : cell) (alt : string)
  : result alt_record :=
  g ← getitem r "Grade";
  vals ← for_fold (fun d attr => v ← getitem r (attr_col alt attr t); mret (dict_set d attr v))
                  attributes [];
  mret {| choice_set_id := fmt_nat idx +:+ "_" +:+ fmt_nat t;
          respondent_id := idx; task := t; alternative := alt;
          chosen := if cell_eq_str ch alt then 1%Z else 0%Z;
          grade := g; attrs := vals; dummies := [] |}.

Definition build_choice_set (idx : nat) (r : row) (t : nat) : result (list alt_record) :=
  ch ← getitem r (choice_col t);
  for_each (build_alternative idx r t ch) ["A"; "B"].

Definition convert_to_conditional_logit_format (df : list row) : result (list alt_record) :=
  per_row ←
    for_each (fun '(idx, r) => sets ← for_each (build_choice_set idx r) tasks; mret (concat sets))
             (iterrows df);
  mret (concat per_row).

Record level_def : Type := {
  lv_attribute : string;
  lv_value : string;
  lv_code : string
}.

Definition get_all_attribute_levels : list level_def :=
  [ {| lv_attribute := "Tutor"; lv_value := "Female AI tutor"; lv_code := "female_tutor" |};
    {| lv_attribute := "Tutor"; lv_value := "Male AI tutor"; lv_code := "male_tutor" |};
    {| lv_attribute := "Color_palette";
       lv_value := "Friendly & warm (coral / lavender / peach)"; lv_code := "friendly_colors" |};
    {| lv_attribute := "Color_palette";
       lv_value := "Tech & bold (deep blue / black / neon)"; lv_code := "tech_colors" |};
    {| lv_attribute := "Pricing";
       lv_value := "School pays (free for families)"; lv_code := "school_pays" |};
    {| lv_attribute := "Pricing"; lv_value := "Free trial + $4.99/month"; lv_code := "pricing_4.99" |};
    {| lv_attribute := "Pricing"; lv_value := "Free trial + $7.99/month"; lv_code := "pricing_7.99" |};
    {| lv_attribute := "Pricing"; lv_value := "Free trial + $9.99/month"; lv_code := "pricing_9.99" |};
    {| lv_attribute := "Pricing";
       lv_value := "Free trial + $12.99/month"; lv_code := "pricing_12.99" |};
    {| lv_attribute := "Message_success_";
       lv_value := "Great job — your effort and persistence helped you solve this!";
       lv_code := "growth_message" |};
    {| lv_attribute := "Message_success_";
       lv_value := "You solved it so quickly — you must have a really special talent for science!";
       lv_code := "brilliance_message" |};
    {| lv_attribute := "Message_failure_";
       lv_value :=
         "That didn’t work, but mistakes are how scientists learn. Let’s try another design.";
       lv_code := "supportive_message" |};
    {| lv_attribute := "Message_failure_";
       lv_value := "This design didn’t launch successfully. Here is what went wrong.";
       lv_code := "neutral_message" |};
    {| lv_attribute := "Storytelling";
       lv_value :=
         "Space rescue story: " +:+ dquote
         +:+ "Your spaceship must deliver medicine to astronauts stranded on the Moon before their oxygen runs out."
         +:+ dquote;
       lv_code := "space_rescue_story" |};
    {| lv_attribute := "Storytelling";
       lv_value := "No story: Just design and test rockets in a sandbox-style game.";
       lv_code := "no_story" |};
    {| lv_attribute := "Role_play";
       lv_value :=
         "Hero astronaut: You are the astronaut in charge — the team is counting on you to complete this mission.";
       lv_code := "hero_astronaut" |};
    {| lv_attribute := "Role_play";
       lv_value := "No specific role: Just design a rocket and see how it works.";
       lv_code := "no_specific_role" |} ].

(** A long frame: the attribute columns it has, and its rows.  A record
    without the key of an attribute column shows NaN there.  The frame is
    taken to have the other columns of its records ([choice_set_id],
    [chosen], ...) as soon as it has an attribute column; a frame may have
    columns and no row. *)
Record long_frame : Type := {
  attr_columns : list string;
  rows : list alt_record
}.

Definition add_column (cols : list string) (col : string) : list string :=
  if existsb (String.eqb col) cols then cols else (cols ++ [col])%list.

(** [pd.DataFrame(choice_records)], the frame that
    [convert_to_conditional_logit_format] returns for its records: the
    columns are the keys met in the records, so the frame of no record has
    no column. *)
Definition data_frame (choice_records : list alt_record) : long_frame :=
  {| attr_columns := foldl (fun cols r => foldl add_column cols (attrs r).*1) [] choice_records;
     rows := choice_records |}.

(** [(choice_data[attr] == value).astype(int)] in one row: NaN equals no
    text. *)
Definition shows (r : alt_record) (lv : level_def) : bool :=
  match dict_get (attrs r) (lv_attribute lv) with
  | Some v => cell_eq_str v (lv_value lv)
  | None => false
  end.

(** [choice_data[code] = (choice_data[attr] == value).astype(int)] for one
    level of an attribute: a frame without the attribute column raises,
    and a frame that has it gets the new column, whether it has rows or
    not. *)
Definition add_dummy (cd : long_frame) (lv : level_def) : result long_frame :=
  if bool_decide (lv_attribute lv ∈ attr_columns cd)
  then
    Ok {| attr_columns := attr_columns cd;
          rows :=
            map (fun r =>
                   {| choice_set_id := choice_set_id r; respondent_id := respondent_id r;
                      task := task r; alternative := alternative r; chosen := chosen r;
                      grade := grade r; attrs := attrs r;
                      dummies := dict_set (dummies r) (lv_code lv)
                                          (if shows r lv then 1 else 0)%Z |})
                (rows cd) |}
  else Raise (KeyError (lv_attribute lv)).

Definition create_dummy_variables (cd : long_frame) : result long_frame :=
  for_fold add_dummy get_all_attribute_levels cd.

Definition dummy_column (cd : list alt_record) (code : string) : list Q :=
  map (fun r => inject_Z (default 0%Z (dict_get (dummies r) code))) cd.

(** [Series.var()], the sample variance: NaN below two observations. *)
Definition series_var (l : list Q) : pyfloat :=
  match l with
  | [] | [_] => NaN
  | _ =>
      let n := inject_Z (Z.of_nat (length l)) in
      let m := (Qsum l / n)%Q in
      Fin (Qsum (map (fun x => (x - m) * (x - m))%Q l) / (n - 1))
  end.

Definition get_significance (p_value : pyfloat) : string :=
  if flt p_value (Fin 0.001) then "***"
  else if flt p_value (Fin 0.01) then "**"
  else if flt p_value (Fin 0.05) then "*"
  else if flt p_value (Fin 0.1) then "(marginal)"
  else "n.s.".

(** One row of the difference frame. *)
Record diff_record : Type := {
  d_choice_set_id : string;
  d_respondent_id : nat;
  d_task : nat;
  chosen_a : Z;
  d_grade : cell;
  diffs : list (string * Z)
}.

(** [choice_data['choice_set_id'].unique()]: first appearances, in order. *)
Fixpoint unique (l : list string) : list string :=
  match l with
  | [] => []
  | x :: l' => x :: filter (fun y => y <> x) (unique l')
  end.

(** [set_data[set_data['alternative'] == alt].iloc[0]] *)
Definition first_alternative (set_data : list alt_record) (alt : string) : result alt_record :=
  at_index (filter (fun r => alternative r = alt) set_data) 0.

Definition difference_record (cd : list alt_record) (feature_cols : list string)
    (choice_set : string) : result diff_record :=
  let set_data := filter (fun r => choice_set_id r = choice_set) cd in
  alt_a ← first_alternative set_data "A";
  alt_b ← first_alternative set_data "B";
  d ← for_fold (fun d f =>
                  match dict_get (dummies alt_a) f, dict_get (dummies alt_b) f with
                  | Some a, Some b => Ok (dict_set d (f +:+ "_diff") (a - b)%Z)
                  | _, _ => Raise (KeyError f)
                  end) feature_cols [];
  mret {| d_choice_set_id := choice_set; d_respondent_id := respondent_id alt_a;
          d_task := task alt_a; chosen_a := chosen alt_a; d_grade := grade alt_a;
          diffs := d |}.

Definition diff_column (dd : list diff_record) (feature : string) : list Q :=
  map (fun r => inject_Z (default 0%Z (dict_get (diffs r) feature))) dd.

(** [abs(X[feature].sum()) > 1e-10] *)
Definition has_variation (dd : list diff_record) (feature : string) : bool :=
  Qgtb (Qabs (Qsum (diff_column dd feature))) 1e-10.

Definition level_info (code : string) : option level_def :=
  head (filter (fun lv => lv_code lv = code) get_all_attribute_levels).

Definition placeholder (lv : level_def) (code : string) : level_row :=
  {| attribute := lv_attribute lv; level := lv_value lv; level_code := code;
     coefficient := 0.0; std_error := 0.0; p_value := Fin 1.0;
     conf_int_lower := 0.0; conf_int_upper := 0.0; pp_effect := Fin 0.0;
     significance := "excluded (collinear)" |}.

Definition placeholder_rows (excluded_features : list string) : list level_row :=
  concat (map (fun f => match level_info f with
                        | Some lv => [placeholder lv f]
                        | None => []
                        end) excluded_features).

Section Estimation.
Context {sm : Statsmodels}.

Definition calculate_ame_alternative (res : logit_result) (X : design)
    (feature_cols : list string) : result (list pyfloat) :=
  let predicted_probs := predict res in
  for_each (fun '(i, _) =>
              coef ← at_index (params res) i;
              let derivative := map (fun p => p * (1 - p))%Q predicted_probs in
              mret (fmul (fmul (np_mean derivative) (Fin coef)) (Fin 100)))
           (imap (fun i f => (i, f)) feature_cols).

Definition estimated_rows (res : logit_result) (pp_effects : list pyfloat)
    (features : list string) : result (list level_row) :=
  per_feature ←
    for_each (fun '(i, f) =>
                let original_feature := replace f "_diff" "" in
                match level_info original_feature with
                | Some lv =>
                    c ← at_index (params res) i;
                    se ← at_index (bse res) i;
                    p ← at_index (pvalues res) i;
                    ci ← at_index (conf_int res) i;
                    e ← at_index pp_effects i;
                    mret [ {| attribute := lv_attribute lv; level := lv_value lv;
                              level_code := original_feature;
                              coefficient := c; std_error := se; p_value := p;
                              conf_int_lower := ci.1; conf_int_upper := ci.2;
                              pp_effect := e; significance := get_significance p |} ]
                | None => mret []
                end)
             (imap (fun i f => (i, f)) features);
  mret (concat per_feature).

Record model_output : Type := {
  results : list level_row;
  model_result : logit_result;
  out_feature_cols : list string;
  out_collinear_features : list string
}.

(** The difference frame of the choice sets. *)
Definition difference_frame (cd : list alt_record) (feature_cols : list string)
  : result (list diff_record) :=
  for_each (difference_record cd feature_cols) (unique (map choice_set_id cd)).

Definition diff_names (feature_cols : list string) : list string :=
  map (fun f => f +:+ "_diff") feature_cols.

Definition final_features (dd : list diff_record) (feature_cols : list string) : list string :=
  filter (fun f => has_variation dd f = true) (diff_names feature_cols).

Definition collinear_diff_features (dd : list diff_record) (feature_cols : list string)
  : list string :=
  filter (fun f => has_variation dd f = false) (diff_names feature_cols).

(** [X[final_features]]: the frame given to the fitter. *)
Definition design_matrix (dd : list diff_record) (feature_cols : list string) : design :=
  {| exog_names := final_features dd feature_cols;
     exog := map (fun r => map (fun f => inject_Z (default 0%Z (dict_get (diffs r) f)))
                               (final_features dd feature_cols)) dd |}.

Definition run_alternative_conditional_logit (cd : list alt_record)
    (feature_cols collinear_features : list string) : result model_output :=
  dd ← difference_frame cd feature_cols;
  _ ← (match dd, feature_cols with
       | [], f :: _ => Raise (KeyError (f +:+ "_diff"))
       | _, _ => Ok tt
       end);
  y ← (match dd with
       | [] => Raise (KeyError "chosen_a")
       | _ => Ok (map chosen_a dd)
       end);
  let X_final := design_matrix dd feature_cols in
  res ← logit_fit y X_final;
  pp_effects ← calculate_ame_alternative res X_final (final_features dd feature_cols);
  estimated ← estimated_rows res pp_effects (final_features dd feature_cols);
  let excluded_features :=
    (collinear_features
     ++ map (fun f => replace f "_diff" "") (collinear_diff_features dd feature_cols))%list in
  mret {| results := (estimated ++ placeholder_rows excluded_features)%list;
          model_result := res;
          out_feature_cols := feature_cols;
          out_collinear_features := collinear_features |}.

Definition level_codes : list string := map lv_code get_all_attribute_levels.

Definition run_conditional_logit_model (cd0 : long_frame) : result model_output :=
  choice_data ← create_dummy_variables cd0;
  let cd := rows choice_data in
  let varies code := flt (Fin 1e-10) (series_var (dummy_column cd code)) in
  let feature_cols := filter (fun code => varies code = true) level_codes in
  let collinear_features := filter (fun code => varies code = false) level_codes in
  run_alternative_conditional_logit cd feature_cols collinear_features.

End Estimation.

End ConditionalLogit.

(** * corrected_attribute_analysis.py *)
Module CorrectedAttribute.

(** One row of the choice frame: [vals] holds the [A_<attr>] and [B_<attr>]
    cells in insertion order. *)
Record choice_record : Type := {
  respondent_id : nat;
  task : nat;
  choice : Z;
  grade : cell;
  vals : list (string * cell)
}.

Definition add_attribute (r : row) (t : nat) (d : list (string * cell)) (attr : string)
  : result (list (string * cell)) :=
  a_val ← getitem r (attr_col "A" attr t);
  b_val ← getitem r (attr_col "B" attr t);
  mret (dict_set (dict_set d ("A_" +:+ attr) a_val) ("B_" +:+ attr) b_val).

Definition build_record (idx : nat) (r : row) (t : nat) : result choice_record :=
  ch ← getitem r (choice_col t);
  g ← getitem r "Grade";
  d ← for_fold (add_attribute r t) attributes [];
  mret {| respondent_id := idx; task := t;
          choice := if cell_eq_str ch "A" then 1%Z else 0%Z;
          grade := g; vals := d |}.

Definition convert_to_choice_format_corrected (df : list row) : result (list choice_record) :=
  per_row ← for_each (fun '(idx, r) => for_each (build_record idx r) tasks) (iterrows df);
  mret (concat per_row).

(** [choice_data[col]]: the records of a frame carry the same keys, so the
    column exists when the first record has it. *)
Definition frame_col (cd : list choice_record) (col : string) : result (list cell) :=
  match cd with
  | [] => Raise (KeyError col)
  | _ =>
      for_each (fun r => match dict_get (vals r) col with
                         | Some v => Ok v
                         | None => Raise (KeyError col)
                         end) cd
  end.

(** [frame[mask]] *)
Fixpoint select {A} (mask : list bool) (l : list A) : list A :=
  match mask, l with
  | true :: mask', x :: l' => x :: select mask' l'
  | false :: mask', _ :: l' => select mask' l'
  | _, _ => []
  end.

Definition Zsum (l : list Z) : Z := foldr Z.add 0%Z l.

(** [series.mean()] of integers, on a non-empty series *)
Definition mean_z (l : list Z) : Q := (inject_Z (Zsum l) / inject_Z (Z.of_nat (length l)))%Q.

Definition qlen {A} (l : list A) : Q := inject_Z (Z.of_nat (length l)).

Record level_result : Type := {
  attribute : string;
  level : string;
  choice_share : Q;
  effect_pp : Q;
  p_value : pyfloat;
  n_observations : nat;
  a_choice_share : Q;
  b_choice_share : Q;
  present_n : nat;
  absent_n : nat
}.

Definition get_significance_corrected (p_value : pyfloat) : string :=
  if flt p_value (Fin 0.001) then "***"
  else if flt p_value (Fin 0.01) then "**"
  else if flt p_value (Fin 0.05) then "*"
  else if flt p_value (Fin 0.1) then "(marginal)"
  else "n.s.".

Section Testing.
Context {sp : SciPy}.

(** The p-value after the chi-square block. *)
Definition chi_square_p (present absent : list Z) : pyfloat :=
  match present, absent with
  | _ :: _, _ :: _ =>
      let present_choice_a := Zsum present in
      let present_choice_b := (Z.of_nat (length present) - present_choice_a)%Z in
      let absent_choice_a := Zsum absent in
      let absent_choice_b := (Z.of_nat (length absent) - absent_choice_a)%Z in
      match chi2_contingency [[present_choice_a; present_choice_b];
                              [absent_choice_a; absent_choice_b]] with
      | Ok p => p
      | Raise _ => Fin 1.0
      end
  | _, _ => Fin 1.0
  end.

(** The p-value after the t-test block, entered with [p_value]. *)
Definition after_t_test (p_value : pyfloat) (present absent : list Z) : pyfloat :=
  match present, absent with
  | _ :: _, _ :: _ =>
      match ttest_ind present absent with
      | Ok p_value_t => py_min p_value p_value_t
      | Raise _ => p_value
      end
  | _, _ => p_value
  end.

(** The body of the loop over levels. *)
Definition analyze_level (cd : list choice_record) (attr : string) (lvl : string)
  : result level_result :=
  a_col ← frame_col cd ("A_" +:+ attr);
  let in_a := map (fun c => cell_eq_str c lvl) a_col in
  let a_data := select in_a (map choice cd) in
  let a_share := match a_data with [] => 0.5%Q | _ => mean_z a_data end in
  b_col ← frame_col cd ("B_" +:+ attr);
  let in_b := map (fun c => cell_eq_str c lvl) b_col in
  let b_data := select in_b (map choice cd) in
  let b_share := match b_data with [] => 0.5%Q | _ => mean_z (map (fun c => 1 - c)%Z b_data) end in
  let total_observations := (length a_data + length b_data)%nat in
  let overall :=
    if (0 <? total_observations)%nat
    then ((a_share * qlen a_data + b_share * qlen b_data) / inject_Z (Z.of_nat total_observations))%Q
    else 0.5%Q in
  let baseline_share := 0.5%Q in
  let effect := ((overall - baseline_share) * 100)%Q in
  let present := select (zip_with orb in_a in_b) (map choice cd) in
  let absent := select (zip_with (fun a b => negb a && negb b) in_a in_b) (map choice cd) in
  let p := after_t_test (chi_square_p present absent) present absent in
  mret {| attribute := attr; level := lvl; choice_share := overall; effect_pp := effect;
          p_value := p; n_observations := total_observations;
          a_choice_share := a_share; b_choice_share := b_share;
          present_n := length present; absent_n := length absent |}.

Definition analyze_single_attribute_corrected (cd : list choice_record) (attr : string)
    (levels : list string) : result (list level_result) :=
  for_each (analyze_level cd attr) levels.

End Testing.

End CorrectedAttribute.

(** * conjoint_analysis.py *)
Module ConjointAnalysis.

Record long_record : Type := {
  respondent_id : nat;
  task : nat;
  option_ : string;
  chosen : Z;
  perceived_learning : cell;
  expected_enjoyment : cell;
  grade : cell;
  prolific_id : cell;
  attrs : list (string * cell)
}.

(** [if col_name in row: record[attr.lower()] = row[col_name]] *)
Definition add_attribute (r : row) (opt : string) (t : nat)
    (d : list (string * cell)) (attr : string) : list (string * cell) :=
  let col_name := attr_col opt attr t in
  match r !! col_name with
  | Some v => dict_set d (lower attr) v
  | None => d
  end.

Definition build_option (idx : nat) (r : row) (t : nat) (ch : cell) (opt : string)
  : result long_record :=
  let learning_col := "Task" +:+ fmt_nat t +:+ "_perceivedlearning" in
  let enjoyment_col := "Task" +:+ fmt_nat t +:+ "_expectedenjoyment" in
  pl ← (if cell_eq_str ch opt then getitem r learning_col else Ok CNaN);
  ee ← (if cell_eq_str ch opt then getitem r enjoyment_col else Ok CNaN);
  g ← getitem r "Grade";
  pid ← getitem r "Prolific_ID";
  mret {| respondent_id := idx; task := t; option_ := opt;
          chosen := if cell_eq_str ch opt then 1%Z else 0%Z;
          perceived_learning := pl; expected_enjoyment := ee;
          grade := g; prolific_id := pid;
          attrs := foldl (add_attribute r opt t) [] attributes |}.

Definition build_task (idx : nat) (r : row) (t : nat) : result (list long_record) :=
  ch ← getitem r (choice_col t);
  for_each (build_option idx r t ch) ["A"; "B"].

Definition _convert_to_long_format (df : list row) : result (list long_record) :=
  per_row ←
    for_each (fun '(idx, r) => recs ← for_each (build_task idx r) tasks; mret (concat recs))
             (iterrows df);
  mret (concat per_row).

End ConjointAnalysis.

(** * enhanced_conjoint_analysis.py *)
Module EnhancedConjoint.

Record choice_record : Type := {
  respondent_id : nat;
  task : nat;
  chosen_option : cell;
  grade : cell;
  prolific_id : cell;
  option_attrs : list (string * cell)
}.

Record rating_record : Type := {
  r_respondent_id : nat;
  r_task : nat;
  r_chosen_option : cell;
  perceived_learning : cell;
  expected_enjoyment : cell;
  r_grade : cell;
  chosen_attrs : list (string * cell)
}.

(** [if col_name in row: choice_record[f'{option}_{attr.lower()}'] = row[col_name]] *)
Definition add_option_attribute (r : row) (t : nat) (opt : string)
    (d : list (string * cell)) (attr : string) : list (string * cell) :=
  let col_name := attr_col opt attr t in
  match r !! col_name with
  | Some v => dict_set d (opt +:+ "_" +:+ lower attr) v
  | None => d
  end.

Definition add_option (r : row) (t : nat) (d : list (string * cell)) (opt : string)
  : list (string * cell) :=
  foldl (add_option_attribute r t opt) d attributes.

(** [if col_name in row: rating_record[attr.lower()] = row[col_name]] *)
Definition add_chosen_attribute (r : row) (t : nat) (ch : string)
    (d : list (string * cell)) (attr : string) : list (string * cell) :=
  let col_name := attr_col ch attr t in
  match r !! col_name with
  | Some v => dict_set d (lower attr) v
  | None => d
  end.

(** [choice in ['A', 'B']], with the chosen label *)
Definition chosen_label (ch : cell) : option string :=
  if cell_eq_str ch "A" then Some "A"
  else if cell_eq_str ch "B" then Some "B"
  else None.

Definition build_task (idx : nat) (r : row) (t : nat)
  : result (choice_record * list rating_record) :=
  let learning_col := "Task" +:+ fmt_nat t +:+ "_perceivedlearning" in
  let enjoyment_col := "Task" +:+ fmt_nat t +:+ "_expectedenjoyment" in
  ch ← getitem r (choice_col t);
  g ← getitem r "Grade";
  pid ← getitem r "Prolific_ID";
  let cr := {| respondent_id := idx; task := t; chosen_option := ch; grade := g;
               prolific_id := pid; option_attrs := foldl (add_option r t) [] ["A"; "B"] |} in
  match chosen_label ch with
  | Some lbl =>
      pl ← getitem r learning_col;
      if isna pl then mret (cr, [])
      else
        ee ← getitem r enjoyment_col;
        g' ← getitem r "Grade";
        mret (cr, [ {| r_respondent_id := idx; r_task := t; r_chosen_option := ch;
                       perceived_learning := pl; expected_enjoyment := ee; r_grade := g';
                       chosen_attrs := foldl (add_chosen_attribute r t lbl) [] attributes |} ])
  | None => mret (cr, [])
  end.

Definition _convert_to_enhanced_long_format (df : list row)
  : result (list choice_record * list rating_record) :=
  per_row ← for_each (fun '(idx, r) => for_each (build_task idx r) tasks) (iterrows df);
  let all := concat per_row in
  mret (all.*1, concat (all.*2)).

End EnhancedConjoint.

(** * Executable stand-ins for the libraries

    The properties below hold for every implementation of the interfaces.  To
    run the scripts on concrete tables this module gives one implementation
    of each: exact rational arithmetic where the library is exact, and a
    rational approximation where it is transcendental. *)
Module Reference.

(** Text of a float with an integral value, as [str] prints it. *)
Definition repr_integral : PyRuntime :=
  {| float_repr := fun q =>
       (if (Qnum q <? 0)%Z then "-" else "")
       +:+ pretty (Z.to_N (Z.abs (Qnum q) / Zpos (Qden q))) +:+ ".0" |}.

(** *** numpy.random: a linear congruential generator *)
Fixpoint lcg_draws (k n : nat) (g : N) : list nat * N :=
  match k with
  | O => ([], g)
  | S k' =>
      let g1 := ((g * 1103515245 + 12345) mod 2147483648)%N in
      let '(l, g2) := lcg_draws k' n g1 in
      (N.to_nat (g1 mod N.of_nat n) :: l, g2)
  end.

Lemma lcg_draws_length k n g : length (lcg_draws k n g).1 = k.
Proof.
  revert g; induction k as [|k IH]; intros g; simpl; [reflexivity|].
  specialize (IH ((g * 1103515245 + 12345) mod 2147483648)%N).
  destruct (lcg_draws k n _) as [l g2]; simpl in *. now rewrite IH.
Qed.

Lemma lcg_draws_range k n g :
  (0 < n)%nat -> Forall (fun i => (i < n)%nat) (lcg_draws k n g).1.
Proof.
  intros Hn. revert g; induction k as [|k IH]; intros g; simpl; [constructor|].
  specialize (IH ((g * 1103515245 + 12345) mod 2147483648)%N).
  destruct (lcg_draws k n _) as [l g2]; simpl in *.
  constructor; [|exact IH].
  assert (Hlt : (((g * 1103515245 + 12345) mod 2147483648) mod N.of_nat n < N.of_nat n)%N)
    by (apply N.mod_lt; lia).
  lia.
Qed.

Definition lcg : NpRandom.
Proof.
  refine {| rng_state := N; random_choice := fun n g => lcg_draws n n g |}.
  intros n g; split; [apply lcg_draws_length|].
  destruct n as [|n]; [constructor|apply lcg_draws_range; lia].
Defined.

(** *** scikit-learn: one gradient step from zero *)
Definition rectangular (X : matrix) : bool :=
  forallb (fun r => (length r =? ncols X)%nat) X.

Definition centred (y : Z) : Q := inject_Z y - 0.5.

Definition one_step_coefs (X : matrix) (y : list Z) : list Q :=
  map (fun j => dot (col_of X j) (map centred y) / inject_Z (Z.of_nat (length X)))%Q
      (seq 0 (ncols X)).

Definition both_classes (y : list Z) : bool :=
  existsb (Z.eqb 0) y && existsb (Z.eqb 1) y.

Definition one_step_fit (s : nat) (X : matrix) (y : list Z) : result (list Q) :=
  match X with
  | [] => Raise ValueError
  | _ =>
      if rectangular X && (length X =? length y)%nat && both_classes y
      then Ok (one_step_coefs X y)
      else Raise ValueError
  end.

Definition clamp01 (q : Q) : Q :=
  if Qltb q 0 then 0%Q else if Qltb 1 q then 1%Q else q.

Definition linear_proba (coefs : list Q) (X : matrix) : list Q :=
  map (fun r => clamp01 (0.5 + dot r coefs / 4))%Q X.

Lemma one_step_fit_shape s X y m :
  one_step_fit s X y = Ok m -> X <> [] /\ Forall (fun r => length r = length m) X.
Proof.
  unfold one_step_fit. destruct X as [|r0 X']; [discriminate|].
  destruct (rectangular (r0 :: X') && (length (r0 :: X') =? length y)%nat && both_classes y)
    eqn:Hok; [|discriminate].
  intros [= <-]. split; [discriminate|].
  apply andb_prop in Hok as [Hok _]. apply andb_prop in Hok as [Hrect _].
  unfold one_step_coefs. rewrite length_map, length_seq.
  unfold rectangular in Hrect. rewrite forallb_forall in Hrect.
  apply Forall_forall. intros r Hr. apply list_elem_of_In in Hr.
  specialize (Hrect r Hr). now apply Nat.eqb_eq in Hrect.
Qed.

Definition one_step : Sklearn.
Proof.
  refine {| lr_model := list Q; lr_fit := one_step_fit; coef_ := fun m => m;
            predict_proba1 := linear_proba |}.
  - exact one_step_fit_shape.
  - intros m X. unfold linear_proba. apply length_map.
Defined.

(** *** numpy: truncated square root, inverse by cofactors *)
Definition sqrt6 (q : Q) : Q :=
  inject_Z (Z.sqrt (Qnum q * 1000000000000 / Zpos (Qden q))) / 1000000.

Definition drop_nth {A} (j : nat) (l : list A) : list A := take j l ++ drop (S j) l.

(** Determinant by expansion along the first row; [n] bounds the size. *)
Fixpoint det (n : nat) (M : matrix) : Q :=
  match n, M with
  | S n', r :: rest =>
      Qsum (imap (fun j x =>
                    (if Nat.even j then x else - x) * det n' (map (drop_nth j) rest))%Q r)
  | _, _ => 1%Q
  end.

Definition cofactor_inverse (M : matrix) : result matrix :=
  let n := length M in
  if negb (forallb (fun r => (length r =? n)%nat) M) then Raise LinAlgError
  else
    let d := det n M in
    if Qeq_bool d 0 then Raise LinAlgError
    else
      Ok (map (fun i =>
                 map (fun j =>
                        let minor := map (drop_nth i) (drop_nth j M) in
                        ((if Nat.even (i + j) then 1 else -1) * det (n - 1) minor / d)%Q)
                     (seq 0 n))
              (seq 0 n)).

Definition exact_numpy : NumPy := {| np_sqrt := sqrt6; linalg_inv := cofactor_inverse |}.

(** *** scipy.stats: rational approximations *)

(** The normal distribution function by the rational bound of Abramowitz
    and Stegun 26.2.19. *)
Definition phi (z : Q) : Q :=
  let a := Qabs z in
  let s := (1 + 0.196854 * a + 0.115194 * a * a + 0.000344 * a * a * a
            + 0.019527 * a * a * a * a)%Q in
  let tail := (1 / (2 * (s * s * s * s)))%Q in
  if Qltb z 0 then tail else (1 - tail)%Q.

(** Pearson's statistic of a 2x2 table with Yates' correction, referred to
    the normal distribution; a zero expected count raises. *)
Definition chi2_2x2 (table : list (list Z)) : result pyfloat :=
  match table with
  | [[a; b]; [c; d]] =>
      let n := (a + b + c + d)%Z in
      let e (r k : Z) := (inject_Z (r * k) / inject_Z n)%Q in
      let cells := [(a, e (a + b) (a + c)); (b, e (a + b) (b + d));
                    (c, e (c + d) (a + c)); (d, e (c + d) (b + d))]%Z in
      if existsb (fun '(_, ex) => Qeq_bool ex 0) cells then Raise ValueError
      else
        let term '(o, ex) :=
          (let dev := Qabs (inject_Z o - ex) in
           let dev' := if Qltb dev 0.5 then 0 else dev - 0.5 in
           dev' * dev' / ex)%Q in
        let stat := Qsum (map term cells) in
        Ok (Fin (2 * (1 - phi (sqrt6 stat))))
  | _ => Raise ValueError
  end.

Definition mean_q (l : list Z) : Q :=
  (inject_Z (foldr Z.add 0%Z l) / inject_Z (Z.of_nat (length l)))%Q.

Definition ss_q (l : list Z) : Q :=
  Qsum (map (fun x => (inject_Z x - mean_q l) * (inject_Z x - mean_q l))%Q l).

(** Student's two-sample statistic with pooled variance, referred to the
    normal distribution; NaN when the pooled variance vanishes. *)
Definition t_pooled (x y : list Z) : result pyfloat :=
  let n1 := inject_Z (Z.of_nat (length x)) in
  let n2 := inject_Z (Z.of_nat (length y)) in
  let df := (n1 + n2 - 2)%Q in
  if Qle_bool df 0 then Ok NaN
  else
    let sp2 := ((ss_q x + ss_q y) / df)%Q in
    let denom := sqrt6 (sp2 * (1 / n1 + 1 / n2)) in
    if Qeq_bool denom 0 then Ok NaN
    else Ok (Fin (2 * (1 - phi (Qabs ((mean_q x - mean_q y) / denom))))).

Definition approx_scipy : SciPy :=
  {| norm_cdf := phi; chi2_contingency := chi2_2x2; ttest_ind := t_pooled |}.

(** *** statsmodels: the one-step coefficients with unit standard errors *)
Definition quick_logit (y : list Z) (X : design) : result (list Q * list Q) :=
  match exog X, exog_names X with
  | [], _ | _, [] => Raise ValueError
  | _, _ =>
      if forallb (fun r => (length r =? length (exog_names X))%nat) (exog X)
         && (length (exog X) =? length y)%nat
      then
        let coefs :=
          map (fun j => dot (col_of (exog X) j) (map centred y)
                        / inject_Z (Z.of_nat (length y)))%Q
              (seq 0 (length (exog_names X))) in
        Ok (coefs, linear_proba coefs (exog X))
      else Raise ValueError
  end.

Lemma quick_logit_shape y X r :
  quick_logit y X = Ok r -> length r.1 = length (exog_names X).
Proof.
  unfold quick_logit. destruct (exog X); [discriminate|].
  destruct (exog_names X) eqn:E; [discriminate|].
  match goal with |- context [if ?c then _ else _] => destruct c end; [|discriminate].
  intros [= <-]. simpl. now rewrite length_map, length_seq.
Qed.

Definition quick_statsmodels : Statsmodels.
Proof.
  refine {| logit_result := list Q * list Q;
            logit_fit := quick_logit;
            params := fun r => r.1;
            pvalues := fun r => map (fun c => Fin (2 * (1 - phi c))) r.1;
            bse := fun r => map (fun _ => 1%Q) r.1;
            conf_int := fun r => map (fun c => (c - 1.96, c + 1.96)%Q) r.1;
            predict := fun r => r.2 |}.
  intros y X r Hfit. apply quick_logit_shape in Hfit.
  rewrite !length_map. auto.
Defined.

End Reference.

(** * Vocabulary of the statements and sample tables *)
Module Spec.

(** Keys of a dict after [d[k] = v]. *)
Definition set_key (ks : list string) (k : string) : list string :=
  if existsb (String.eqb k) ks then ks else ks ++ [k].

(** The design columns one attribute contributes to the effects-coded
    frame: one per Pricing level, one difference column otherwise. *)
Definition coded_columns (attr : string) : list string :=
  if String.eqb attr "Pricing"
  then map (fun l => attr +:+ "_" +:+ l) ["free"; "4.99"; "7.99"; "9.99"; "12.99"]
  else [attr +:+ "_diff"].

(** Both alternatives' columns of every attribute are in the row. *)
Definition attribute_columns_present (r : row) (t : nat) : Prop :=
  Forall (fun attr => is_Some (r !! attr_col "A" attr t) /\ is_Some (r !! attr_col "B" attr t))
         attributes.

Definition learning_col (t : nat) : string := "Task" +:+ fmt_nat t +:+ "_perceivedlearning".
Definition enjoyment_col (t : nat) : string := "Task" +:+ fmt_nat t +:+ "_expectedenjoyment".

(** The Average Marginal Effect of a coefficient in percentage points, as
    the specification words it: the mean over the choice sets of
    p(1 - p), times the coefficient, times 100. *)
Definition average_marginal_effect (fitted : list Q) (coef : Q) : Q :=
  (Qsum (map (fun p => p * (1 - p)) fitted) / inject_Z (Z.of_nat (length fitted))
   * coef * 100)%Q.

(** Equality of floats up to the representation of the rational. *)
Definition feq (a b : pyfloat) : Prop :=
  match a, b with
  | Fin x, Fin y => (x == y)%Q
  | NaN, NaN => True
  | _, _ => False
  end.

(** The codes of the levels that [get_all_attribute_levels] lists for an
    attribute. *)
Definition levels_of (attr : string) : list string :=
  map ConditionalLogit.lv_code
      (filter (fun lv => ConditionalLogit.lv_attribute lv = attr)
              ConditionalLogit.get_all_attribute_levels).

(** The step of a loop that stores [val x] under [key x] when there is one:
    the shape of the guarded assignments [if col in row: record[k] = row[col]]. *)
Definition cond_set {A V} (key : A -> string) (val : A -> option V)
    (d : list (string * V)) (x : A) : list (string * V) :=
  match val x with
  | Some v => dict_set d (key x) v
  | None => d
  end.

(** *** A sample survey table *)
Definition level_a (attr : string) : string :=
  if String.eqb attr "Tutor" then "Female AI tutor"
  else if String.eqb attr "Color_palette" then "Friendly & warm (coral / lavender / peach)"
  else if String.eqb attr "Pricing" then "Free trial + $4.99/month"
  else if String.eqb attr "Message_success_"
       then "Great job — your effort and persistence helped you solve this!"
  else if String.eqb attr "Message_failure_"
       then "This design didn't launch successfully. Here is what went wrong."
  else if String.eqb attr "Storytelling"
       then "No story: Just design and test rockets in a sandbox-style game."
  else "No specific role: Just design a rocket and see how it works.".

Definition level_b (attr : string) : string :=
  if String.eqb attr "Tutor" then "Male AI tutor"
  else if String.eqb attr "Color_palette" then "Tech & bold (deep blue / black / neon)"
  else if String.eqb attr "Pricing" then "Free trial + $12.99/month"
  else if String.eqb attr "Message_success_"
       then "Great job — your effort and persistence helped you solve this!"
  else if String.eqb attr "Message_failure_"
       then "This design didn't launch successfully. Here is what went wrong."
  else if String.eqb attr "Storytelling"
       then "No story: Just design and test rockets in a sandbox-style game."
  else "No specific role: Just design a rocket and see how it works.".

(** The cells of one task: [swap attr] shows the two levels of the
    attribute in the other order. *)
Definition task_cells (ch : cell) (swap : string -> bool) (t : nat) : list (string * cell) :=
  (choice_col t, ch)
  :: (learning_col t, CNum 4)
  :: (enjoyment_col t, CNum 3)
  :: flat_map (fun attr =>
                 [(attr_col "A" attr t, CStr (if swap attr then level_b attr else level_a attr));
                  (attr_col "B" attr t, CStr (if swap attr then level_a attr else level_b attr))])
              attributes.

Definition sample_row (ch : nat -> cell) (swap : nat -> string -> bool) : row :=
  list_to_map (("Grade", CNum 5) :: ("Prolific_ID", CStr "P-001")
               :: flat_map (fun t => task_cells (ch t) (swap t) t) tasks).

(** A respondent whose first three answers are missing, empty and "C". *)
Definition odd_choices (t : nat) : cell :=
  match t with
  | 1 => CNaN
  | 2 => CStr ""
  | 3 => CStr "C"
  | _ => if Nat.even t then CStr "A" else CStr "B"
  end.

Definition row_odd : row := sample_row odd_choices (fun _ _ => false).

(** The same table without the column [A_Tutor1]. *)
Definition row_without_tutor : row := delete "A_Tutor1" row_odd.

(** A respondent who answers A on even tasks.  The tutors are shown in the
    other order on even tasks, so each tutor is in A as often as in B; the
    other attributes are shown in the other order on tasks 3 and 6. *)
Definition row_regular : row :=
  sample_row (fun t => if Nat.even t then CStr "A" else CStr "B")
             (fun t attr => if String.eqb attr "Tutor" then Nat.even t else (t mod 3 =? 0)%nat).

(** The matrix both Wald routines invert: X^T W X with the weights
    p(1 - p) of the fitted probabilities. *)
Definition weighted_gram {sk : Sklearn} {np : NumPy} (model : lr_model) (X : matrix) : matrix :=
  gram (scale_rows X (map np_sqrt (map (fun p => p * (1 - p))%Q (predict_proba1 model X)))).

(** What a run reports besides the p-values. *)
Definition estimates {S : Type} (out : list FinalRobust.result_row * S)
  : list (string * Q * Q) :=
  map (fun r => (FinalRobust.feature r, FinalRobust.coefficient r, FinalRobust.pp_effect r)) out.1.

(** The difference columns [create_attribute_dummies] defines for an
    attribute. *)
Definition dummy_columns (attr : string) : list string :=
  if String.eqb attr "Tutor" then ["female_tutor_diff"; "male_tutor_diff"]
  else if String.eqb attr "Color_palette" then ["friendly_colors_diff"; "tech_colors_diff"]
  else if String.eqb attr "Pricing" then
    ["school_pays_diff"; "pricing_4.99_diff"; "pricing_7.99_diff"; "pricing_9.99_diff";
     "pricing_12.99_diff"]
  else if String.eqb attr "Message_success_" then ["growth_message_diff"; "brilliance_message_diff"]
  else if String.eqb attr "Message_failure_" then ["supportive_message_diff"; "neutral_message_diff"]
  else if String.eqb attr "Storytelling" then ["space_rescue_story_diff"; "no_story_diff"]
  else if String.eqb attr "Role_play" then ["hero_astronaut_diff"; "no_specific_role_diff"]
  else [].







(** The values of a difference column of the frame, one per choice set. *)
Definition difference_column (cd : list ImprovedLogit.choice_record) (f : string) : list Q :=
  map (fun rec => inject_Z (default 0%Z (dict_get (ImprovedLogit.diffs rec) f))) cd.

(** A record reduced to what the estimation reads. *)
Definition anonymise (r : ImprovedLogit.choice_record) : ImprovedLogit.choice_record :=
  {| ImprovedLogit.respondent_id := 0; ImprovedLogit.task := 0;
     ImprovedLogit.choice_set_id := ""; ImprovedLogit.chosen_a := ImprovedLogit.chosen_a r;
     ImprovedLogit.grade := CNaN; ImprovedLogit.diffs := ImprovedLogit.diffs r |}.


(** *** Sample frames *)

(** A design whose first column is zero in every row, with its labels and
    the coefficients the one-step fit gives. *)
Definition singular_design : matrix := [[0; 2]; [0; -2]; [0; 2]; [0; 2]]%Q.
Definition singular_labels : list Z := [1; 0; 1; 0]%Z.
Definition singular_model : @lr_model Reference.one_step :=
  Reference.one_step_coefs singular_design singular_labels.

(** A fitted result with one coefficient and two fitted probabilities. *)
Definition quick_result : @logit_result Reference.quick_statsmodels :=
  ([1%Q], [1 # 5; 4 # 5]%Q).

(** The difference frame of the regular respondent. *)
Definition regular_frame : list ImprovedLogit.choice_record :=
  match ImprovedLogit.convert_to_choice_format [row_regular] with
  | Ok cd => cd
  | Raise _ => []
  end.

(** A respondent who is shown the same two alternatives in every task. *)
Definition row_steady : row :=
  sample_row (fun t => if Nat.even t then CStr "A" else CStr "B") (fun _ _ => false).

Definition steady_frame : list ImprovedLogit.choice_record :=
  match ImprovedLogit.convert_to_choice_format [row_steady] with
  | Ok cd => cd
  | Raise _ => []
  end.

(** The effects-coded frame of the regular respondent. *)
Definition regular_coded_frame : list FinalRobust.choice_record :=
  match FinalRobust.convert_to_choice_format_final (py := Reference.repr_integral) [row_regular] with
  | Ok cd => cd
  | Raise _ => []
  end.

(** Eight choice sets over the Tutor attribute. *)
Definition tutor_record (idx t : nat) (a b : string) (ch : Z) : CorrectedAttribute.choice_record :=
  {| CorrectedAttribute.respondent_id := idx; CorrectedAttribute.task := t;
     CorrectedAttribute.choice := ch; CorrectedAttribute.grade := CNum 5;
     CorrectedAttribute.vals := [("A_Tutor", CStr a); ("B_Tutor", CStr b)] |}.

Definition tutor_frame : list CorrectedAttribute.choice_record :=
  [ tutor_record 0 1 "Female AI tutor" "Male AI tutor" 1;
    tutor_record 0 2 "Male AI tutor" "Male AI tutor" 0;
    tutor_record 0 3 "Male AI tutor" "Female AI tutor" 1;
    tutor_record 0 4 "Male AI tutor" "Male AI tutor" 0;
    tutor_record 1 1 "Female AI tutor" "Female AI tutor" 1;
    tutor_record 1 2 "Male AI tutor" "Male AI tutor" 0;
    tutor_record 1 3 "Male AI tutor" "Female AI tutor" 0;
    tutor_record 1 4 "Male AI tutor" "Male AI tutor" 1 ].


End Spec.

(** * Further scripts

    ** Exceptions of the later functions

    [AttributeError] and [ZeroDivisionError] join the exceptions of [exn]. *)

Inductive failure : Type :=
| Builtin (e : exn)
| AttributeError
| ZeroDivisionError.

Inductive outcome (A : Type) : Type :=
| Done (a : A)
| Failed (f : failure).
Arguments Done {A} a.
Arguments Failed {A} f.

#[global] Instance outcome_ret : MRet outcome := fun A a => Done a.
#[global] Instance outcome_bind : MBind outcome := fun A B f m =>
  match m with Done a => f a | Failed e => Failed e end.
#[global] Instance outcome_fmap : FMap outcome := fun A B f m =>
  match m with Done a => Done (f a) | Failed e => Failed e end.

(** A call of an earlier function inside a later one. *)
Definition lift {A} (m : result A) : outcome A :=
  match m with Ok a => Done a | Raise e => Failed (Builtin e) end.

(** Loops whose body may fail, as [for_each] and [for_fold]. *)
Fixpoint each {A B} (f : A -> outcome B) (xs : list A) : outcome (list B) :=
  match xs with
  | [] => Done []
  | x :: xs' => y ← f x; ys ← each f xs'; mret (y :: ys)
  end.

Fixpoint fold_each {A S} (f : S -> A -> outcome S) (xs : list A) (s : S) : outcome S :=
  match xs with
  | [] => Done s
  | x :: xs' => s' ← f s x; fold_each f xs' s'
  end.

(** * simple_conjoint_results.py: the coded differences *)
Module SimpleChoice.

(** An int for the two-level attributes, a dict for Pricing; the numbers of
    both are read as rationals. *)
Inductive coding : Type :=
| Scalar (v : Q)
| Levels (d : list (string * Q)).

Definition pm (b : bool) : coding := Scalar (if b then 1 else -1)%Q.

Definition pricing_levels (main free p499 p799 p999 p1299 : Q) : coding :=
  Levels [("main", main); ("free", free); ("4.99", p499); ("7.99", p799); ("9.99", p999);
          ("12.99", p1299)].

Definition effects_code {py : PyRuntime} (value : cell) (attr : string) : coding :=
  let value_str := py_str value in
  if String.eqb attr "Tutor" then pm (contains "Female" value_str)
  else if String.eqb attr "Color_palette" then pm (contains "Friendly" value_str)
  else if String.eqb attr "Pricing" then
    if contains "School pays" value_str then pricing_levels 1 1 0 0 0 (-1)
    else if contains "$4.99" value_str then pricing_levels 0.5 0 1 0 0 (-1)
    else if contains "$7.99" value_str then pricing_levels 0.3 0 0 1 0 (-1)
    else if contains "$9.99" value_str then pricing_levels 0.1 0 0 0 1 (-1)
    else pricing_levels (-1) (-1) (-1) (-1) (-1) 1
  else if String.eqb attr "Message_success_" then pm (contains "effort and persistence" value_str)
  else if String.eqb attr "Message_failure_" then
    pm (contains "mistakes are how scientists learn" value_str)
  else if String.eqb attr "Storytelling" then pm (contains "Space rescue story" value_str)
  else if String.eqb attr "Role_play" then pm (contains "Hero astronaut" value_str)
  else Scalar 0.

(** [a_effects.get('main', 0) - b_effects.get('main', 0)] for dicts,
    [a_effects - b_effects] otherwise; an int has no [get], and an int
    minus a dict is a TypeError. *)
Definition get_effects_difference {py : PyRuntime} (a_val b_val : cell) (attr : string)
  : outcome Q :=
  let a_effects := effects_code a_val attr in
  let b_effects := effects_code b_val attr in
  match a_effects with
  | Levels da =>
      match b_effects with
      | Levels db => Done (default 0 (dict_get da "main") - default 0 (dict_get db "main"))%Q
      | Scalar _ => Failed AttributeError
      end
  | Scalar a =>
      match b_effects with
      | Scalar b => Done (a - b)%Q
      | Levels _ => Failed (Builtin TypeError)
      end
  end.

Record choice_record : Type := {
  respondent_id : nat;
  task : nat;
  choice : Z;
  grade : cell;
  diffs : list (string * Q)
}.

Definition add_attribute {py : PyRuntime} (r : row) (t : nat)
    (d : list (string * Q)) (attr : string) : outcome (list (string * Q)) :=
  a_val ← lift (getitem r (attr_col "A" attr t));
  b_val ← lift (getitem r (attr_col "B" attr t));
  v ← get_effects_difference a_val b_val attr;
  mret (dict_set d (attr +:+ "_diff") v).

Definition build_record {py : PyRuntime} (idx : nat) (r : row) (t : nat) : outcome choice_record :=
  ch ← lift (getitem r (choice_col t));
  g ← lift (getitem r "Grade");
  d ← fold_each (add_attribute r t) attributes [];
  mret {| respondent_id := idx; task := t;
          choice := if cell_eq_str ch "A" then 1%Z else 0%Z;
          grade := g; diffs := d |}.

Definition convert_to_choice_format {py : PyRuntime} (df : list row)
  : outcome (list choice_record) :=
  per_row ← each (fun '(idx, r) => each (build_record idx r) tasks) (iterrows df);
  mret (concat per_row).

End SimpleChoice.

(** * conjoint_analysis.py: part-worth utilities, importance and simulation *)

(** The utilities start as Python ints and are overwritten by coefficients,
    which are numpy floats; the quotient of two ints raises on a zero
    divisor, a numpy float divided by zero is nan or an infinity. *)
Inductive number : Type :=
| PyInt (z : Z)
| NpFloat (q : Q).

Definition value (n : number) : Q :=
  match n with PyInt z => inject_Z z | NpFloat q => q end.

Definition num_add (a b : number) : number :=
  match a, b with
  | PyInt x, PyInt y => PyInt (x + y)
  | _, _ => NpFloat (value a + value b)
  end.

Definition num_sub (a b : number) : number :=
  match a, b with
  | PyInt x, PyInt y => PyInt (x - y)
  | _, _ => NpFloat (value a - value b)
  end.

Definition num_abs (a : number) : number :=
  match a with PyInt z => PyInt (Z.abs z) | NpFloat q => NpFloat (Qabs q) end.

Definition num_lt (a b : number) : bool := Qltb (value a) (value b).

(** The builtins [max] and [min] on a non-empty list keep the first of
    several extreme items. *)
Fixpoint max_from (best : number) (rest : list number) : number :=
  match rest with
  | [] => best
  | x :: rest' => max_from (if num_lt best x then x else best) rest'
  end.

Fixpoint min_from (best : number) (rest : list number) : number :=
  match rest with
  | [] => best
  | x :: rest' => min_from (if num_lt x best then x else best) rest'
  end.

(** The builtin [sum]: it starts from the int 0. *)
Definition py_sum (l : list number) : number := foldl num_add (PyInt 0) l.

(** A quotient as Python and numpy give it. *)
Inductive quotient : Type :=
| Finite (q : Q)
| Infinity (negative : bool)
| NotANumber.

Definition num_div (a b : number) : outcome quotient :=
  match a, b with
  | PyInt x, PyInt y =>
      if (y =? 0)%Z then Failed ZeroDivisionError else Done (Finite (inject_Z x / inject_Z y))
  | _, _ =>
      if Qeq_bool (value b) 0
      then Done (if Qeq_bool (value a) 0 then NotANumber else Infinity (Qltb (value a) 0))
      else Done (Finite (value a / value b))
  end.

(** [x * 100] *)
Definition times_100 (x : quotient) : quotient :=
  match x with
  | Finite q => Finite (q * 100)
  | other => other
  end.

(** [math.exp] on arrays: numpy's exponential, positive and increasing on
    the numbers it is applied to. *)
Class NumPyExp := {
  np_exp : Q -> Q;
  np_exp_positive : forall x, (0 < np_exp x)%Q;
  np_exp_increasing : forall x y, (x < y)%Q -> (np_exp x < np_exp y)%Q
}.

Abbreviation utility_table := (list (string * list (string * number))).

(** The table both analyzers start from: every level at the int 0. *)
Definition initial_utilities : utility_table :=
  [("tutor", [("Female", PyInt 0); ("Male", PyInt 0)]);
   ("color", [("Warm", PyInt 0); ("Tech", PyInt 0)]);
   ("pricing", [("Free", PyInt 0); ("$4.99", PyInt 0); ("$7.99", PyInt 0); ("$9.99", PyInt 0);
                ("$12.99", PyInt 0)]);
   ("message_success", [("Growth", PyInt 0); ("Brilliance", PyInt 0)]);
   ("message_failure", [("Supportive", PyInt 0); ("Neutral", PyInt 0)]);
   ("storytelling", [("Story", PyInt 0); ("No_Story", PyInt 0)]);
   ("role_play", [("Role_Play", PyInt 0); ("No_Role", PyInt 0)])].

(** [utilities[attr][level] = v] *)
Definition set_level (u : utility_table) (attr level : string) (v : number)
  : outcome utility_table :=
  match dict_get u attr with
  | Some levels => Done (dict_set u attr (dict_set levels level v))
  | None => Failed (Builtin (KeyError attr))
  end.

(** The raw importance of one attribute: the range for pricing, the
    absolute difference of the first two levels otherwise. *)
Definition raw_importance (attr : string) (levels : list (string * number)) : outcome number :=
  let values := levels.*2 in
  if String.eqb attr "pricing" then
    match values with
    | [] => Failed (Builtin ValueError)
    | v :: vs => Done (num_sub (max_from v vs) (min_from v vs))
    end
  else
    match values with
    | v0 :: v1 :: _ => Done (num_abs (num_sub v1 v0))
    | _ => Failed (Builtin IndexError)
    end.

(** [_calculate_importance] of both analyzers, on the importance dict the
    analyzer starts with (empty). *)
Definition _calculate_importance (u : utility_table) : outcome (list (string * quotient)) :=
  raw ← fold_each (fun imp '(attr, levels) =>
                     v ← raw_importance attr levels; mret (dict_set imp attr v))
                  u [];
  let total_importance := py_sum raw.*2 in
  fold_each (fun imp '(attr, v) =>
               share ← num_div v total_importance; mret (dict_set imp attr (times_100 share)))
            raw [].

(** The total utility of one configuration: pairs the table does not know
    are skipped. *)
Definition total_utility (u : utility_table) (config : list (string * string)) : number :=
  foldl (fun total '(attr, level) =>
           match dict_get u attr with
           | Some levels =>
               match dict_get levels level with
               | Some v => num_add total v
               | None => total
               end
           | None => total
           end)
        (PyInt 0) config.

Record simulation_row : Type := {
  scenario : string;
  scenario_utility : number;
  choice_probability : Q
}.

(** The rows of the simulation frame, before they are sorted by
    probability. *)
Definition simulation_rows {ex : NumPyExp} (u : utility_table)
    (scenarios : list (string * list (string * string))) : list simulation_row :=
  let scenario_utilities :=
    foldl (fun d '(name, config) => dict_set d name (total_utility u config)) [] scenarios in
  let exp_utilities := map (fun kv => np_exp (value kv.2)) scenario_utilities in
  let denominator := Qsum exp_utilities in
  zip_with (fun kv e => {| scenario := kv.1; scenario_utility := kv.2;
                           choice_probability := (e / denominator)%Q |})
           scenario_utilities exp_utilities.

Module ConjointUtilities.

(** [feature.split('_')[-1]] *)
Fixpoint last_segment_from (acc s : string) : string :=
  match s with
  | EmptyString => acc
  | String c s' =>
      if Ascii.eqb c "_"%char then last_segment_from "" s'
      else last_segment_from (acc +:+ String c "") s'
  end.

Definition last_segment (s : string) : string := last_segment_from "" s.

(** The branch one feature name takes. *)
Definition assign (u : utility_table) (feature : string) (coef : Q) : outcome utility_table :=
  if contains "tutor_simple_Male" feature then set_level u "tutor" "Male" (NpFloat coef)
  else if contains "color_simple_Tech" feature then set_level u "color" "Tech" (NpFloat coef)
  else if contains "pricing_simple_" feature
       then set_level u "pricing" (last_segment feature) (NpFloat coef)
  else if contains "message_success_simple_Brilliance" feature
       then set_level u "message_success" "Brilliance" (NpFloat coef)
  else if contains "message_failure_simple_Neutral" feature
       then set_level u "message_failure" "Neutral" (NpFloat coef)
  else if contains "storytelling_simple_No_Story" feature
       then set_level u "storytelling" "No_Story" (NpFloat coef)
  else if contains "role_play_simple_No_Role" feature
       then set_level u "role_play" "No_Role" (NpFloat coef)
  else Done u.

(** [_calculate_utilities]: the table, then its importance scores. *)
Definition _calculate_utilities (feature_names : list string) (coefficients : list Q)
  : outcome (utility_table * list (string * quotient)) :=
  u ← fold_each (fun u '(i, feature) =>
                   coef ← lift (at_index coefficients i); assign u feature coef)
                (imap (fun i f => (i, f)) feature_names) initial_utilities;
  importance ← _calculate_importance u;
  mret (u, importance).

End ConjointUtilities.

(** * enhanced_conjoint_analysis.py: utilities from difference coefficients *)
Module EnhancedUtilities.

(** [utilities[attr][up] = coef; utilities[attr][down] = -coef] *)
Definition set_pair (u : utility_table) (attr up down : string) (coef : Q)
  : outcome utility_table :=
  u' ← set_level u attr up (NpFloat coef);
  set_level u' attr down (NpFloat (- coef)).

Definition assign (u : utility_table) (feature : string) (coef : Q) : outcome utility_table :=
  if contains "tutor_diff" feature then set_pair u "tutor" "Male" "Female" coef
  else if contains "color_diff" feature then set_pair u "color" "Tech" "Warm" coef
  else if contains "pricing_diff" feature then set_level u "pricing" "$4.99" (NpFloat coef)
  else if contains "message_success_diff" feature
       then set_pair u "message_success" "Brilliance" "Growth" coef
  else if contains "message_failure_diff" feature
       then set_pair u "message_failure" "Neutral" "Supportive" coef
  else if contains "storytelling_diff" feature
       then set_pair u "storytelling" "No_Story" "Story" coef
  else if contains "role_play_diff" feature
       then set_pair u "role_play" "No_Role" "Role_Play" coef
  else Done u.

Definition _calculate_utilities_from_coefficients (feature_names : list string)
    (coefficients : list Q) : outcome (utility_table * list (string * quotient)) :=
  u ← fold_each (fun u '(i, feature) =>
                   coef ← lift (at_index coefficients i); assign u feature coef)
                (imap (fun i f => (i, f)) feature_names) initial_utilities;
  importance ← _calculate_importance u;
  mret (u, importance).

(** The columns the frame of [_prepare_conditional_logit_data] can hold
    besides the four that are dropped before the fit: the coded value of
    option A and the difference, per attribute, where the attribute has an
    effects column. *)
Definition model_attributes : list string :=
  ["tutor"; "color_palette"; "pricing"; "message_success_"; "message_failure_";
   "storytelling"; "role_play"].

Definition model_columns : list string :=
  (map (fun attr => "A_" +:+ attr) model_attributes
   ++ map (fun attr => attr +:+ "_diff") model_attributes)%list.

End EnhancedUtilities.

(** * Further vocabulary *)
Module Vocabulary.
(** The columns [convert_to_choice_format_final] reads for one task. *)
Definition required_columns (t : nat) : list string :=
  choice_col t :: "Grade"
  :: flat_map (fun attr => [attr_col "A" attr t; attr_col "B" attr t]) attributes.

(** A row that holds the columns of all eight tasks. *)
Definition complete_row (r : row) : Prop :=
  Forall (fun t => Forall (fun c => is_Some (r !! c)) (required_columns t)) tasks.

(** The record of the same task with the two alternatives exchanged. *)
Definition negate (d : list (string * Z)) : list (string * Z) :=
  map (fun kv => (kv.1, (- kv.2)%Z)) d.

(** [r'] shows in A what [r] shows in B, and the other way round. *)
Definition mirrored (r r' : row) (t : nat) : Prop :=
  Forall (fun attr => r' !! attr_col "A" attr t = r !! attr_col "B" attr t
                      /\ r' !! attr_col "B" attr t = r !! attr_col "A" attr t)
         attributes.

(** Weights of the eleven design columns of the effects-coded frame: 2 on
    the first four Pricing columns and 5 on [Pricing_12.99]. *)
Definition pricing_weights : list Q := [0; 0; 2; 2; 2; 2; 5; 0; 0; 0; 0]%Q.

Definition pricing_relation (feats : list (string * Z)) : Prop :=
  let v c := default 0%Z (dict_get feats c) in
  (2 * (v "Pricing_free" + v "Pricing_4.99" + v "Pricing_7.99" + v "Pricing_9.99")
   + 5 * v "Pricing_12.99" = 0)%Z.

(** A cell that holds text. *)
Definition is_text (c : cell) : bool :=
  match c with CStr _ => true | _ => false end.

Definition total (l : list Z) : Z := foldr Z.add 0%Z l.

(** The level texts that [get_level_info] lists for an attribute. *)
Definition study_levels (attr : string) : list string :=
  omap (fun code => match ImprovedLogit.get_level_info code with
                    | Some (a, lvl) => if String.eqb a attr then Some lvl else None
                    | None => None
                    end)
       ConditionalLogit.level_codes.

(** The place of a Pricing cell in the cascade of keyword tests, from
    "School pays" (0) to the fall-through taken by $12.99 (4). *)
Definition price_rank {py : PyRuntime} (value : cell) : nat :=
  let value_str := py_str value in
  if contains "School pays" value_str then 0
  else if contains "$4.99" value_str then 1
  else if contains "$7.99" value_str then 2
  else if contains "$9.99" value_str then 3
  else 4.

(** Whether a call returned. *)
Definition succeeded {A} (m : result A) : bool :=
  match m with Ok _ => true | Raise _ => false end.

(** *** Further sample tables *)

(** The regular respondent with the alternatives exchanged in every task. *)
Definition row_mirror : row :=
  Spec.sample_row (fun t => if Nat.even t then CStr "B" else CStr "A")
                  (fun t attr => negb (if String.eqb attr "Tutor" then Nat.even t
                                       else (t mod 3 =? 0)%nat)).

(** The frames of the regular respondent in the other scripts. *)
Definition regular_long_frame : list ConditionalLogit.alt_record :=
  match ConditionalLogit.convert_to_conditional_logit_format [Spec.row_regular] with
  | Ok cd => cd
  | Raise _ => []
  end.

Definition regular_level_frame : list CorrectedAttribute.choice_record :=
  match CorrectedAttribute.convert_to_choice_format_corrected [Spec.row_regular] with
  | Ok cd => cd
  | Raise _ => []
  end.

(** Two observations of one class: every resample has one class too. *)
Definition one_class_design : matrix := [[1]; [2]]%Q.
Definition one_class_labels : list Z := [1; 1]%Z.
(** [utilities[attr][level]], when both keys exist. *)
Definition level_utility (u : utility_table) (attr level : string) : option number :=
  match dict_get u attr with
  | Some levels => dict_get levels level
  | None => None
  end.

(** The two-level attributes of the utility table, with the level a
    coefficient is written to and the one that is its reference. *)
Definition binary_levels : list (string * string * string) :=
  [("tutor", "Male", "Female"); ("color", "Tech", "Warm");
   ("message_success", "Brilliance", "Growth"); ("message_failure", "Neutral", "Supportive");
   ("storytelling", "No_Story", "Story"); ("role_play", "No_Role", "Role_Play")].

(** The levels whose dummy column [run_choice_modeling] keeps as a feature,
    and the reference levels it removes. *)
Definition estimated_levels : list (string * string) :=
  [("tutor", "Male"); ("color", "Tech"); ("pricing", "$12.99"); ("pricing", "$4.99");
   ("pricing", "$7.99"); ("pricing", "$9.99"); ("message_success", "Brilliance");
   ("message_failure", "Neutral"); ("storytelling", "No_Story"); ("role_play", "No_Role")].

Definition reference_levels : list (string * string) :=
  [("tutor", "Female"); ("color", "Warm"); ("pricing", "Free"); ("message_success", "Growth");
   ("message_failure", "Supportive"); ("storytelling", "Story"); ("role_play", "Role_Play")].

(** The name [pd.get_dummies(..., prefix=attr + '_simple')] gives the
    column of a level. *)
Definition feature_name (al : string * string) : string := al.1 +:+ "_simple_" +:+ al.2.

(** The levels of the palette and of the two messages. *)
Definition palette_and_messages : list (string * string) :=
  [("color", "Warm"); ("color", "Tech"); ("message_success", "Growth");
   ("message_success", "Brilliance"); ("message_failure", "Supportive");
   ("message_failure", "Neutral")].

(** The difference columns whose name one of the tests of
    [_calculate_utilities_from_coefficients] finds. *)
Definition mapped_differences : list string :=
  ["tutor_diff"; "pricing_diff"; "storytelling_diff"; "role_play_diff"].

(** A record and what [create_dummy_variables] makes of it: the columns it
    had are kept, and the column of each level of [lvs] is 1 when the
    record shows the text of that level and 0 otherwise. *)
Definition dummy_coded (lvs : list ConditionalLogit.level_def)
    (r r' : ConditionalLogit.alt_record) : Prop :=
  ConditionalLogit.attrs r' = ConditionalLogit.attrs r
  /\ ConditionalLogit.chosen r' = ConditionalLogit.chosen r
  /\ ConditionalLogit.alternative r' = ConditionalLogit.alternative r
  /\ ConditionalLogit.choice_set_id r' = ConditionalLogit.choice_set_id r
  /\ forall lv, lv ∈ lvs ->
       exists z : Z,
         dict_get (ConditionalLogit.dummies r') (ConditionalLogit.lv_code lv) = Some z
         /\ (z = 0 \/ z = 1)%Z
         /\ (z = 1%Z <-> dict_get (ConditionalLogit.attrs r) (ConditionalLogit.lv_attribute lv)
                         = Some (CStr (ConditionalLogit.lv_value lv))).

(** A frame with the seven attribute columns and no row, as a filter
    leaves it. *)
Definition emptied_long_frame : ConditionalLogit.long_frame :=
  {| ConditionalLogit.attr_columns := attributes; ConditionalLogit.rows := [] |}.

(** A positive, increasing rational function in the place of the
    exponential. *)
Definition rational_exp (x : Q) : Q := if Qle_bool 0 x then 1 + x else 1 / (1 - x).

Lemma rational_exp_positive (x : Q) : (0 < rational_exp x)%Q.
Proof.
  unfold rational_exp. destruct (Qle_bool 0 x) eqn:E.
  - apply Qle_bool_iff in E. lra.
  - assert (Hx : (x < 0)%Q).
    { apply Qnot_le_lt. intros H. apply Qle_bool_iff in H. congruence. }
    apply Qlt_shift_div_l; lra.
Qed.

Lemma rational_exp_increasing (x y : Q) : (x < y)%Q -> (rational_exp x < rational_exp y)%Q.
Proof.
  intros Hxy. unfold rational_exp.
  destruct (Qle_bool 0 x) eqn:Ex; destruct (Qle_bool 0 y) eqn:Ey.
  - lra.
  - apply Qle_bool_iff in Ex.
    assert (Hy : (y < 0)%Q) by (apply Qnot_le_lt; intros H; apply Qle_bool_iff in H; congruence).
    lra.
  - apply Qle_bool_iff in Ey.
    assert (Hx : (x < 0)%Q) by (apply Qnot_le_lt; intros H; apply Qle_bool_iff in H; congruence).
    apply Qlt_le_trans with 1%Q; [apply Qlt_shift_div_r; lra|lra].
  - assert (Hx : (x < 0)%Q) by (apply Qnot_le_lt; intros H; apply Qle_bool_iff in H; congruence).
    assert (Hy : (y < 0)%Q) by (apply Qnot_le_lt; intros H; apply Qle_bool_iff in H; congruence).
    apply Qlt_shift_div_r; [lra|].
    assert (Heq : (1 / (1 - y) * (1 - x) == (1 - x) / (1 - y))%Q) by (field; lra).
    rewrite Heq. apply Qlt_shift_div_l; lra.
Qed.

Definition rational_numpy : NumPyExp :=
  {| np_exp := rational_exp;
     np_exp_positive := rational_exp_positive;
     np_exp_increasing := rational_exp_increasing |}.

(** *** Sample utilities *)

(** The default scenarios of [market_simulation]. *)
Definition default_scenarios : list (string * list (string * string)) :=
  [("Premium Female",
    [("tutor", "Female"); ("color", "Warm"); ("pricing", "Free"); ("message_success", "Growth");
     ("message_failure", "Supportive"); ("storytelling", "Story"); ("role_play", "Role_Play")]);
   ("Tech Male",
    [("tutor", "Male"); ("color", "Tech"); ("pricing", "$7.99");
     ("message_success", "Brilliance"); ("message_failure", "Neutral");
     ("storytelling", "No_Story"); ("role_play", "No_Role")]);
   ("Balanced",
    [("tutor", "Female"); ("color", "Warm"); ("pricing", "$4.99"); ("message_success", "Growth");
     ("message_failure", "Supportive"); ("storytelling", "Story"); ("role_play", "No_Role")])].

(** Ten coefficients, for the ten kept dummy columns in the order of
    [estimated_levels]. *)
Definition sample_coefficients : list Q :=
  [0.3; -0.2; -1.2; -0.4; -0.7; -0.9; 0.1; -0.1; -0.5; -0.25]%Q.

Definition sample_utilities : utility_table :=
  match ConjointUtilities._calculate_utilities (map feature_name estimated_levels)
          sample_coefficients with
  | Done (u, _) => u
  | Failed _ => []
  end.

(** Fourteen coefficients for the columns of [EnhancedUtilities.model_columns]. *)
Definition sample_difference_coefficients : list Q :=
  [0.1; 0.2; 0.3; 0.4; 0.5; 0.6; 0.7; 0.25; -0.5; -0.75; 1; -1; 0.125; -0.125]%Q.
End Vocabulary.

(** * Properties *)

Import Spec.

(** ** Comparisons, loops and dicts *)

Lemma Qltb_lt (x y : Q) : Qltb x y = true <-> (x < y)%Q.
Proof.
  unfold Qltb. rewrite negb_true_iff. split.
  - intros Hle. apply Qnot_le_lt. intros Hyx. apply Qle_bool_iff in Hyx. congruence.
  - intros Hlt. destruct (Qle_bool y x) eqn:E; [|reflexivity].
    apply Qle_bool_iff in E. exfalso. apply (Qlt_not_le _ _ Hlt E).
Qed.

Lemma Qltb_ge (x y : Q) : Qltb x y = false <-> (y <= x)%Q.
Proof.
  unfold Qltb. rewrite negb_false_iff. apply Qle_bool_iff.
Qed.

Lemma np_mean_nonempty (l : list Q) :
  l <> [] -> np_mean l = Fin (Qsum l / inject_Z (Z.of_nat (length l))).
Proof. destruct l; [congruence|reflexivity]. Qed.

Lemma length_pos_Q {A} (l : list A) : l <> [] -> (0 < inject_Z (Z.of_nat (length l)))%Q.
Proof.
  intros Hl. destruct l as [|x l]; [congruence|].
  change 0%Q with (inject_Z 0). rewrite <- Zlt_Qlt. cbn [length]. lia.
Qed.

Lemma getitem_some (r : row) col v : r !! col = Some v -> getitem r col = Ok v.
Proof. intros Hv. unfold getitem. now rewrite Hv. Qed.

Lemma at_index_some {A} (l : list A) i x : l !! i = Some x -> at_index l i = Ok x.
Proof. intros Hx. unfold at_index. now rewrite Hx. Qed.

Lemma for_each_ok_length {A B} (f : A -> result B) (xs : list A) (ys : list B) :
  for_each f xs = Ok ys -> length ys = length xs.
Proof.
  revert ys; induction xs as [|x xs IH]; intros ys; simpl.
  - now intros [= <-].
  - destruct (f x) as [y|e]; simpl; [|discriminate].
    destruct (for_each f xs) as [ys'|e]; simpl; [|discriminate].
    intros [= <-]. simpl. f_equal. now apply IH.
Qed.

Lemma for_each_total {A B} (f : A -> result B) (xs : list A) :
  Forall (fun x => exists y, f x = Ok y) xs ->
  exists ys, for_each f xs = Ok ys /\ length ys = length xs.
Proof.
  induction 1 as [|x xs [y Hy] _ (ys & Hys & Hlen)]; cbn [for_each]; [eauto|].
  rewrite Hy, Hys. cbn. eexists; split; [reflexivity|]. cbn. now rewrite Hlen.
Qed.

Lemma for_each_lookup_inv {A B} (f : A -> result B) (xs : list A) (ys : list B) i y :
  for_each f xs = Ok ys -> ys !! i = Some y -> exists x, xs !! i = Some x /\ f x = Ok y.
Proof.
  revert ys i; induction xs as [|x0 xs IH]; intros ys i; cbn [for_each].
  - intros [= <-]. now rewrite lookup_nil.
  - destruct (f x0) as [y0|e] eqn:E0; cbn [mbind result_bind]; [|discriminate].
    destruct (for_each f xs) as [ys'|e]; cbn [mbind result_bind mret result_ret]; [|discriminate].
    intros [= <-]. destruct i as [|i]; cbn.
    + intros [= <-]. eauto.
    + intros Hi. eapply IH; eauto.
Qed.

Lemma for_each_elem {A B} (f : A -> result B) (xs : list A) (ys : list B) (y : B) :
  for_each f xs = Ok ys -> y ∈ ys -> exists x, x ∈ xs /\ f x = Ok y.
Proof.
  intros Hys Hy. apply list_elem_of_lookup in Hy as [i Hi].
  destruct (for_each_lookup_inv _ _ _ _ _ Hys Hi) as (x & Hx & Hfx).
  exists x. split; [|exact Hfx]. eapply list_elem_of_lookup_2; eauto.
Qed.

Lemma for_each_ok_inv {A B} (f : A -> result B) (xs : list A) (ys : list B) :
  for_each f xs = Ok ys -> Forall2 (fun x y => f x = Ok y) xs ys.
Proof.
  revert ys; induction xs as [|x xs IH]; intros ys; cbn [for_each].
  - intros [= <-]. constructor.
  - destruct (f x) as [y|e] eqn:Hx; cbn [mbind result_bind]; [|discriminate].
    destruct (for_each f xs) as [ys'|e]; cbn [mbind result_bind mret result_ret]; [|discriminate].
    intros [= <-]. constructor; auto.
Qed.

Lemma for_each_fmap_ext {A B C} (proj : B -> C) (f g : A -> result B) (xs : list A) :
  Forall (fun x => proj <$> f x = proj <$> g x) xs ->
  map proj <$> for_each f xs = map proj <$> for_each g xs.
Proof.
  induction 1 as [|x xs Hx _ IH]; cbn [for_each]; [reflexivity|].
  destruct (f x) as [b|e], (g x) as [b'|e']; cbn in Hx; try discriminate;
    cbn [mbind result_bind]; [|congruence].
  injection Hx as Hx.
  destruct (for_each f xs) as [bs|e], (for_each g xs) as [bs'|e']; cbn in IH; try discriminate;
    cbn; [|congruence].
  injection IH as IH. now rewrite Hx, IH.
Qed.

Lemma for_each_enumerate_from {A B C} (g : B -> C) (l : list B) (names : list A) (k : nat) :
  k + length names <= length l ->
  for_each (fun '(i, _) => x ← at_index l i; mret (g x)) (imap (fun i f => (k + i, f)) names)
  = Ok (map g (take (length names) (drop k l))).
Proof.
  revert k; induction names as [|n names IH]; intros k Hlen; [reflexivity|].
  cbn [length] in Hlen. rewrite imap_cons. cbn [for_each]. cbv beta iota.
  rewrite Nat.add_0_r.
  destruct (lookup_lt_is_Some_2 l k) as [x Hx]; [lia|]. rewrite (at_index_some _ _ _ Hx).
  cbn [mbind result_bind mret result_ret].
  rewrite (imap_ext _ (fun i f => (S k + i, f))) by (intros; cbn; f_equal; lia).
  rewrite IH by lia. cbn [mbind result_bind mret result_ret length].
  rewrite (drop_S _ _ _ Hx). reflexivity.
Qed.

Lemma for_each_enumerate {A B C} (g : B -> C) (l : list B) (names : list A) :
  length names <= length l ->
  for_each (fun '(i, _) => x ← at_index l i; mret (g x)) (imap (fun i f => (i, f)) names)
  = Ok (map g (take (length names) l)).
Proof.
  intros Hlen. apply (for_each_enumerate_from g l names 0). lia.
Qed.

Lemma for_fold_ok {A S} (f : S -> A -> result S) (xs : list A) :
  (forall s x, x ∈ xs -> exists s', f s x = Ok s') ->
  forall s, exists s', for_fold f xs s = Ok s'.
Proof.
  induction xs as [|x xs IH]; intros Hf s; simpl; [eauto|].
  destruct (Hf s x) as [s1 Hs1]; [left|]. rewrite Hs1; simpl.
  apply IH. intros s2 x2 Hx2. apply Hf. now right.
Qed.

Lemma dict_set_keys {V} (d : list (string * V)) k v : (dict_set d k v).*1 = set_key d.*1 k.
Proof.
  unfold set_key. induction d as [|[k' v'] d IH]; [reflexivity|].
  cbn [dict_set]. rewrite fmap_cons. cbn [fst existsb].
  rewrite (String.eqb_sym k k').
  destruct (String.eqb k' k) eqn:E.
  { apply String.eqb_eq in E. subst. now rewrite fmap_cons. }
  rewrite fmap_cons, IH. cbn [orb fst].
  destruct (existsb (String.eqb k) d.*1); reflexivity.
Qed.

Lemma dict_get_set {V} (d : list (string * V)) k v k' :
  dict_get (dict_set d k v) k' = if String.eqb k k' then Some v else dict_get d k'.
Proof.
  induction d as [|[k0 v0] d IH]; cbn [dict_set dict_get].
  - reflexivity.
  - destruct (String.eqb k0 k) eqn:E0; cbn [dict_get].
    + apply String.eqb_eq in E0; subst k0. destruct (String.eqb k k'); reflexivity.
    + rewrite IH. destruct (String.eqb k0 k') eqn:E1; [|reflexivity].
      apply String.eqb_eq in E1; subst k0. now rewrite String.eqb_sym, E0.
Qed.

Lemma for_fold_keys {A V} (f : list (string * V) -> A -> result (list (string * V)))
    (cols : A -> list string) (xs : list A) :
  (forall d x d', x ∈ xs -> f d x = Ok d' -> d'.*1 = foldl set_key d.*1 (cols x)) ->
  forall d d', for_fold f xs d = Ok d' ->
    d'.*1 = foldl (fun ks x => foldl set_key ks (cols x)) d.*1 xs.
Proof.
  induction xs as [|x xs IH]; intros Hf d d'; simpl; [now intros [= <-]|].
  destruct (f d x) as [d1|e] eqn:E; simpl; [|discriminate].
  intros Hrest. rewrite <- (Hf d x d1); [|left|exact E].
  apply IH; [|exact Hrest]. intros d2 x2 d2' Hx2. apply Hf. now right.
Qed.

(** ** C1: the choice is coded, not validated *)

Lemma pricing_coding_shape {py : PyRuntime} (value : cell) :
  exists f1 f2 f3 f4 f5,
    FinalRobust.get_effects_coding_final value "Pricing" = FinalRobust.pricing_levels f1 f2 f3 f4 f5.
Proof.
  unfold FinalRobust.get_effects_coding_final. cbn [String.eqb Ascii.eqb Bool.eqb].
  repeat match goal with |- context [if ?c then _ else _] => destruct c end; eauto 10.
Qed.

Lemma final_add_attribute_ok {py : PyRuntime} (r : row) t feats attr :
  is_Some (r !! attr_col "A" attr t) -> is_Some (r !! attr_col "B" attr t) ->
  exists feats', FinalRobust.add_attribute r t feats attr = Ok feats'
                 /\ feats'.*1 = foldl set_key feats.*1 (coded_columns attr).
Proof.
  intros [a_val Ha] [b_val Hb]. unfold FinalRobust.add_attribute, getitem. rewrite Ha, Hb.
  cbn [mbind result_bind]. unfold coded_columns.
  destruct (String.eqb attr "Pricing") eqn:E3.
  { apply String.eqb_eq in E3; subst attr.
    destruct (pricing_coding_shape a_val) as (a1 & a2 & a3 & a4 & a5 & ->).
    destruct (pricing_coding_shape b_val) as (b1 & b2 & b3 & b4 & b5 & ->).
    eexists; split; [reflexivity|]. cbn [map foldl]. now rewrite !dict_set_keys. }
  unfold FinalRobust.get_effects_coding_final. rewrite E3.
  repeat match goal with |- context [if String.eqb attr ?s then _ else _] =>
           destruct (String.eqb attr s) end;
    (eexists; split; [reflexivity|]; cbn [foldl]; now rewrite dict_set_keys).
Qed.

Lemma final_features_ok {py : PyRuntime} (r : row) t :
  attribute_columns_present r t ->
  exists feats, for_fold (FinalRobust.add_attribute r t) attributes [] = Ok feats
                /\ feats.*1 = concat (map coded_columns attributes).
Proof.
  intros Hpresent.
  assert (Hall : forall attr, attr ∈ attributes ->
            is_Some (r !! attr_col "A" attr t) /\ is_Some (r !! attr_col "B" attr t))
    by (now apply Forall_forall).
  destruct (for_fold_ok (FinalRobust.add_attribute r t) attributes) with (s := @nil (string * Z))
    as [feats Hfeats].
  { intros s x Hx. destruct (Hall x Hx) as [Ha Hb].
    destruct (final_add_attribute_ok r t s x Ha Hb) as (s' & Hs' & _). eauto. }
  exists feats. split; [exact Hfeats|].
  rewrite (for_fold_keys (FinalRobust.add_attribute r t) coded_columns attributes)
    with (d := []) (d' := feats); [reflexivity| |exact Hfeats].
  intros d x d' Hx Hd. destruct (Hall x Hx) as [Ha Hb].
  destruct (final_add_attribute_ok r t d x Ha Hb) as (s' & Hs' & Hk). congruence.
Qed.

Lemma logit_attrs_ok (r : row) t alt :
  Forall (fun attr => is_Some (r !! attr_col alt attr t)) attributes ->
  exists vals,
    for_fold (fun d attr => v ← getitem r (attr_col alt attr t); mret (dict_set d attr v))
             attributes [] = Ok vals.
Proof.
  intros Hpresent. apply for_fold_ok. intros s x Hx.
  rewrite Forall_forall in Hpresent. destruct (Hpresent x Hx) as [v Hv].
  unfold getitem. rewrite Hv. cbn. eauto.
Qed.

(** C1 (as amended). For a row that holds the choice column of task [t],
    [Grade] and the attribute columns, the builders return a record
    whatever the value of [Task<t>_choice] is: the effects-coded frame codes
    the choice 1 when the value is exactly "A" and 0 for every other value
    (also empty or NaN), and the long frame marks alternative A chosen
    exactly for "A" and alternative B chosen exactly for "B".  No exception
    is raised for a value outside {A, B}. *)
Theorem choice_is_coded_not_validated {py : PyRuntime} (idx : nat) (r : row) (t : nat)
    (ch g : cell) :
  r !! choice_col t = Some ch ->
  r !! "Grade" = Some g ->
  attribute_columns_present r t ->
  FinalRobust.choice <$> FinalRobust.build_record idx r t
    = Ok (if cell_eq_str ch "A" then 1 else 0)%Z
  /\ map ConditionalLogit.chosen <$> ConditionalLogit.build_choice_set idx r t
     = Ok [if cell_eq_str ch "A" then 1 else 0; if cell_eq_str ch "B" then 1 else 0]%Z.
Proof.
  intros Hch Hg Hpresent. split.
  - unfold FinalRobust.build_record.
    rewrite (getitem_some _ _ _ Hch), (getitem_some _ _ _ Hg). cbn [mbind result_bind].
    destruct (final_features_ok r t Hpresent) as (feats & -> & _). reflexivity.
  - unfold ConditionalLogit.build_choice_set.
    rewrite (getitem_some _ _ _ Hch). cbn [mbind result_bind for_each].
    unfold ConditionalLogit.build_alternative.
    rewrite (getitem_some _ _ _ Hg). cbn [mbind result_bind].
    destruct (logit_attrs_ok r t "A") as [va ->].
    { eapply Forall_impl; [exact Hpresent|]. now intros attr [Ha _]. }
    destruct (logit_attrs_ok r t "B") as [vb ->].
    { eapply Forall_impl; [exact Hpresent|]. now intros attr [_ Hb]. }
    reflexivity.
Qed.

Lemma choice_is_coded_not_validated_witness :
  FinalRobust.choice <$> FinalRobust.build_record (py := Reference.repr_integral) 0 row_odd 1
    = Ok 0%Z
  /\ map ConditionalLogit.chosen <$> ConditionalLogit.build_choice_set 0 row_odd 1
     = Ok [0; 0]%Z.
Proof.
  apply (choice_is_coded_not_validated (py := Reference.repr_integral) 0 row_odd 1 CNaN (CNum 5)).
  - vm_compute; reflexivity.
  - vm_compute; reflexivity.
  - repeat constructor; vm_compute; eauto.
Defined.

(** The respondent of [row_odd] answered NaN, the empty string and "C" on
    tasks 1 to 3: each of these tasks still yields a record, coded 0. *)
Lemma missing_choice_defaults_to_zero :
  map FinalRobust.choice
    <$> FinalRobust.convert_to_choice_format_final (py := Reference.repr_integral) [row_odd]
    = Ok [0; 0; 0; 1; 0; 1; 0; 1]%Z
  /\ map (fun rec => (ConditionalLogit.alternative rec, ConditionalLogit.chosen rec))
       <$> (take 6 <$> ConditionalLogit.convert_to_conditional_logit_format [row_odd])
     = Ok [("A", 0); ("B", 0); ("A", 0); ("B", 0); ("A", 0); ("B", 0)]%Z.
Proof. split; vm_compute; reflexivity. Qed.

(** ** C2: percentage-point effects *)

(** C2 (as amended). With at least one fitted probability and a parameter
    for every feature, [calculate_ame] and [calculate_ame_alternative]
    report for each column the Average Marginal Effect in percentage points;
    [calculate_pp_effects_proper], [calculate_pp_effects_final],
    [_calculate_pp_effects] and [calculate_pp_effects] report the coefficient
    times 25. *)
Theorem reported_effect_is_ame_or_shortcut {sm : Statsmodels} (res : logit_result) (X : design)
    (features : list string) (coefficients : list Q) :
  predict res <> [] ->
  length features <= length (params res) ->
  length features <= length coefficients ->
  let ame := fun c => Fin (average_marginal_effect (predict res) c) in
  let shortcut := fun c => (c * 25)%Q in
  ImprovedLogit.calculate_ame res X features
    = Ok (map ame (take (length features) (params res)))
  /\ ConditionalLogit.calculate_ame_alternative res X features
     = Ok (map ame (take (length features) (params res)))
  /\ ProperConjoint.calculate_pp_effects_proper coefficients features
     = Ok (map shortcut (take (length features) coefficients))
  /\ FinalRobust.calculate_pp_effects_final coefficients features
     = Ok (map shortcut (take (length features) coefficients))
  /\ ResultsAnalysis._calculate_pp_effects coefficients features
     = Ok (map shortcut (take (length features) coefficients))
  /\ SimpleResults.calculate_pp_effects coefficients = map shortcut coefficients.
Proof.
  intros Hprobs Hparams Hcoefs ame shortcut.
  assert (Hame : forall c,
             fmul (fmul (np_mean (map (fun p => p * (1 - p))%Q (predict res))) (Fin c)) (Fin 100)
             = ame c).
  { intros c. rewrite np_mean_nonempty by (destruct (predict res); [congruence|discriminate]).
    subst ame. cbn [fmul]. unfold average_marginal_effect. now rewrite length_map. }
  repeat split.
  - unfold ImprovedLogit.calculate_ame.
    rewrite (for_each_enumerate
               (fun c => fmul (fmul (np_mean (map (fun p => p * (1 - p))%Q (predict res))) (Fin c))
                              (Fin 100))) by exact Hparams.
    f_equal. apply map_ext. exact Hame.
  - unfold ConditionalLogit.calculate_ame_alternative.
    rewrite (for_each_enumerate
               (fun c => fmul (fmul (np_mean (map (fun p => p * (1 - p))%Q (predict res))) (Fin c))
                              (Fin 100))) by exact Hparams.
    f_equal. apply map_ext. exact Hame.
  - unfold ProperConjoint.calculate_pp_effects_proper.
    now rewrite (for_each_enumerate shortcut) by exact Hcoefs.
  - unfold FinalRobust.calculate_pp_effects_final.
    now rewrite (for_each_enumerate shortcut) by exact Hcoefs.
  - unfold ResultsAnalysis._calculate_pp_effects.
    now rewrite (for_each_enumerate shortcut) by exact Hcoefs.
Qed.

(** The shortcut is the AME exactly when the coefficient is zero or the
    mean of p(1 - p) is one quarter. *)
Lemma shortcut_is_ame_iff (fitted : list Q) (c : Q) :
  (c * 25 == average_marginal_effect fitted c
   <-> c == 0 \/ Qsum (map (fun p => p * (1 - p)) fitted) / inject_Z (Z.of_nat (length fitted))
                == 1 # 4)%Q.
Proof.
  unfold average_marginal_effect.
  set (m := (Qsum (map (fun p => p * (1 - p)) fitted) / inject_Z (Z.of_nat (length fitted)))%Q).
  split.
  - intros Heq. destruct (Qeq_dec c 0) as [Hc|Hc]; [now left|right].
    assert (Hm : (c * (m * 100 - 25) == 0)%Q) by lra.
    apply Qmult_integral in Hm as [Hm|Hm]; [contradiction|lra].
  - intros [Hc|Hm]; [rewrite Hc; lra|]. rewrite Hm. lra.
Qed.

Lemma reported_effect_is_ame_or_shortcut_witness :
  ImprovedLogit.calculate_ame (sm := Reference.quick_statsmodels) quick_result
      {| exog_names := ["female_tutor_diff"]; exog := [[1]; [-1]]%Q |} ["female_tutor_diff"]
    = Ok [Fin (average_marginal_effect [1 # 5; 4 # 5]%Q 1)]
  /\ ProperConjoint.calculate_pp_effects_proper [1%Q] ["Tutor_diff"] = Ok [(1 * 25)%Q].
Proof.
  pose proof (reported_effect_is_ame_or_shortcut (sm := Reference.quick_statsmodels)
                quick_result {| exog_names := ["female_tutor_diff"]; exog := [[1]; [-1]]%Q |}
                ["female_tutor_diff"] [1%Q]) as H.
  destruct H as (H1 & _ & H3 & _); [discriminate|cbn; lia|cbn; lia|].
  split; [exact H1|exact H3].
Defined.

(** With coefficient 1 the shortcut reports 25 points whatever the fitted
    probabilities are; for fitted probabilities 1/5 and 4/5 the Average
    Marginal Effect is 16 points. *)
Lemma shortcut_differs_from_ame :
  ProperConjoint.calculate_pp_effects_proper [1%Q] ["Tutor_diff"] = Ok [(1 * 25)%Q]
  /\ SimpleResults.calculate_pp_effects [1%Q] = [(1 * 25)%Q]
  /\ (average_marginal_effect [1 # 5; 4 # 5] 1 == 16)%Q
  /\ (16 < 1 * 25)%Q.
Proof. repeat split. Qed.

(** ** C3: two tests behind one p-value *)







(** ** C4: placeholder statistics after a linear-algebra failure *)

Lemma zip_with_constant {A B B' C} (f : A -> B' -> C) (g : B -> B') (l : list A) (b : B) :
  zip_with f l (map g (repeat b (length l))) = map (fun a => f a (g b)) l.
Proof. induction l as [|a l IH]; cbn; [reflexivity|]. now rewrite IH. Qed.

(** C4 (as amended). When the inversion of the weighted Gram matrix raises
    [LinAlgError], [calculate_proper_p_values] returns the value 1 * 0.5 for
    every coefficient and [_calculate_p_values] computes its Wald p-values
    with the standard error 1 * 0.1 for every coefficient; both return
    normally. *)
Theorem linalg_failure_yields_placeholders {sk : Sklearn} {np : NumPy} {sp : SciPy}
    (model : lr_model) (X : matrix) (y : list Z) :
  linalg_inv (weighted_gram model X) = Raise LinAlgError ->
  ProperConjoint.calculate_proper_p_values model X y
    = Ok (map (fun _ => 1 * 0.5)%Q (coef_ model))
  /\ ResultsAnalysis._calculate_p_values model X y
     = Ok (map (fun c => 2 * (1 - norm_cdf (Qabs (c / (1 * 0.1)))))%Q (coef_ model)).
Proof.
  unfold weighted_gram. intros Hinv. split.
  - unfold ProperConjoint.calculate_proper_p_values. rewrite Hinv. f_equal.
    induction (coef_ model) as [|c l IH]; cbn; [reflexivity|]. now rewrite IH.
  - unfold ResultsAnalysis._calculate_p_values. rewrite Hinv.
    unfold array_div. rewrite length_map, repeat_length, Nat.eqb_refl.
    cbn [mbind result_bind mret result_ret]. f_equal.
    rewrite zip_with_constant, map_map. reflexivity.
Qed.

Lemma linalg_failure_yields_placeholders_witness :
  ProperConjoint.calculate_proper_p_values (sk := Reference.one_step)
      (np := Reference.exact_numpy) (sp := Reference.approx_scipy)
      singular_model singular_design singular_labels
    = Ok (map (fun _ => 1 * 0.5)%Q singular_model)
  /\ ResultsAnalysis._calculate_p_values (sk := Reference.one_step)
       (np := Reference.exact_numpy) (sp := Reference.approx_scipy)
       singular_model singular_design singular_labels
     = Ok (map (fun c => 2 * (1 - Reference.phi (Qabs (c / (1 * 0.1)))))%Q singular_model).
Proof.
  apply (linalg_failure_yields_placeholders (sk := Reference.one_step)
           (np := Reference.exact_numpy) (sp := Reference.approx_scipy)
           singular_model singular_design singular_labels).
  vm_compute. reflexivity.
Defined.

(** The design with a zero column: the inversion raises, and both routines
    return; the first returns 0.5 for both coefficients. *)
Lemma singular_design_gets_placeholder_p_values :
  lr_fit (Sklearn := Reference.one_step) 42 singular_design singular_labels = Ok singular_model
  /\ linalg_inv (NumPy := Reference.exact_numpy)
       (weighted_gram (sk := Reference.one_step) (np := Reference.exact_numpy)
          singular_model singular_design)
     = Raise LinAlgError
  /\ ProperConjoint.calculate_proper_p_values (sk := Reference.one_step)
       (np := Reference.exact_numpy) (sp := Reference.approx_scipy)
       singular_model singular_design singular_labels
     = Ok [0.5; 0.5]%Q
  /\ returns (ResultsAnalysis._calculate_p_values (sk := Reference.one_step)
                (np := Reference.exact_numpy) (sp := Reference.approx_scipy)
                singular_model singular_design singular_labels).
Proof.
  repeat split; try (vm_compute; reflexivity).
  eexists. vm_compute. reflexivity.
Qed.

(** ** C5: absent attribute columns *)

Section CondSet.
Context {A V : Type} (key : A -> string) (val : A -> option V).

Lemma cond_set_other xs k d :
  k ∉ map key xs -> dict_get (foldl (cond_set key val) d xs) k = dict_get d k.
Proof.
  revert d; induction xs as [|x xs IH]; intros d Hk; cbn [foldl]; [reflexivity|].
  cbn [map] in Hk. apply not_elem_of_cons in Hk as [Hne Hk].
  rewrite IH by exact Hk. unfold cond_set. destruct (val x); [|reflexivity].
  rewrite dict_get_set. destruct (String.eqb (key x) k) eqn:E; [|reflexivity].
  apply String.eqb_eq in E. congruence.
Qed.

Lemma cond_set_lookup xs x d :
  NoDup (map key xs) -> x ∈ xs ->
  dict_get (foldl (cond_set key val) d xs) (key x)
  = match val x with Some v => Some v | None => dict_get d (key x) end.
Proof.
  revert d; induction xs as [|x0 xs IH]; intros d Hnd Hx; [inversion Hx|].
  cbn [map] in Hnd. apply NoDup_cons in Hnd as [Hfresh Hnd].
  cbn [foldl]. apply elem_of_cons in Hx as [->|Hx].
  - rewrite cond_set_other by exact Hfresh. unfold cond_set.
    destruct (val x0); [|reflexivity]. now rewrite dict_get_set, String.eqb_refl.
  - rewrite IH by assumption. destruct (val x); [reflexivity|].
    unfold cond_set. destruct (val x0); [|reflexivity].
    rewrite dict_get_set. destruct (String.eqb (key x0) (key x)) eqn:E; [|reflexivity].
    apply String.eqb_eq in E. exfalso. apply Hfresh. rewrite E.
    apply list_elem_of_fmap. eauto.
Qed.

Lemma cond_set_length xs d : length (foldl (cond_set key val) d xs) <= length d + length xs.
Proof.
  revert d; induction xs as [|x xs IH]; intros d; cbn [foldl length]; [lia|].
  etransitivity; [apply IH|]. unfold cond_set. destruct (val x); [|lia].
  assert (length (dict_set d (key x) v) <= S (length d)); [|lia].
  clear. induction d as [|[k0 v0] d IHd]; cbn [dict_set length]; [lia|].
  destruct (String.eqb k0 (key x)); cbn [length]; lia.
Qed.
End CondSet.

Ltac each_attribute H :=
  unfold attributes in H;
  repeat (apply elem_of_cons in H as [->|H]); [..|inversion H].

Lemma conjoint_attrs_lookup (r : row) opt t attr :
  attr ∈ attributes ->
  dict_get (foldl (ConjointAnalysis.add_attribute r opt t) [] attributes) (lower attr)
  = r !! attr_col opt attr t.
Proof.
  intros Hattr.
  change (foldl (ConjointAnalysis.add_attribute r opt t) [] attributes)
    with (foldl (cond_set lower (fun a => r !! attr_col opt a t)) [] attributes).
  rewrite cond_set_lookup; [|compute_done|exact Hattr].
  now destruct (r !! attr_col opt attr t).
Qed.

Lemma enhanced_attrs_lookup (r : row) t opt attr :
  opt ∈ ["A"; "B"] -> attr ∈ attributes ->
  dict_get (foldl (EnhancedConjoint.add_option r t) [] ["A"; "B"]) (opt +:+ "_" +:+ lower attr)
  = r !! attr_col opt attr t.
Proof.
  intros Hopt Hattr. cbn [foldl]. unfold EnhancedConjoint.add_option.
  set (stepA := EnhancedConjoint.add_option_attribute r t "A").
  set (stepB := EnhancedConjoint.add_option_attribute r t "B").
  change stepA with (cond_set (fun a => "A" +:+ "_" +:+ lower a) (fun a => r !! attr_col "A" a t)).
  change stepB with (cond_set (fun a => "B" +:+ "_" +:+ lower a) (fun a => r !! attr_col "B" a t)).
  apply elem_of_cons in Hopt as [->|Hopt]; [|apply elem_of_cons in Hopt as [->|Hopt]; [|inversion Hopt]].
  - rewrite cond_set_other; [|each_attribute Hattr; compute_done].
    rewrite (cond_set_lookup (fun a => "A" +:+ "_" +:+ lower a)); [|compute_done|exact Hattr].
    now destruct (r !! attr_col "A" attr t).
  - rewrite (cond_set_lookup (fun a => "B" +:+ "_" +:+ lower a)); [|compute_done|exact Hattr].
    destruct (r !! attr_col "B" attr t); [reflexivity|].
    rewrite cond_set_other; [reflexivity|each_attribute Hattr; compute_done].
Qed.

(** C5 (as amended). For a row that holds the choice, rating, [Grade] and
    [Prolific_ID] columns of task [t], the long-format builders return their
    records whether or not the attribute columns exist: each record holds
    an attribute exactly when the row has its column, with the cell of that
    column, so an alternative carries at most seven levels and fewer when a
    column is absent.  No exception is raised for an absent attribute
    column. *)
Theorem absent_attribute_column_is_skipped (idx : nat) (r : row) (t : nat)
    (ch g pid pl ee : cell) :
  r !! choice_col t = Some ch ->
  r !! "Grade" = Some g ->
  r !! "Prolific_ID" = Some pid ->
  r !! learning_col t = Some pl ->
  r !! enjoyment_col t = Some ee ->
  (exists ra rb,
      ConjointAnalysis.build_task idx r t = Ok [ra; rb]
      /\ length (ConjointAnalysis.attrs ra) <= 7 /\ length (ConjointAnalysis.attrs rb) <= 7
      /\ forall attr, attr ∈ attributes ->
           dict_get (ConjointAnalysis.attrs ra) (lower attr) = r !! attr_col "A" attr t
           /\ dict_get (ConjointAnalysis.attrs rb) (lower attr) = r !! attr_col "B" attr t)
  /\ (exists cr rs,
        EnhancedConjoint.build_task idx r t = Ok (cr, rs)
        /\ forall opt attr, opt ∈ ["A"; "B"] -> attr ∈ attributes ->
             dict_get (EnhancedConjoint.option_attrs cr) (opt +:+ "_" +:+ lower attr)
             = r !! attr_col opt attr t).
Proof.
  intros Hch Hg Hpid Hpl Hee. split.
  - unfold ConjointAnalysis.build_task.
    rewrite (getitem_some _ _ _ Hch). cbn [mbind result_bind for_each].
    unfold ConjointAnalysis.build_option.
    fold (learning_col t). fold (enjoyment_col t).
    rewrite (getitem_some _ _ _ Hg), (getitem_some _ _ _ Hpid),
      (getitem_some _ _ _ Hpl), (getitem_some _ _ _ Hee).
    destruct (cell_eq_str ch "A"), (cell_eq_str ch "B"); cbn [mbind result_bind mret result_ret];
      (do 2 eexists; split; [reflexivity|]; cbn [ConjointAnalysis.attrs];
       split; [apply (cond_set_length lower (fun a => r !! attr_col "A" a t) attributes [])|];
       split; [apply (cond_set_length lower (fun a => r !! attr_col "B" a t) attributes [])|];
       intros attr Hattr; split; now apply conjoint_attrs_lookup).
  - unfold EnhancedConjoint.build_task.
    fold (learning_col t). fold (enjoyment_col t).
    rewrite (getitem_some _ _ _ Hch), (getitem_some _ _ _ Hg), (getitem_some _ _ _ Hpid).
    cbn [mbind result_bind].
    destruct (EnhancedConjoint.chosen_label ch) as [lbl|].
    + rewrite (getitem_some _ _ _ Hpl). cbn [mbind result_bind].
      destruct (isna pl).
      * do 2 eexists; split; [reflexivity|]. cbn [EnhancedConjoint.option_attrs].
        intros opt attr Hopt Hattr. now apply enhanced_attrs_lookup.
      * rewrite (getitem_some _ _ _ Hee). cbn [mbind result_bind].
        do 2 eexists; split; [reflexivity|]. cbn [EnhancedConjoint.option_attrs].
        intros opt attr Hopt Hattr. now apply enhanced_attrs_lookup.
    + do 2 eexists; split; [reflexivity|]. cbn [EnhancedConjoint.option_attrs].
      intros opt attr Hopt Hattr. now apply enhanced_attrs_lookup.
Qed.

Lemma absent_attribute_column_is_skipped_witness :
  (exists ra rb,
      ConjointAnalysis.build_task 0 row_without_tutor 1 = Ok [ra; rb]
      /\ length (ConjointAnalysis.attrs ra) <= 7 /\ length (ConjointAnalysis.attrs rb) <= 7
      /\ forall attr, attr ∈ attributes ->
           dict_get (ConjointAnalysis.attrs ra) (lower attr) = row_without_tutor !! attr_col "A" attr 1
           /\ dict_get (ConjointAnalysis.attrs rb) (lower attr) = row_without_tutor !! attr_col "B" attr 1)
  /\ (exists cr rs,
        EnhancedConjoint.build_task 0 row_without_tutor 1 = Ok (cr, rs)
        /\ forall opt attr, opt ∈ ["A"; "B"] -> attr ∈ attributes ->
             dict_get (EnhancedConjoint.option_attrs cr) (opt +:+ "_" +:+ lower attr)
             = row_without_tutor !! attr_col opt attr 1).
Proof.
  apply (absent_attribute_column_is_skipped 0 row_without_tutor 1
           CNaN (CNum 5) (CStr "P-001") (CNum 4) (CNum 3)); vm_compute; reflexivity.
Defined.

(** Without the column [A_Tutor1] the record of alternative A has six
    attributes and that of B seven; the enhanced choice record has thirteen
    of the fourteen attribute entries. *)
Lemma absent_column_yields_six_levels :
  map (fun rec => (ConjointAnalysis.attrs rec).*1)
    <$> ConjointAnalysis.build_task 0 row_without_tutor 1
    = Ok [["color_palette"; "pricing"; "message_success_"; "message_failure_";
           "storytelling"; "role_play"];
          ["tutor"; "color_palette"; "pricing"; "message_success_"; "message_failure_";
           "storytelling"; "role_play"]]
  /\ (fun out => length (EnhancedConjoint.option_attrs out.1))
       <$> EnhancedConjoint.build_task 0 row_without_tutor 1 = Ok 13.
Proof. split; vm_compute; reflexivity. Qed.

(** ** C6: exclusion of zero-sum columns *)

Lemma in_dummies_keys levels a_val b_val d :
  NoDup levels.*1 ->
  ImprovedLogit.in_dummies levels a_val b_val = Ok d -> d.*1 = levels.*1.
Proof.
  unfold ImprovedLogit.in_dummies. intros Hnd Hd.
  assert (Hgen : forall acc out,
            for_fold (fun d '(name, needle) =>
                        v ← ImprovedLogit.in_diff needle a_val b_val; mret (dict_set d name v))
                     levels acc = Ok out ->
            out.*1 = foldl set_key acc.*1 levels.*1).
  { clear. induction levels as [|[name needle] levels IH]; intros acc out; cbn [for_fold].
    - now intros [= <-].
    - destruct (ImprovedLogit.in_diff needle a_val b_val) as [v|e]; [|discriminate].
      cbn [mbind result_bind mret result_ret]. intros Hout. apply IH in Hout.
      rewrite Hout, dict_set_keys. reflexivity. }
  rewrite (Hgen [] d Hd). clear -Hnd.
  change (@nil (string * Z)).*1 with (@nil string).
  assert (Hfold : forall ks acc : list string,
             NoDup (acc ++ ks)%list -> foldl set_key acc ks = (acc ++ ks)%list).
  { clear. induction ks as [|k ks IH]; intros acc Hnd; cbn [foldl]; [now rewrite app_nil_r|].
    assert (Hk : existsb (String.eqb k) acc = false).
    { apply not_true_is_false. intros Hex. apply existsb_exists in Hex as (k' & Hin & Heq).
      apply String.eqb_eq in Heq; subst k'. apply NoDup_app in Hnd as (_ & Hdis & _).
      apply (Hdis k); [now apply list_elem_of_In|left]. }
    unfold set_key at 2. rewrite Hk. rewrite IH; rewrite <- app_assoc; [reflexivity|exact Hnd]. }
  now apply (Hfold _ []).
Qed.

Lemma create_attribute_dummies_keys attr a_val b_val d :
  ImprovedLogit.create_attribute_dummies attr a_val b_val = Ok d -> d.*1 = dummy_columns attr.
Proof.
  unfold ImprovedLogit.create_attribute_dummies, dummy_columns.
  repeat match goal with
         | |- context [if String.eqb attr ?s then _ else _] => destruct (String.eqb attr s)
         end;
    try (intros Hd; apply in_dummies_keys in Hd; [exact Hd|compute_done]);
    now intros [= <-].
Qed.

Lemma dict_update_keys {V} (d extra : list (string * V)) :
  (ImprovedLogit.dict_update d extra).*1 = foldl set_key d.*1 extra.*1.
Proof.
  unfold ImprovedLogit.dict_update. revert d.
  induction extra as [|[k v] extra IH]; intros d; cbn [foldl fmap list_fmap]; [reflexivity|].
  rewrite IH, dict_set_keys. reflexivity.
Qed.

Lemma improved_add_attribute_keys (r : row) t d attr d' :
  ImprovedLogit.add_attribute r t d attr = Ok d' ->
  d'.*1 = foldl set_key d.*1 (dummy_columns attr).
Proof.
  unfold ImprovedLogit.add_attribute.
  destruct (getitem r (attr_col "A" attr t)) as [a_val|e]; [|discriminate].
  destruct (getitem r (attr_col "B" attr t)) as [b_val|e]; [|discriminate].
  cbn [mbind result_bind].
  destruct (ImprovedLogit.create_attribute_dummies attr a_val b_val) as [dummies|e] eqn:Hd;
    [|discriminate].
  cbn [mbind result_bind mret result_ret]. intros [= <-].
  rewrite dict_update_keys. now rewrite (create_attribute_dummies_keys _ _ _ _ Hd).
Qed.

Lemma improved_build_record_keys idx (r : row) t rec :
  ImprovedLogit.build_record idx r t = Ok rec ->
  (ImprovedLogit.diffs rec).*1 = concat (map dummy_columns attributes).
Proof.
  unfold ImprovedLogit.build_record.
  destruct (getitem r (choice_col t)) as [ch|e]; [|discriminate].
  destruct (getitem r "Grade") as [g|e]; [|discriminate].
  cbn [mbind result_bind].
  destruct (for_fold (ImprovedLogit.add_attribute r t) attributes []) as [d|e] eqn:Hd;
    [|discriminate].
  cbn [mbind result_bind mret result_ret]. intros [= <-]. cbn [ImprovedLogit.diffs].
  rewrite (for_fold_keys (ImprovedLogit.add_attribute r t) dummy_columns attributes)
    with (d := []) (d' := d); [reflexivity| |exact Hd].
  intros d0 x d0' _. apply improved_add_attribute_keys.
Qed.

Lemma improved_frame_keys (df : list row) cd :
  ImprovedLogit.convert_to_choice_format df = Ok cd ->
  Forall (fun rec => (ImprovedLogit.diffs rec).*1 = concat (map dummy_columns attributes)) cd.
Proof.
  unfold ImprovedLogit.convert_to_choice_format.
  destruct (for_each _ (iterrows df)) as [per_row|e] eqn:Hrows; [|discriminate].
  cbn [mbind result_bind mret result_ret]. intros [= <-].
  apply Forall_forall. intros rec Hrec.
  apply list_elem_of_In, in_concat in Hrec as (recs & Hrecs & Hin).
  apply list_elem_of_In in Hrecs, Hin.
  destruct (for_each_elem _ _ _ _ Hrows Hrecs) as ([idx r] & _ & Hr).
  destruct (for_each_elem _ _ _ _ Hr Hin) as (t & _ & Ht).
  eapply improved_build_record_keys; eauto.
Qed.

Lemma zero_sum_has_no_variation (cd : list ImprovedLogit.choice_record) f :
  (Qsum (ImprovedLogit.column_values cd f) == 0)%Q -> ImprovedLogit.has_variation cd f = false.
Proof.
  intros Hsum. unfold ImprovedLogit.has_variation, Qgtb. apply Qltb_ge.
  rewrite Hsum. change (Qabs 0) with 0%Q. discriminate.
Qed.

Lemma improved_diff_features_known (cd : list ImprovedLogit.choice_record) f :
  Forall (fun rec => (ImprovedLogit.diffs rec).*1 = concat (map dummy_columns attributes)) cd ->
  f ∈ ImprovedLogit.diff_features cd ->
  cd <> [] /\ exists attr lvl, ImprovedLogit.get_level_info (replace f "_diff" "") = Some (attr, lvl).
Proof.
  intros Hkeys Hf. unfold ImprovedLogit.diff_features, ImprovedLogit.columns in Hf.
  destruct cd as [|rec cd]; [inversion Hf|]. split; [discriminate|].
  apply Forall_cons in Hkeys as [Hrec _]. rewrite Hrec in Hf.
  vm_compute in Hf.
  repeat (apply elem_of_cons in Hf as [->|Hf]; [vm_compute; eauto|]).
  inversion Hf.
Qed.

(** Column [j] of a matrix built row by row from named values is the
    column of the [j]-th name. *)
Lemma named_column {A} (val : A -> string -> Q) (names : list string) (rows : list A)
    (j : nat) (g : string) :
  names !! j = Some g ->
  col_of (map (fun r => map (val r) names) rows) j = map (fun r => val r g) rows.
Proof.
  intros Hj. unfold col_of. rewrite map_map. apply map_ext. intros r.
  rewrite nth_lookup. change (map (val r) names) with (val r <$> names).
  now rewrite list_lookup_fmap, Hj.
Qed.

Lemma improved_frame_diff_features (cd : list ImprovedLogit.choice_record) :
  Forall (fun rec => (ImprovedLogit.diffs rec).*1 = concat (map dummy_columns attributes)) cd ->
  cd <> [] ->
  ImprovedLogit.diff_features cd = concat (map dummy_columns attributes).
Proof.
  intros Hkeys Hne. unfold ImprovedLogit.diff_features, ImprovedLogit.columns.
  destruct cd as [|rec cd]; [congruence|].
  apply Forall_cons in Hkeys as [-> _]. vm_compute. reflexivity.
Qed.

Lemma has_variation_iff (cd : list ImprovedLogit.choice_record) (g : string) :
  ImprovedLogit.has_variation cd g = true
  <-> (1e-10 < Qabs (Qsum (difference_column cd g)))%Q.
Proof. unfold ImprovedLogit.has_variation, Qgtb. apply Qltb_lt. Qed.

Section Exclusion.
Context {sm : Statsmodels}.

Lemma estimated_rows_ok (res : logit_result) (pp_effects : list pyfloat) (features : list string) :
  length features <= length (params res) ->
  length features <= length (bse res) ->
  length features <= length (pvalues res) ->
  length features <= length (conf_int res) ->
  length features <= length pp_effects ->
  exists rows, ImprovedLogit.estimated_rows res pp_effects features = Ok rows.
Proof.
  intros H1 H2 H3 H4 H5. unfold ImprovedLogit.estimated_rows.
  match goal with |- context [for_each ?f ?l] =>
    destruct (for_each_total f l) as (rows & -> & _) end; [|cbn; eauto].
  apply Forall_forall. intros [i f] Hif. apply list_elem_of_lookup in Hif as [j Hj].
  apply list_lookup_imap_Some in Hj as (f' & Hf' & [= -> ->]).
  apply lookup_lt_Some in Hf'.
  destruct (ImprovedLogit.get_level_info (replace f' "_diff" "")) as [[attr lvl]|]; [|cbn; eauto].
  destruct (lookup_lt_is_Some_2 (params res) j) as [x1 Hx1]; [lia|].
  destruct (lookup_lt_is_Some_2 (bse res) j) as [x2 Hx2]; [lia|].
  destruct (lookup_lt_is_Some_2 (pvalues res) j) as [x3 Hx3]; [lia|].
  destruct (lookup_lt_is_Some_2 (conf_int res) j) as [x4 Hx4]; [lia|].
  destruct (lookup_lt_is_Some_2 pp_effects j) as [x5 Hx5]; [lia|].
  rewrite (at_index_some _ _ _ Hx1), (at_index_some _ _ _ Hx2), (at_index_some _ _ _ Hx3),
    (at_index_some _ _ _ Hx4), (at_index_some _ _ _ Hx5). cbn. eauto.
Qed.

(** The fitter is called once, on the labels and the design matrix of the
    frame, and its result is the one the run returns. *)
Lemma improved_run_fits_the_design (cd : list ImprovedLogit.choice_record)
    (out : ImprovedLogit.model_output) :
  ImprovedLogit.run_conditional_logit_model cd = Ok out ->
  logit_fit (map ImprovedLogit.chosen_a cd) (ImprovedLogit.design_matrix cd)
  = Ok (ImprovedLogit.model_result out).
Proof.
  unfold ImprovedLogit.run_conditional_logit_model.
  destruct (bool_decide _); cbn [mbind result_bind]; [|discriminate].
  destruct (logit_fit _ _) as [res|e]; cbn [mbind result_bind]; [|discriminate].
  destruct (ImprovedLogit.calculate_ame _ _ _) as [pp|e]; cbn [mbind result_bind]; [|discriminate].
  destruct (ImprovedLogit.estimated_rows _ _ _) as [rows|e];
    cbn [mbind result_bind mret result_ret]; [|discriminate].
  now intros [= <-].
Qed.

(** C6 (as amended). In a frame built by [convert_to_choice_format] the
    fitter is given the design matrix of the frame.  Its columns are the
    difference columns of the frame whose sum is not zero (larger than
    1e-10 in absolute value), each with the values it has in the frame.  A
    difference column that sums to zero over all choice sets is therefore
    not a column of the matrix, and, when the fit succeeds, the run returns
    and its results hold a placeholder row for the level with coefficient
    0, p-value 1 and the tier "excluded (collinear)". *)
Theorem zero_sum_column_is_excluded (df : list row) (cd : list ImprovedLogit.choice_record) :
  ImprovedLogit.convert_to_choice_format df = Ok cd ->
  (forall out, ImprovedLogit.run_conditional_logit_model cd = Ok out ->
     logit_fit (map ImprovedLogit.chosen_a cd) (ImprovedLogit.design_matrix cd)
     = Ok (ImprovedLogit.model_result out))
  /\ (forall g, g ∈ exog_names (ImprovedLogit.design_matrix cd)
                <-> g ∈ concat (map dummy_columns attributes)
                    /\ (1e-10 < Qabs (Qsum (difference_column cd g)))%Q)
  /\ (forall j g, exog_names (ImprovedLogit.design_matrix cd) !! j = Some g ->
        col_of (exog (ImprovedLogit.design_matrix cd)) j = difference_column cd g
        /\ ~ (Qsum (col_of (exog (ImprovedLogit.design_matrix cd)) j) == 0)%Q)
  /\ (forall f, f ∈ concat (map dummy_columns attributes) ->
        cd <> [] ->
        (Qsum (difference_column cd f) == 0)%Q ->
        (f ∉ exog_names (ImprovedLogit.design_matrix cd))
        /\ forall res,
             logit_fit (map ImprovedLogit.chosen_a cd) (ImprovedLogit.design_matrix cd) = Ok res ->
             exists out placeholder_row,
               ImprovedLogit.run_conditional_logit_model cd = Ok out
               /\ ImprovedLogit.model_result out = res
               /\ placeholder_row ∈ ImprovedLogit.results out
               /\ level_code placeholder_row = replace f "_diff" ""
               /\ coefficient placeholder_row = 0.0%Q
               /\ p_value placeholder_row = Fin 1.0
               /\ significance placeholder_row = "excluded (collinear)").
Proof.
  intros Hconv. pose proof (improved_frame_keys df cd Hconv) as Hkeys.
  assert (Hnames : forall g, g ∈ exog_names (ImprovedLogit.design_matrix cd)
                             <-> g ∈ concat (map dummy_columns attributes)
                                 /\ (1e-10 < Qabs (Qsum (difference_column cd g)))%Q).
  { intros g. cbn [exog_names ImprovedLogit.design_matrix]. unfold ImprovedLogit.final_features.
    rewrite list_elem_of_filter, has_variation_iff.
    destruct cd as [|rec cd'].
    - split; [intros [_ Hg]; inversion Hg|]. intros [_ Hsum]. exfalso.
      revert Hsum. vm_compute. discriminate.
    - rewrite (improved_frame_diff_features _ Hkeys) by discriminate. tauto. }
  split; [exact (improved_run_fits_the_design cd)|]. split; [exact Hnames|]. split.
  { intros j g Hj.
    assert (Hcol : col_of (exog (ImprovedLogit.design_matrix cd)) j = difference_column cd g).
    { cbn [exog exog_names ImprovedLogit.design_matrix] in *.
      exact (named_column (fun r f => inject_Z (default 0%Z (dict_get (ImprovedLogit.diffs r) f)))
               _ cd j g Hj). }
    split; [exact Hcol|]. rewrite Hcol. intros Hzero.
    assert (Hg : g ∈ exog_names (ImprovedLogit.design_matrix cd))
      by (eapply list_elem_of_lookup_2; exact Hj).
    apply Hnames in Hg as [_ Hsum]. rewrite Hzero in Hsum. revert Hsum. vm_compute. discriminate. }
  intros f Hf Hne Hsum.
  assert (Hvar : ImprovedLogit.has_variation cd f = false).
  { apply zero_sum_has_no_variation. exact Hsum. }
  assert (Hdiff : f ∈ ImprovedLogit.diff_features cd)
    by now rewrite (improved_frame_diff_features _ Hkeys Hne).
  destruct (improved_diff_features_known cd f Hkeys Hdiff) as (_ & attr & lvl & Hinfo).
  split.
  { intros Hin. apply Hnames in Hin as [_ Hlt]. rewrite Hsum in Hlt.
    revert Hlt. vm_compute. discriminate. }
  intros res Hfit. unfold ImprovedLogit.run_conditional_logit_model.
  assert (Hcol : bool_decide ("chosen_a" ∈ ImprovedLogit.columns cd) = true).
  { apply bool_decide_eq_true. destruct cd as [|rec cd']; [congruence|].
    cbn [ImprovedLogit.columns app].
    repeat first [apply list_elem_of_here | apply list_elem_of_further]. }
  rewrite Hcol. cbn [mbind result_bind]. rewrite Hfit. cbn [mbind result_bind].
  destruct (logit_fit_shape _ _ _ Hfit) as (Hp & Hpv & Hbse & Hci).
  cbn [exog_names ImprovedLogit.design_matrix] in Hp, Hpv, Hbse, Hci.
  unfold ImprovedLogit.calculate_ame.
  rewrite (for_each_enumerate
             (fun c => fmul (fmul (np_mean (map (fun p => p * (1 - p))%Q (predict res))) (Fin c))
                            (Fin 100))) by lia.
  cbn [mbind result_bind].
  destruct (estimated_rows_ok res
              (map (fun c => fmul (fmul (np_mean (map (fun p => p * (1 - p))%Q (predict res)))
                                        (Fin c)) (Fin 100))
                   (take (length (ImprovedLogit.final_features cd)) (params res)))
              (ImprovedLogit.final_features cd)) as [rows ->]; try lia.
  { rewrite length_map, length_take. lia. }
  cbn [mbind result_bind mret result_ret].
  eexists _, (ImprovedLogit.placeholder attr lvl (replace f "_diff" "")).
  split; [reflexivity|]. cbn [ImprovedLogit.results ImprovedLogit.model_result].
  split; [reflexivity|]. split; [|repeat split].
  apply elem_of_app. right. unfold ImprovedLogit.placeholder_rows.
  apply list_elem_of_In, in_concat.
  exists [ImprovedLogit.placeholder attr lvl (replace f "_diff" "")]. split; [|now left].
  apply in_map_iff. exists f. split; [now rewrite Hinfo|].
  apply list_elem_of_In. unfold ImprovedLogit.collinear_features.
  apply list_elem_of_filter. split; assumption.
Qed.

End Exclusion.

Lemma zero_sum_column_is_excluded_witness :
  ("female_tutor_diff" ∉ exog_names (ImprovedLogit.design_matrix regular_frame))
  /\ col_of (exog (ImprovedLogit.design_matrix regular_frame)) 0
     = difference_column regular_frame "friendly_colors_diff"
  /\ exists out placeholder_row,
       ImprovedLogit.run_conditional_logit_model (sm := Reference.quick_statsmodels) regular_frame
         = Ok out
       /\ placeholder_row ∈ ImprovedLogit.results out
       /\ level_code placeholder_row = "female_tutor"
       /\ coefficient placeholder_row = 0.0%Q
       /\ p_value placeholder_row = Fin 1.0
       /\ significance placeholder_row = "excluded (collinear)".
Proof.
  destruct (zero_sum_column_is_excluded (sm := Reference.quick_statsmodels)
              [row_regular] regular_frame) as (_ & _ & Hcols & Hzero).
  { vm_compute. reflexivity. }
  destruct (Hzero "female_tutor_diff") as [Hout Hrun].
  - vm_compute. apply list_elem_of_here.
  - vm_compute. discriminate.
  - vm_compute. reflexivity.
  - split; [exact Hout|]. split.
    { apply (Hcols 0%nat "friendly_colors_diff"). vm_compute. reflexivity. }
    destruct (logit_fit (Statsmodels := Reference.quick_statsmodels)
                (map ImprovedLogit.chosen_a regular_frame)
                (ImprovedLogit.design_matrix regular_frame)) as [res|e] eqn:Hfit;
      [|vm_compute in Hfit; discriminate].
    destruct (Hrun res eq_refl) as (out & prow & H1 & _ & H3 & H4 & H5).
    exists out, prow. repeat split; try tauto.
Defined.

(** In the frame of a respondent who sees the same two alternatives in
    every task, the column [female_tutor_diff] is 1 in all eight choice
    sets: it is constant, its sum is 8, and it is the first column of the
    matrix the fitter is given. *)
Lemma constant_column_reaches_the_fitter :
  exog_names (ImprovedLogit.design_matrix steady_frame) !! 0%nat = Some "female_tutor_diff"
  /\ difference_column steady_frame "female_tutor_diff" = repeat 1%Q 8
  /\ col_of (exog (ImprovedLogit.design_matrix steady_frame)) 0 = repeat 1%Q 8
  /\ exists out,
       ImprovedLogit.run_conditional_logit_model (sm := Reference.quick_statsmodels) steady_frame
       = Ok out
       /\ logit_fit (Statsmodels := Reference.quick_statsmodels)
            (map ImprovedLogit.chosen_a steady_frame) (ImprovedLogit.design_matrix steady_frame)
          = Ok (ImprovedLogit.model_result out).
Proof.
  split; [vm_compute; reflexivity|]. split; [vm_compute; reflexivity|].
  split; [vm_compute; reflexivity|].
  assert (Hs : Vocabulary.succeeded
                 (ImprovedLogit.run_conditional_logit_model (sm := Reference.quick_statsmodels)
                    steady_frame) = true) by (vm_compute; reflexivity).
  destruct (ImprovedLogit.run_conditional_logit_model (sm := Reference.quick_statsmodels)
              steady_frame) as [out|e] eqn:Hout; [|discriminate Hs].
  exists out. split; [reflexivity|].
  exact (improved_run_fits_the_design (sm := Reference.quick_statsmodels) steady_frame out Hout).
Qed.

(** *** The same exclusion in conditional_logit_analysis.py *)

Lemma alt_zero_sum_has_no_variation (dd : list ConditionalLogit.diff_record) f :
  (Qsum (ConditionalLogit.diff_column dd f) == 0)%Q -> ConditionalLogit.has_variation dd f = false.
Proof.
  intros Hsum. unfold ConditionalLogit.has_variation, Qgtb. apply Qltb_ge.
  rewrite Hsum. change (Qabs 0) with 0%Q. discriminate.
Qed.

Lemma level_code_known code :
  code ∈ ConditionalLogit.level_codes ->
  replace (code +:+ "_diff") "_diff" "" = code
  /\ exists lv, ConditionalLogit.level_info code = Some lv.
Proof.
  intros Hcode. vm_compute in Hcode.
  repeat (apply elem_of_cons in Hcode as [->|Hcode]; [split; [reflexivity|vm_compute; eauto]|]).
  inversion Hcode.
Qed.

(** There too the columns of the matrix given to the fitter are difference
    columns with their values, none of which sums to zero. *)
Lemma alt_design_columns (dd : list ConditionalLogit.diff_record) (feature_cols : list string)
    (j : nat) (g : string) :
  exog_names (ConditionalLogit.design_matrix dd feature_cols) !! j = Some g ->
  col_of (exog (ConditionalLogit.design_matrix dd feature_cols)) j
    = ConditionalLogit.diff_column dd g
  /\ ~ (Qsum (ConditionalLogit.diff_column dd g) == 0)%Q.
Proof.
  intros Hj. split.
  - cbn [exog exog_names ConditionalLogit.design_matrix] in *.
    exact (named_column
             (fun r f => inject_Z (default 0%Z (dict_get (ConditionalLogit.diffs r) f)))
             _ dd j g Hj).
  - intros Hzero. apply list_elem_of_lookup_2 in Hj.
    cbn [exog_names ConditionalLogit.design_matrix] in Hj.
    unfold ConditionalLogit.final_features in Hj. apply list_elem_of_filter in Hj as [Htrue _].
    rewrite (alt_zero_sum_has_no_variation dd g Hzero) in Htrue. discriminate.
Qed.

Section AltExclusion.
Context {sm : Statsmodels}.

Lemma alt_estimated_rows_ok (res : logit_result) (pp_effects : list pyfloat)
    (features : list string) :
  length features <= length (params res) ->
  length features <= length (bse res) ->
  length features <= length (pvalues res) ->
  length features <= length (conf_int res) ->
  length features <= length pp_effects ->
  exists rows, ConditionalLogit.estimated_rows res pp_effects features = Ok rows.
Proof.
  intros H1 H2 H3 H4 H5. unfold ConditionalLogit.estimated_rows.
  match goal with |- context [for_each ?f ?l] =>
    destruct (for_each_total f l) as (rows & -> & _) end; [|cbn; eauto].
  apply Forall_forall. intros [i f] Hif. apply list_elem_of_lookup in Hif as [j Hj].
  apply list_lookup_imap_Some in Hj as (f' & Hf' & [= -> ->]).
  apply lookup_lt_Some in Hf'.
  destruct (ConditionalLogit.level_info (replace f' "_diff" "")) as [lv|]; [|cbn; eauto].
  destruct (lookup_lt_is_Some_2 (params res) j) as [x1 Hx1]; [lia|].
  destruct (lookup_lt_is_Some_2 (bse res) j) as [x2 Hx2]; [lia|].
  destruct (lookup_lt_is_Some_2 (pvalues res) j) as [x3 Hx3]; [lia|].
  destruct (lookup_lt_is_Some_2 (conf_int res) j) as [x4 Hx4]; [lia|].
  destruct (lookup_lt_is_Some_2 pp_effects j) as [x5 Hx5]; [lia|].
  rewrite (at_index_some _ _ _ Hx1), (at_index_some _ _ _ Hx2), (at_index_some _ _ _ Hx3),
    (at_index_some _ _ _ Hx4), (at_index_some _ _ _ Hx5). cbn. eauto.
Qed.

(** The same exclusion in [run_alternative_conditional_logit]: a level whose
    difference column sums to zero is left out of the design matrix and
    reported by a placeholder row. *)
Lemma alt_zero_sum_column_is_excluded (cd : list ConditionalLogit.alt_record)
    (feature_cols collinear_features : list string) (dd : list ConditionalLogit.diff_record)
    (code : string) :
  ConditionalLogit.difference_frame cd feature_cols = Ok dd ->
  dd <> [] ->
  code ∈ feature_cols ->
  code ∈ ConditionalLogit.level_codes ->
  (Qsum (ConditionalLogit.diff_column dd (code +:+ "_diff")) == 0)%Q ->
  ((code +:+ "_diff") ∉ exog_names (ConditionalLogit.design_matrix dd feature_cols))
  /\ forall res,
       logit_fit (map ConditionalLogit.chosen_a dd) (ConditionalLogit.design_matrix dd feature_cols)
         = Ok res ->
       exists out placeholder_row,
         ConditionalLogit.run_alternative_conditional_logit cd feature_cols collinear_features
           = Ok out
         /\ placeholder_row ∈ ConditionalLogit.results out
         /\ level_code placeholder_row = code
         /\ coefficient placeholder_row = 0.0%Q
         /\ p_value placeholder_row = Fin 1.0
         /\ significance placeholder_row = "excluded (collinear)".
Proof.
  intros Hdd Hne Hcode Hknown Hsum.
  pose proof (alt_zero_sum_has_no_variation dd _ Hsum) as Hvar.
  destruct (level_code_known code Hknown) as (Hreplace & lv & Hinfo).
  split.
  { cbn [exog_names ConditionalLogit.design_matrix]. unfold ConditionalLogit.final_features.
    rewrite list_elem_of_filter. intros [Htrue _]. congruence. }
  intros res Hfit. unfold ConditionalLogit.run_alternative_conditional_logit.
  rewrite Hdd. cbn [mbind result_bind].
  destruct dd as [|d0 dd']; [congruence|]. cbn [mbind result_bind].
  set (dd := d0 :: dd') in *. rewrite Hfit. cbn [mbind result_bind].
  destruct (logit_fit_shape _ _ _ Hfit) as (Hp & Hpv & Hbse & Hci).
  cbn [exog_names ConditionalLogit.design_matrix] in Hp, Hpv, Hbse, Hci.
  unfold ConditionalLogit.calculate_ame_alternative.
  rewrite (for_each_enumerate
             (fun c => fmul (fmul (np_mean (map (fun p => p * (1 - p))%Q (predict res))) (Fin c))
                            (Fin 100))) by lia.
  cbn [mbind result_bind].
  destruct (alt_estimated_rows_ok res
              (map (fun c => fmul (fmul (np_mean (map (fun p => p * (1 - p))%Q (predict res)))
                                        (Fin c)) (Fin 100))
                   (take (length (ConditionalLogit.final_features dd feature_cols)) (params res)))
              (ConditionalLogit.final_features dd feature_cols)) as [rows ->]; try lia.
  { rewrite length_map, length_take. lia. }
  cbn [mbind result_bind mret result_ret].
  eexists _, (ConditionalLogit.placeholder lv code).
  split; [reflexivity|]. cbn [ConditionalLogit.results].
  split; [|repeat split].
  apply elem_of_app. right. unfold ConditionalLogit.placeholder_rows.
  apply list_elem_of_In, in_concat.
  exists [ConditionalLogit.placeholder lv code]. split; [|now left].
  apply in_map_iff. exists code. split; [now rewrite Hinfo|].
  apply in_or_app. right. apply in_map_iff. exists (code +:+ "_diff"). split; [exact Hreplace|].
  apply list_elem_of_In. unfold ConditionalLogit.collinear_diff_features.
  apply list_elem_of_filter. split; [exact Hvar|].
  unfold ConditionalLogit.diff_names. apply list_elem_of_In, in_map_iff.
  exists code. split; [reflexivity|]. now apply list_elem_of_In.
Qed.
End AltExclusion.

(** ** C7: coding columns per attribute *)

(** C7 (as amended). The effects-coded record of a task has, in order, the
    columns [coded_columns] lists for the seven attributes, and all of them
    are design columns of the analysis: one column for each two-level
    attribute and five for Pricing, the reference level $12.99 included.
    The dummy coding of [get_all_attribute_levels] has one code per level:
    two for each two-level attribute and five for Pricing. *)
Theorem coding_columns_per_attribute {py : PyRuntime} (idx : nat) (r : row) (t : nat) (ch g : cell) :
  r !! choice_col t = Some ch ->
  r !! "Grade" = Some g ->
  attribute_columns_present r t ->
  (exists rec,
      FinalRobust.build_record idx r t = Ok rec
      /\ (FinalRobust.features rec).*1 = concat (map coded_columns attributes)
      /\ filter (fun c => FinalRobust.is_feature c = true) (FinalRobust.columns [rec])
         = concat (map coded_columns attributes))
  /\ Forall (fun attr => length (coded_columns attr) = if String.eqb attr "Pricing" then 5 else 1)
            attributes
  /\ Forall (fun attr => length (levels_of attr) = if String.eqb attr "Pricing" then 5 else 2)
            attributes
  /\ ConditionalLogit.level_codes = concat (map levels_of attributes).
Proof.
  intros Hch Hg Hpresent. split; [|split; [|split]].
  - unfold FinalRobust.build_record.
    rewrite (getitem_some _ _ _ Hch), (getitem_some _ _ _ Hg). cbn [mbind result_bind].
    destruct (final_features_ok r t Hpresent) as (feats & -> & Hkeys).
    eexists; split; [reflexivity|]. cbn [FinalRobust.features FinalRobust.columns].
    rewrite Hkeys. split; [reflexivity|]. vm_compute. reflexivity.
  - repeat constructor.
  - repeat constructor.
  - vm_compute. reflexivity.
Qed.

Lemma coding_columns_per_attribute_witness :
  (exists rec,
      FinalRobust.build_record (py := Reference.repr_integral) 0 row_regular 1 = Ok rec
      /\ (FinalRobust.features rec).*1 = concat (map coded_columns attributes)
      /\ filter (fun c => FinalRobust.is_feature c = true) (FinalRobust.columns [rec])
         = concat (map coded_columns attributes))
  /\ Forall (fun attr => length (coded_columns attr) = if String.eqb attr "Pricing" then 5 else 1)
            attributes
  /\ Forall (fun attr => length (levels_of attr) = if String.eqb attr "Pricing" then 5 else 2)
            attributes
  /\ ConditionalLogit.level_codes = concat (map levels_of attributes).
Proof.
  apply (coding_columns_per_attribute (py := Reference.repr_integral) 0 row_regular 1
           (CStr "B") (CNum 5)).
  - vm_compute; reflexivity.
  - vm_compute; reflexivity.
  - repeat constructor; vm_compute; eauto.
Defined.

(** Pricing contributes five columns to the effects-coded record and five
    dummy codes, Tutor two dummy codes. *)
Lemma pricing_is_coded_in_five_columns :
  (fun rec => filter (fun c => String.prefix "Pricing_" c = true) (FinalRobust.features rec).*1)
    <$> FinalRobust.build_record (py := Reference.repr_integral) 0 row_regular 1
    = Ok ["Pricing_free"; "Pricing_4.99"; "Pricing_7.99"; "Pricing_9.99"; "Pricing_12.99"]
  /\ levels_of "Pricing"
     = ["school_pays"; "pricing_4.99"; "pricing_7.99"; "pricing_9.99"; "pricing_12.99"]
  /\ levels_of "Tutor" = ["female_tutor"; "male_tutor"].
Proof. repeat split; vm_compute; reflexivity. Qed.

(** ** C8: determinism of coefficients and effects *)

Lemma iloc_in_range {A} (l : list A) (indices : list nat) :
  Forall (fun i => (i < length l)%nat) indices ->
  exists l', iloc l indices = Ok l' /\ length l' = length indices /\ Forall (fun x => x ∈ l) l'.
Proof.
  unfold iloc. induction 1 as [|i indices Hi _ (l' & Hl' & Hlen & Hin)]; cbn [for_each].
  - exists []. repeat split. constructor.
  - destruct (lookup_lt_is_Some_2 l i Hi) as [x Hx].
    rewrite (at_index_some _ _ _ Hx), Hl'. cbn [mbind result_bind mret result_ret].
    exists (x :: l'). repeat split; [cbn; now rewrite Hlen|].
    constructor; [|exact Hin]. eapply list_elem_of_lookup_2; eauto.
Qed.

(** The result rows pair every feature with its coefficient and 25 times
    that coefficient, whatever the p-values are. *)
Lemma robust_rows_from (coefs : list Q) (ps : list pyfloat) (pp : list Q) (names : list string)
    (k : nat) :
  k + length names <= length coefs ->
  k + length names <= length ps ->
  (forall i c, coefs !! i = Some c -> i < k + length names -> pp !! i = Some (c * 25)%Q) ->
  exists rows,
    for_each (fun '(i, f) =>
                c ← at_index coefs i; p ← at_index ps i; e ← at_index pp i;
                mret {| FinalRobust.feature := f; FinalRobust.coefficient := c;
                        FinalRobust.p_value := p; FinalRobust.pp_effect := e;
                        FinalRobust.significance := FinalRobust.get_significance_final p |})
             (imap (fun i f => (k + i, f)) names) = Ok rows
    /\ map (fun r => (FinalRobust.feature r, FinalRobust.coefficient r, FinalRobust.pp_effect r)) rows
       = zip_with (fun f c => (f, c, (c * 25)%Q)) names (drop k coefs).
Proof.
  revert k. induction names as [|n names IH]; intros k Hc Hp Hpp.
  - exists []. split; reflexivity.
  - cbn [length] in Hc, Hp, Hpp. rewrite imap_cons. cbn [for_each]. cbv beta iota.
    rewrite Nat.add_0_r.
    destruct (lookup_lt_is_Some_2 coefs k) as [c Hck]; [lia|].
    destruct (lookup_lt_is_Some_2 ps k) as [p Hpk]; [lia|].
    rewrite (at_index_some _ _ _ Hck), (at_index_some _ _ _ Hpk),
      (at_index_some _ _ _ (Hpp k c Hck ltac:(lia))).
    cbn [mbind result_bind mret result_ret].
    rewrite (imap_ext _ (fun i f => (S k + i, f))) by (intros; cbn; f_equal; lia).
    destruct (IH (S k)) as (rows & -> & Hrows); [lia|lia|intros i c' Hi Hlt; apply Hpp; [exact Hi|lia]|].
    cbn [mbind result_bind mret result_ret].
    eexists. split; [reflexivity|].
    rewrite (drop_S _ _ _ Hck). cbn. now rewrite Hrows.
Qed.

Section Bootstrap.
Context {sk : Sklearn} {rnd : NpRandom}.

Lemma bootstrap_loop_ok (original_coefs : list Q) (X : matrix) (y : list Z) (k : nat) :
  length y = length X ->
  Forall (fun r => length r = k) X ->
  length original_coefs = k ->
  forall iterations g,
  exists rows g',
    FinalRobust.bootstrap_loop original_coefs X y iterations g = Ok (rows, g')
    /\ length rows = length iterations
    /\ Forall (fun r => length r = k) rows.
Proof.
  intros Hy HX Horig. induction iterations as [|i rest IH]; intros g; cbn [FinalRobust.bootstrap_loop].
  - exists [], g. repeat split. constructor.
  - destruct (random_choice (length X) g) as [indices g1] eqn:Hdraw.
    pose proof (random_choice_range (length X) g) as [Hlen Hrange]. rewrite Hdraw in Hlen, Hrange.
    cbn [fst] in Hlen, Hrange.
    destruct (iloc_in_range X indices Hrange) as (X_boot & -> & HlenX & HinX).
    destruct (iloc_in_range y indices) as (y_boot & -> & _ & _); [now rewrite Hy|].
    cbn [mbind result_bind].
    destruct (IH g1) as (rows & g2 & -> & Hrows & Hwidth).
    cbn [mbind result_bind mret result_ret].
    eexists _, g2. split; [reflexivity|]. split; [cbn; now rewrite Hrows|].
    constructor; [|exact Hwidth].
    destruct (lr_fit i X_boot y_boot) as [model_boot|e] eqn:Hfit; [|exact Horig].
    apply lr_fit_shape in Hfit as [Hne Hshape].
    destruct X_boot as [|r0 X_boot]; [congruence|].
    apply Forall_cons in Hshape as [Hr0 _]. apply Forall_cons in HinX as [Hin0 _].
    rewrite Forall_forall in HX. rewrite <- Hr0. now apply HX.
Qed.

Lemma column_ok (rows : matrix) (k i : nat) :
  rows <> [] -> Forall (fun r => length r = k) rows -> (i < k)%nat ->
  exists dist, FinalRobust.column rows i = Ok dist.
Proof.
  intros Hne Hwidth Hi. unfold FinalRobust.column. destruct rows as [|r0 rows]; [congruence|].
  clear Hne. induction Hwidth as [|r rs Hr _ [dist IH]]; cbn [for_each]; [eauto|].
  destruct (lookup_lt_is_Some_2 r i) as [x Hx]; [lia|].
  rewrite (at_index_some _ _ _ Hx), IH. cbn. eauto.
Qed.

Lemma p_values_of_ok (original_coefs : list Q) (rows : matrix) :
  rows <> [] -> Forall (fun r => length r = length original_coefs) rows ->
  exists ps, FinalRobust.p_values_of original_coefs rows = Ok ps
             /\ length ps = length original_coefs.
Proof.
  intros Hne Hwidth. unfold FinalRobust.p_values_of.
  assert (Hall : Forall (fun ic : nat * Q =>
                           exists p, (let '(i, c) := ic in
                                      coef_dist ← FinalRobust.column rows i;
                                      mret (FinalRobust.two_tailed coef_dist c)) = Ok p)
                        (imap (fun i c => (i, c)) original_coefs)).
  { apply Forall_forall. intros [i c] Hic. apply list_elem_of_lookup in Hic as [j Hj].
    apply list_lookup_imap_Some in Hj as (c' & Hc' & [= -> ->]).
    destruct (column_ok rows (length original_coefs) j Hne Hwidth) as [dist ->].
    { eapply lookup_lt_Some; eauto. }
    cbn. eauto. }
  destruct (for_each_total _ _ Hall) as (ps & Hps & Hlen).
  exists ps. split; [exact Hps|]. now rewrite Hlen, length_imap.
Qed.

Lemma calculate_bootstrap_p_values_ok (model : lr_model) (X : matrix) (y : list Z)
    (n_bootstrap : nat) (g : rng_state) :
  length y = length X ->
  Forall (fun r => length r = length (coef_ model)) X ->
  (0 < n_bootstrap)%nat ->
  exists ps g', FinalRobust.calculate_bootstrap_p_values model X y n_bootstrap g = Ok (ps, g')
                /\ length ps = length (coef_ model).
Proof.
  intros Hy HX Hn. unfold FinalRobust.calculate_bootstrap_p_values.
  destruct (bootstrap_loop_ok (coef_ model) X y (length (coef_ model)) Hy HX eq_refl
              (seq 0 n_bootstrap) g) as (rows & g' & -> & Hrows & Hwidth).
  cbn [mbind result_bind].
  destruct (p_values_of_ok (coef_ model) rows) as (ps & -> & Hps); [|exact Hwidth|].
  { rewrite length_seq in Hrows. destruct rows; [cbn in Hrows; lia|discriminate]. }
  cbn. eauto.
Qed.

(** A run whose fit succeeds returns, and reports each feature column with
    the fitted coefficient and 25 times that coefficient. *)
Lemma run_robust_analysis_estimates (choice_data : list FinalRobust.choice_record)
    (model : lr_model) (g : rng_state) :
  let feature_cols :=
    filter (fun c => FinalRobust.is_feature c = true) (FinalRobust.columns choice_data) in
  lr_fit 42 (map (FinalRobust.design_row feature_cols) choice_data)
         (map FinalRobust.choice choice_data) = Ok model ->
  estimates <$> FinalRobust.run_robust_analysis choice_data g
  = Ok (zip_with (fun f c => (f, c, (c * 25)%Q)) feature_cols (coef_ model)).
Proof.
  intros feature_cols Hfit. unfold FinalRobust.run_robust_analysis.
  fold feature_cols.
  set (X := map (FinalRobust.design_row feature_cols) choice_data) in *.
  pose proof (lr_fit_shape _ _ _ _ Hfit) as [Hne Hshape].
  assert (Hcd : choice_data <> []) by (intros ->; now apply Hne).
  assert (Hchoice : bool_decide ("choice" ∈ FinalRobust.columns choice_data) = true).
  { apply bool_decide_eq_true. destruct choice_data as [|c0 cd]; [congruence|].
    cbn [FinalRobust.columns]. set_solver. }
  rewrite Hchoice. cbn [mbind result_bind]. rewrite Hfit. cbn [mbind result_bind].
  assert (Hy : length (map FinalRobust.choice choice_data) = length X)
    by (subst X; now rewrite !length_map).
  assert (Hpos : (0 < FinalRobust.n_bootstrap_used)%nat) by (unfold FinalRobust.n_bootstrap_used; lia).
  destruct (calculate_bootstrap_p_values_ok model X _ FinalRobust.n_bootstrap_used g Hy Hshape Hpos)
    as (ps & g' & -> & Hps).
  cbn [mbind result_bind].
  assert (Hwidth : length feature_cols = length (coef_ model)).
  { destruct X as [|r0 X'] eqn:HX; [congruence|]. apply Forall_cons in Hshape as [Hr0 _].
    rewrite <- Hr0. subst X. destruct choice_data as [|c0 cd]; [discriminate|].
    injection HX as <- _. unfold FinalRobust.design_row. now rewrite length_map. }
  unfold FinalRobust.calculate_pp_effects_final.
  rewrite (for_each_enumerate (fun coef => (coef * 25)%Q)) by lia.
  cbn [mbind result_bind].
  destruct (robust_rows_from (coef_ model) ps
              (map (fun coef => (coef * 25)%Q) (take (length feature_cols) (coef_ model)))
              feature_cols 0) as (rows & Hrows & Hest).
  { cbn. lia. }
  { cbn. lia. }
  { intros i c Hi Hlt. rewrite list_lookup_fmap, lookup_take_lt by (cbn in Hlt; lia).
    now rewrite Hi. }
  cbn [Nat.add] in Hrows. rewrite Hrows. cbn [mbind result_bind mret result_ret fmap result_fmap].
  unfold estimates. cbn [fst]. now rewrite Hest.
Qed.

(** C8. Two runs of [run_robust_analysis] on the same frame report the same
    features, coefficients and percentage-point effects (or raise the same
    exception), whatever the states of the random generator the bootstrap
    draws from; when the fit with [random_state=42] succeeds the run returns
    and the reported coefficients and effects are those of that fit, a
    function of the data alone. *)
Theorem coefficients_and_effects_are_deterministic
    (choice_data : list FinalRobust.choice_record) (g1 g2 : rng_state) :
  estimates <$> FinalRobust.run_robust_analysis choice_data g1
  = estimates <$> FinalRobust.run_robust_analysis choice_data g2
  /\ let feature_cols :=
       filter (fun c => FinalRobust.is_feature c = true) (FinalRobust.columns choice_data) in
     forall model,
       lr_fit 42 (map (FinalRobust.design_row feature_cols) choice_data)
              (map FinalRobust.choice choice_data) = Ok model ->
       forall g,
         estimates <$> FinalRobust.run_robust_analysis choice_data g
         = Ok (zip_with (fun f c => (f, c, (c * 25)%Q)) feature_cols (coef_ model)).
Proof.
  split; [|intros feature_cols model Hfit g; now apply run_robust_analysis_estimates].
  unfold FinalRobust.run_robust_analysis.
  set (feature_cols := filter _ (FinalRobust.columns choice_data)).
  set (X := map (FinalRobust.design_row feature_cols) choice_data).
  set (has_choice := bool_decide ("choice" ∈ FinalRobust.columns choice_data)).
  clearbody has_choice. destruct has_choice; [|cbn [mbind result_bind fmap result_fmap]; reflexivity].
  cbn [mbind result_bind].
  destruct (lr_fit 42 X (map FinalRobust.choice choice_data)) as [model|e] eqn:Hfit;
    [|cbn [mbind result_bind fmap result_fmap]; reflexivity].
  cbn [mbind result_bind].
  apply lr_fit_shape in Hfit as [Hne Hshape].
  assert (Hy : length (map FinalRobust.choice choice_data) = length X)
    by (subst X; now rewrite !length_map).
  assert (Hpos : (0 < FinalRobust.n_bootstrap_used)%nat) by (unfold FinalRobust.n_bootstrap_used; lia).
  destruct (calculate_bootstrap_p_values_ok model X _ FinalRobust.n_bootstrap_used g1 Hy Hshape Hpos)
    as (p1 & g1' & -> & Hp1).
  destruct (calculate_bootstrap_p_values_ok model X _ FinalRobust.n_bootstrap_used g2 Hy Hshape Hpos)
    as (p2 & g2' & -> & Hp2).
  cbn [mbind result_bind].
  destruct (FinalRobust.calculate_pp_effects_final (coef_ model) feature_cols) as [pp|e];
    [|cbn [mbind result_bind fmap result_fmap]; reflexivity].
  cbn [mbind result_bind].
  set (row_of := fun (ps : list pyfloat) '(i, f) =>
         c ← at_index (coef_ model) i; p ← at_index ps i; e ← at_index pp i;
         mret {| FinalRobust.feature := f; FinalRobust.coefficient := c;
                 FinalRobust.p_value := p; FinalRobust.pp_effect := e;
                 FinalRobust.significance := FinalRobust.get_significance_final p |}).
  set (proj := fun r => (FinalRobust.feature r, FinalRobust.coefficient r, FinalRobust.pp_effect r)).
  assert (Hwidth : length feature_cols = length (coef_ model)).
  { destruct X as [|r0 X'] eqn:HX; [congruence|]. apply Forall_cons in Hshape as [Hr0 _].
    rewrite <- Hr0. subst X. destruct choice_data as [|c0 cd]; [discriminate|].
    injection HX as <- _. unfold FinalRobust.design_row. now rewrite length_map. }
  pose proof (for_each_fmap_ext proj (row_of p1) (row_of p2) (imap (fun i f => (i, f)) feature_cols))
    as Hext.
  change (for_each _ (imap (fun i f => (i, f)) feature_cols)) with
    (for_each (row_of p1) (imap (fun i f => (i, f)) feature_cols)) at 1.
  change (for_each _ (imap (fun i f => (i, f)) feature_cols)) with
    (for_each (row_of p2) (imap (fun i f => (i, f)) feature_cols)) at 2.
  assert (Hsame : map proj <$> for_each (row_of p1) (imap (fun i f => (i, f)) feature_cols)
                  = map proj <$> for_each (row_of p2) (imap (fun i f => (i, f)) feature_cols)).
  { apply Hext. apply Forall_forall. intros [i f] Hif.
    apply list_elem_of_lookup in Hif as [j Hj].
    apply list_lookup_imap_Some in Hj as (f' & Hf' & [= -> ->]).
    apply lookup_lt_Some in Hf'. unfold row_of.
    destruct (lookup_lt_is_Some_2 p1 j) as [x1 Hx1]; [lia|].
    destruct (lookup_lt_is_Some_2 p2 j) as [x2 Hx2]; [lia|].
    rewrite (at_index_some _ _ _ Hx1), (at_index_some _ _ _ Hx2).
    destruct (at_index (coef_ model) j); [|reflexivity]. cbn [mbind result_bind].
    destruct (at_index pp j); reflexivity. }
  destruct (for_each (row_of p1) _) as [r1|e1], (for_each (row_of p2) _) as [r2|e2];
    cbn in Hsame |- *; try discriminate; [|congruence].
  unfold estimates. cbn [fst]. injection Hsame as Hsame. now f_equal.
Qed.
End Bootstrap.

(** On the frame of the regular respondent two runs started from different
    generator states both return, with the same eleven estimates. *)
Lemma regular_frame_estimates :
  exists est,
    length est = 11%nat
    /\ estimates <$> FinalRobust.run_robust_analysis (sk := Reference.one_step)
                       (rnd := Reference.lcg) regular_coded_frame 7%N = Ok est
    /\ estimates <$> FinalRobust.run_robust_analysis (sk := Reference.one_step)
                       (rnd := Reference.lcg) regular_coded_frame 11%N = Ok est.
Proof. eexists. split; [|split; vm_compute; reflexivity]. reflexivity. Qed.

(** The conditional logit run reads a frame only through the labels and the
    difference columns: respondent, task and grade do not matter. *)
Lemma improved_run_depends_on_design_only {sm : Statsmodels}
    (cd : list ImprovedLogit.choice_record) :
  ImprovedLogit.run_conditional_logit_model (map anonymise cd)
  = ImprovedLogit.run_conditional_logit_model cd.
Proof.
  assert (Hcols : ImprovedLogit.columns (map anonymise cd) = ImprovedLogit.columns cd)
    by (destruct cd; reflexivity).
  assert (Hvals : forall f, ImprovedLogit.column_values (map anonymise cd) f
                            = ImprovedLogit.column_values cd f).
  { intros f. unfold ImprovedLogit.column_values. now rewrite map_map. }
  assert (Hvar : forall f, ImprovedLogit.has_variation (map anonymise cd) f
                           = ImprovedLogit.has_variation cd f).
  { intros f. unfold ImprovedLogit.has_variation. now rewrite Hvals. }
  assert (Hdiff : ImprovedLogit.diff_features (map anonymise cd) = ImprovedLogit.diff_features cd).
  { unfold ImprovedLogit.diff_features. now rewrite Hcols. }
  assert (Hfinal : ImprovedLogit.final_features (map anonymise cd)
                   = ImprovedLogit.final_features cd).
  { unfold ImprovedLogit.final_features. rewrite Hdiff.
    apply list_filter_iff. intros f. now rewrite Hvar. }
  assert (Hcoll : ImprovedLogit.collinear_features (map anonymise cd)
                  = ImprovedLogit.collinear_features cd).
  { unfold ImprovedLogit.collinear_features. rewrite Hdiff.
    apply list_filter_iff. intros f. now rewrite Hvar. }
  assert (Hdesign : ImprovedLogit.design_matrix (map anonymise cd)
                    = ImprovedLogit.design_matrix cd).
  { unfold ImprovedLogit.design_matrix. rewrite Hfinal. f_equal. now rewrite map_map. }
  unfold ImprovedLogit.run_conditional_logit_model.
  rewrite Hcols, Hdesign, Hfinal, Hcoll, map_map. reflexivity.
Qed.

(** ** C9: significance tiers *)

Ltac tier_cases p :=
  destruct (Qltb p 0.001) eqn:E1;
  [apply Qltb_lt in E1|apply Qltb_ge in E1;
   destruct (Qltb p 0.01) eqn:E2;
   [apply Qltb_lt in E2|apply Qltb_ge in E2;
    destruct (Qltb p 0.05) eqn:E3;
    [apply Qltb_lt in E3|apply Qltb_ge in E3;
     destruct (Qltb p 0.1) eqn:E4;
     [apply Qltb_lt in E4|apply Qltb_ge in E4]]]].

(** The tier is decided by the thresholds alone, with half-open intervals. *)
Lemma get_significance_thresholds (p : Q) :
  let tier := ConditionalLogit.get_significance (Fin p) in
  (tier = "***" <-> p < 0.001)%Q
  /\ (tier = "**" <-> 0.001 <= p /\ p < 0.01)%Q
  /\ (tier = "*" <-> 0.01 <= p /\ p < 0.05)%Q
  /\ (tier = "(marginal)" <-> 0.05 <= p /\ p < 0.1)%Q
  /\ (tier = "n.s." <-> 0.1 <= p)%Q.
Proof.
  unfold ConditionalLogit.get_significance; simpl.
  tier_cases p; repeat split; intros; try discriminate; try reflexivity; try lra.
Qed.

(** A loop that returns gave each of its results. *)
Lemma for_each_forall {A B} (P : B -> Prop) (f : A -> result B) (xs : list A) (ys : list B) :
  (forall x y, f x = Ok y -> P y) -> for_each f xs = Ok ys -> Forall P ys.
Proof.
  intros Hf H. apply for_each_ok_inv in H.
  induction H as [|x y xs ys Hxy _ IH]; constructor; eauto.
Qed.

Lemma for_each_concat_forall {A B} (P : B -> Prop) (f : A -> result (list B))
    (xs : list A) (ys : list (list B)) :
  (forall x y, f x = Ok y -> Forall P y) -> for_each f xs = Ok ys -> Forall P (concat ys).
Proof.
  intros Hf H. apply for_each_ok_inv in H.
  induction H as [|x y xs ys Hxy _ IH]; cbn [concat]; [constructor|].
  apply Forall_app. split; eauto.
Qed.

(** The placeholder rows of excluded levels carry the p-value 1.0 and a
    tier of their own. *)
Lemma improved_placeholder_rows_tier (excluded : list string) :
  Forall (fun r => p_value r = Fin 1.0 /\ significance r = "excluded (collinear)")
         (ImprovedLogit.placeholder_rows excluded).
Proof.
  unfold ImprovedLogit.placeholder_rows.
  induction excluded as [|f fs IH]; cbn [map concat]; [constructor|].
  apply Forall_app. split; [|exact IH].
  destruct (ImprovedLogit.get_level_info _) as [[attr lvl]|]; repeat constructor.
Qed.

Lemma alt_placeholder_rows_tier (excluded : list string) :
  Forall (fun r => p_value r = Fin 1.0 /\ significance r = "excluded (collinear)")
         (ConditionalLogit.placeholder_rows excluded).
Proof.
  unfold ConditionalLogit.placeholder_rows.
  induction excluded as [|f fs IH]; cbn [map concat]; [constructor|].
  apply Forall_app. split; [|exact IH].
  destruct (ConditionalLogit.level_info _) as [lv|]; repeat constructor.
Qed.

Section Tiers.
Context {sk : Sklearn} {rnd : NpRandom} {np : NumPy} {sp : SciPy} {sm : Statsmodels}.

Lemma robust_rows_tier (choice_data : list FinalRobust.choice_record) (g g' : rng_state)
    (rows : list FinalRobust.result_row) :
  FinalRobust.run_robust_analysis choice_data g = Ok (rows, g') ->
  Forall (fun r => FinalRobust.significance r
                   = FinalRobust.get_significance_final (FinalRobust.p_value r)) rows.
Proof.
  unfold FinalRobust.run_robust_analysis.
  destruct (bool_decide _); cbn [mbind result_bind]; [|discriminate].
  destruct (lr_fit _ _ _) as [model|e]; cbn [mbind result_bind]; [|discriminate].
  destruct (FinalRobust.calculate_bootstrap_p_values _ _ _ _ _) as [[ps g1]|e];
    cbn [mbind result_bind]; [|discriminate].
  destruct (FinalRobust.calculate_pp_effects_final _ _) as [pp|e];
    cbn [mbind result_bind]; [|discriminate].
  destruct (for_each _ _) as [results|e] eqn:Hrows;
    cbn [mbind result_bind mret result_ret]; [|discriminate].
  intros [= <- _]. revert Hrows. apply for_each_forall.
  intros [i f] r.
  destruct (at_index (coef_ model) i) as [c|e]; cbn [mbind result_bind]; [|discriminate].
  destruct (at_index ps i) as [p|e]; cbn [mbind result_bind]; [|discriminate].
  destruct (at_index pp i) as [pe|e]; cbn [mbind result_bind mret result_ret]; [|discriminate].
  intros [= <-]. reflexivity.
Qed.

Lemma proper_rows_tier (choice_data : list FinalRobust.choice_record)
    (rows : list ProperConjoint.result_row) :
  ProperConjoint.run_logistic_regression_analysis choice_data = Ok rows ->
  Forall (fun r => ProperConjoint.significance r
                   = ProperConjoint.get_significance_proper (Fin (ProperConjoint.p_value r))) rows.
Proof.
  unfold ProperConjoint.run_logistic_regression_analysis.
  destruct (bool_decide _); cbn [mbind result_bind]; [|discriminate].
  destruct (lr_fit _ _ _) as [model|e]; cbn [mbind result_bind]; [|discriminate].
  destruct (ProperConjoint.calculate_proper_p_values _ _ _) as [ps|e];
    cbn [mbind result_bind]; [|discriminate].
  destruct (ProperConjoint.calculate_pp_effects_proper _ _) as [pp|e];
    cbn [mbind result_bind]; [|discriminate].
  apply for_each_forall.
  intros [i f] r.
  destruct (at_index (coef_ model) i) as [c|e]; cbn [mbind result_bind]; [|discriminate].
  destruct (at_index ps i) as [p|e]; cbn [mbind result_bind]; [|discriminate].
  destruct (at_index pp i) as [pe|e]; cbn [mbind result_bind mret result_ret]; [|discriminate].
  intros [= <-]. reflexivity.
Qed.

Lemma improved_estimated_rows_tier (res : logit_result) (pp_effects : list pyfloat)
    (features : list string) (rows : list level_row) :
  ImprovedLogit.estimated_rows res pp_effects features = Ok rows ->
  Forall (fun r => significance r = ImprovedLogit.get_significance (p_value r)) rows.
Proof.
  unfold ImprovedLogit.estimated_rows.
  destruct (for_each _ _) as [per|e] eqn:Hper; cbn [mbind result_bind mret result_ret];
    [|discriminate].
  intros [= <-]. revert Hper. apply for_each_concat_forall.
  intros [i f] y. cbv zeta.
  destruct (ImprovedLogit.get_level_info _) as [[attr lvl]|];
    [|cbn [mret result_ret]; intros [= <-]; constructor].
  destruct (at_index (params res) i) as [c|e]; cbn [mbind result_bind]; [|discriminate].
  destruct (at_index (bse res) i) as [se|e]; cbn [mbind result_bind]; [|discriminate].
  destruct (at_index (pvalues res) i) as [p|e]; cbn [mbind result_bind]; [|discriminate].
  destruct (at_index (conf_int res) i) as [ci|e]; cbn [mbind result_bind]; [|discriminate].
  destruct (at_index pp_effects i) as [pe|e]; cbn [mbind result_bind mret result_ret];
    [|discriminate].
  intros [= <-]. repeat constructor.
Qed.

Lemma alt_estimated_rows_tier (res : logit_result) (pp_effects : list pyfloat)
    (features : list string) (rows : list level_row) :
  ConditionalLogit.estimated_rows res pp_effects features = Ok rows ->
  Forall (fun r => significance r = ConditionalLogit.get_significance (p_value r)) rows.
Proof.
  unfold ConditionalLogit.estimated_rows.
  destruct (for_each _ _) as [per|e] eqn:Hper; cbn [mbind result_bind mret result_ret];
    [|discriminate].
  intros [= <-]. revert Hper. apply for_each_concat_forall.
  intros [i f] y. cbv zeta.
  destruct (ConditionalLogit.level_info _) as [lv|];
    [|cbn [mret result_ret]; intros [= <-]; constructor].
  destruct (at_index (params res) i) as [c|e]; cbn [mbind result_bind]; [|discriminate].
  destruct (at_index (bse res) i) as [se|e]; cbn [mbind result_bind]; [|discriminate].
  destruct (at_index (pvalues res) i) as [p|e]; cbn [mbind result_bind]; [|discriminate].
  destruct (at_index (conf_int res) i) as [ci|e]; cbn [mbind result_bind]; [|discriminate].
  destruct (at_index pp_effects i) as [pe|e]; cbn [mbind result_bind mret result_ret];
    [|discriminate].
  intros [= <-]. repeat constructor.
Qed.

(** The rows of a run of improved_conditional_logit.py: the estimated rows,
    then the placeholder rows of the excluded columns. *)
Lemma improved_run_rows (cd : list ImprovedLogit.choice_record)
    (out : ImprovedLogit.model_output) :
  ImprovedLogit.run_conditional_logit_model cd = Ok out ->
  exists estimated,
    ImprovedLogit.results out
    = (estimated ++ ImprovedLogit.placeholder_rows (ImprovedLogit.collinear_features cd))%list
    /\ Forall (fun r => significance r = ImprovedLogit.get_significance (p_value r)) estimated.
Proof.
  unfold ImprovedLogit.run_conditional_logit_model.
  destruct (bool_decide _); cbn [mbind result_bind]; [|discriminate].
  destruct (logit_fit _ _) as [res|e]; cbn [mbind result_bind]; [|discriminate].
  destruct (ImprovedLogit.calculate_ame _ _ _) as [pp|e]; cbn [mbind result_bind]; [|discriminate].
  destruct (ImprovedLogit.estimated_rows _ _ _) as [rows|e] eqn:Hrows;
    cbn [mbind result_bind mret result_ret]; [|discriminate].
  intros [= <-]. exists rows. split; [reflexivity|].
  exact (improved_estimated_rows_tier _ _ _ _ Hrows).
Qed.

Lemma alt_run_rows (cd0 : ConditionalLogit.long_frame) (out : ConditionalLogit.model_output) :
  ConditionalLogit.run_conditional_logit_model cd0 = Ok out ->
  exists estimated excluded,
    ConditionalLogit.results out
    = (estimated ++ ConditionalLogit.placeholder_rows excluded)%list
    /\ Forall (fun r => significance r = ConditionalLogit.get_significance (p_value r)) estimated.
Proof.
  unfold ConditionalLogit.run_conditional_logit_model.
  destruct (ConditionalLogit.create_dummy_variables cd0) as [choice_data|e];
    cbn [mbind result_bind]; [|discriminate].
  unfold ConditionalLogit.run_alternative_conditional_logit.
  destruct (ConditionalLogit.difference_frame _ _) as [dd|e]; cbn [mbind result_bind];
    [|discriminate].
  match goal with |- context [match dd with [] => match ?l with _ => _ end | _ => _ end] =>
    destruct dd as [|d dd']; [destruct l|] end; cbn [mbind result_bind]; try discriminate.
  all: destruct (logit_fit _ _) as [res|e]; cbn [mbind result_bind]; [|discriminate].
  all: destruct (ConditionalLogit.calculate_ame_alternative _ _ _) as [pp|e];
    cbn [mbind result_bind]; [|discriminate].
  all: destruct (ConditionalLogit.estimated_rows _ _ _) as [rows|e] eqn:Hrows;
    cbn [mbind result_bind mret result_ret]; [|discriminate].
  all: intros [= <-]; exists rows; eexists; (split; [reflexivity|]).
  all: exact (alt_estimated_rows_tier _ _ _ _ Hrows).
Qed.

(** C9 (as amended). [get_significance] and its copies
    ([get_significance_final], [get_significance_proper],
    [get_significance_corrected] and the one of improved_conditional_logit.py)
    are one total function of the p-value alone: "***" below 0.001, "**" on
    [0.001, 0.01), "*" on [0.01, 0.05), "(marginal)" on [0.05, 0.1) and
    "n.s." from 0.1 on; every p-value gets exactly one of the five tiers
    (NaN, which compares false with every threshold, gets "n.s.").  Every
    row of [run_robust_analysis] and of [run_logistic_regression_analysis],
    and every estimated row of the two [run_conditional_logit_model],
    carries that function of its p-value.  Two places use another mapping:
    the placeholder rows of excluded levels carry the p-value 1.0 with the
    tier "excluded (collinear)", and the result tables of
    simple_conjoint_results.py and conjoint_results_analysis.py mark a row
    with the same markers below 0.1 and with the empty string from 0.1 on,
    and show the marker only for an effect of at least 0.1 in absolute
    value ("n.s." otherwise). *)
Theorem significance_tier_mapping (p : Q) :
  let tier := ConditionalLogit.get_significance (Fin p) in
  ((tier = "***" <-> p < 0.001)
   /\ (tier = "**" <-> 0.001 <= p /\ p < 0.01)
   /\ (tier = "*" <-> 0.01 <= p /\ p < 0.05)
   /\ (tier = "(marginal)" <-> 0.05 <= p /\ p < 0.1)
   /\ (tier = "n.s." <-> 0.1 <= p))%Q
  /\ ConditionalLogit.get_significance NaN = "n.s."
  /\ (forall x : pyfloat,
        ConditionalLogit.get_significance x ∈ ["***"; "**"; "*"; "(marginal)"; "n.s."]
        /\ FinalRobust.get_significance_final x = ConditionalLogit.get_significance x
        /\ ImprovedLogit.get_significance x = ConditionalLogit.get_significance x
        /\ ProperConjoint.get_significance_proper x = ConditionalLogit.get_significance x
        /\ CorrectedAttribute.get_significance_corrected x = ConditionalLogit.get_significance x)
  /\ (forall choice_data g rows g',
        FinalRobust.run_robust_analysis choice_data g = Ok (rows, g') ->
        Forall (fun r => FinalRobust.significance r
                         = FinalRobust.get_significance_final (FinalRobust.p_value r)) rows)
  /\ (forall choice_data rows,
        ProperConjoint.run_logistic_regression_analysis choice_data = Ok rows ->
        Forall (fun r => ProperConjoint.significance r
                         = ProperConjoint.get_significance_proper
                             (Fin (ProperConjoint.p_value r))) rows)
  /\ (forall cd out,
        ImprovedLogit.run_conditional_logit_model cd = Ok out ->
        exists estimated,
          ImprovedLogit.results out
          = (estimated
             ++ ImprovedLogit.placeholder_rows (ImprovedLogit.collinear_features cd))%list
          /\ Forall (fun r => significance r = ImprovedLogit.get_significance (p_value r))
                    estimated)
  /\ (forall cd0 out,
        ConditionalLogit.run_conditional_logit_model cd0 = Ok out ->
        exists estimated excluded,
          ConditionalLogit.results out
          = (estimated ++ ConditionalLogit.placeholder_rows excluded)%list
          /\ Forall (fun r => significance r = ConditionalLogit.get_significance (p_value r))
                    estimated)
  /\ (forall excluded,
        Forall (fun r => p_value r = Fin 1.0 /\ significance r = "excluded (collinear)")
               (ImprovedLogit.placeholder_rows excluded)
        /\ Forall (fun r => p_value r = Fin 1.0 /\ significance r = "excluded (collinear)")
                  (ConditionalLogit.placeholder_rows excluded))
  /\ (forall (x : pyfloat) (pp : Q),
        SimpleResults.row_significance x
        = (if flt x (Fin 0.1) then ConditionalLogit.get_significance x else EmptyString)
        /\ ResultsAnalysis.row_significance x = SimpleResults.row_significance x
        /\ SimpleResults.pp_str pp x
           = (if Qltb (Qabs pp) 0.1 then NotSignificant
              else Signed pp (SimpleResults.row_significance x))
        /\ ResultsAnalysis.pp_str pp x = SimpleResults.pp_str pp x).
Proof.
  split; [apply get_significance_thresholds|].
  split; [reflexivity|].
  split.
  { intros x. split; [|repeat split; reflexivity].
    destruct x as [q|]; unfold ConditionalLogit.get_significance; simpl.
    - tier_cases q; repeat first [apply list_elem_of_here | apply list_elem_of_further].
    - repeat first [apply list_elem_of_here | apply list_elem_of_further]. }
  split; [intros cd g rows g'; apply robust_rows_tier|].
  split; [intros cd rows; apply proper_rows_tier|].
  split; [intros cd out; apply improved_run_rows|].
  split; [intros cd0 out; apply alt_run_rows|].
  split.
  { intros excluded. split;
      [apply improved_placeholder_rows_tier|apply alt_placeholder_rows_tier]. }
  intros x pp. split; [|repeat split; reflexivity].
  unfold SimpleResults.row_significance, ConditionalLogit.get_significance.
  destruct x as [q|]; simpl; [|reflexivity].
  tier_cases q; try reflexivity.
  - assert (Hq : (q < 0.1)%Q) by lra. apply Qltb_lt in Hq. now rewrite Hq.
  - assert (Hq : (q < 0.1)%Q) by lra. apply Qltb_lt in Hq. now rewrite Hq.
  - assert (Hq : (q < 0.1)%Q) by lra. apply Qltb_lt in Hq. now rewrite Hq.
Qed.

End Tiers.

(** The run on the regular frame reports an excluded level with the p-value
    1.0 and the tier "excluded (collinear)", while the tier function gives
    "n.s." at 1.0; and at the p-value 0.5, where the tier function gives
    "n.s.", both result tables mark the row with the empty string. *)
Lemma excluded_level_has_a_tier_of_its_own :
  (exists out excluded_row,
     ImprovedLogit.run_conditional_logit_model (sm := Reference.quick_statsmodels) regular_frame
     = Ok out
     /\ excluded_row ∈ ImprovedLogit.results out
     /\ p_value excluded_row = Fin 1.0
     /\ significance excluded_row = "excluded (collinear)"
     /\ ImprovedLogit.get_significance (p_value excluded_row) = "n.s.")
  /\ ConditionalLogit.get_significance (Fin 0.5) = "n.s."
  /\ SimpleResults.row_significance (Fin 0.5) = EmptyString
  /\ ResultsAnalysis.row_significance (Fin 0.5) = EmptyString.
Proof.
  split; [|repeat split; reflexivity].
  assert (Hs : Vocabulary.succeeded
                 (ImprovedLogit.run_conditional_logit_model (sm := Reference.quick_statsmodels)
                    regular_frame) = true) by (vm_compute; reflexivity).
  destruct (ImprovedLogit.run_conditional_logit_model (sm := Reference.quick_statsmodels)
              regular_frame) as [out|e] eqn:Hout; [|discriminate Hs].
  destruct (improved_run_rows (sm := Reference.quick_statsmodels) regular_frame out Hout)
    as (estimated & Hrows & _).
  pose proof (improved_placeholder_rows_tier (ImprovedLogit.collinear_features regular_frame))
    as Hph.
  destruct (ImprovedLogit.placeholder_rows (ImprovedLogit.collinear_features regular_frame))
    as [|row rest] eqn:Hex; [vm_compute in Hex; discriminate|].
  apply Forall_cons in Hph as [[Hp Hsig] _].
  exists out, row. split; [reflexivity|]. split.
  { rewrite Hrows. apply elem_of_app. right. apply list_elem_of_here. }
  split; [exact Hp|]. split; [exact Hsig|]. rewrite Hp. reflexivity.
Qed.

(** ** C10: range of the bootstrap p-values *)

Lemma indicator_sum_bounds {A} (P : A -> bool) (l : list A) :
  (0 <= Qsum (map (fun d => indicator (P d)) l)
   /\ Qsum (map (fun d => indicator (P d)) l) <= inject_Z (Z.of_nat (length l)))%Q.
Proof.
  induction l as [|d l [IH0 IH1]]; cbn [map Qsum foldr length]; [split; discriminate|].
  fold (Qsum (map (fun d => indicator (P d)) l)).
  rewrite Nat2Z.inj_succ, <- Z.add_1_r, inject_Z_plus.
  change (inject_Z 1) with 1%Q.
  destruct (P d); [change (indicator true) with 1%Q|change (indicator false) with 0%Q];
    split; lra.
Qed.

Lemma indicator_sum_disjoint {A} (P R : A -> bool) (l : list A) :
  (forall d, P d = true -> R d = true -> False) ->
  (Qsum (map (fun d => indicator (P d)) l) + Qsum (map (fun d => indicator (R d)) l)
   <= inject_Z (Z.of_nat (length l)))%Q.
Proof.
  intros Hdis. induction l as [|d l IH]; cbn [map Qsum foldr length]; [discriminate|].
  fold (Qsum (map (fun d => indicator (P d)) l)). fold (Qsum (map (fun d => indicator (R d)) l)).
  rewrite Nat2Z.inj_succ, <- Z.add_1_r, inject_Z_plus.
  specialize (Hdis d). change (inject_Z 1) with 1%Q.
  destruct (P d), (R d);
    repeat change (indicator true) with 1%Q; repeat change (indicator false) with 0%Q;
    first [lra | exfalso; auto].
Qed.

Lemma two_tailed_bounds (dist : list Q) (c : Q) :
  dist <> [] ->
  exists q, FinalRobust.two_tailed dist c = Fin q
            /\ (1e-6 <= q)%Q /\ (q <= 2)%Q /\ (~ (c == 0)%Q -> (q <= 1)%Q).
Proof.
  intros Hdist. unfold FinalRobust.two_tailed.
  set (ge := fun d => Qgeb d (Qabs c)). set (le := fun d => Qle_bool d (- Qabs c)).
  change (map (fun d => indicator (Qgeb d (Qabs c))) dist) with (map (fun d => indicator (ge d)) dist).
  change (map (fun d => indicator (Qle_bool d (- Qabs c))) dist)
    with (map (fun d => indicator (le d)) dist).
  rewrite !np_mean_nonempty by (destruct dist; [congruence|discriminate]).
  rewrite !length_map.
  pose proof (indicator_sum_bounds ge dist) as [Ha0 Ha1].
  pose proof (indicator_sum_bounds le dist) as [Hb0 Hb1].
  pose proof (length_pos_Q dist Hdist) as Hn.
  set (n := inject_Z (Z.of_nat (length dist))) in *.
  set (A := Qsum (map (fun d => indicator (ge d)) dist)) in *.
  set (B := Qsum (map (fun d => indicator (le d)) dist)) in *.
  assert (Ha : (0 <= A / n /\ A / n <= 1)%Q).
  { split; [apply Qle_shift_div_l; lra|apply Qle_shift_div_r; lra]. }
  assert (Hb : (0 <= B / n /\ B / n <= 1)%Q).
  { split; [apply Qle_shift_div_l; lra|apply Qle_shift_div_r; lra]. }
  assert (Hab : ~ (c == 0)%Q -> (A / n + B / n <= 1)%Q).
  { intros Hc.
    assert (HAB : (A + B <= n)%Q).
    { apply indicator_sum_disjoint. intros d Hge Hle. subst ge le. cbn beta in *.
      apply Qle_bool_iff in Hge, Hle.
      assert (0 < Qabs c)%Q.
      { destruct (Qlt_le_dec 0 (Qabs c)) as [?|Hneg]; [assumption|].
        exfalso. apply Hc. apply Qabs_Qle_condition in Hneg as [Hlo Hhi]. lra. }
      lra. }
    assert (Heq : (A / n + B / n == (A + B) / n)%Q) by (field; lra).
    rewrite Heq. apply Qle_shift_div_r; lra. }
  clear Ha0 Ha1 Hb0 Hb1. unfold py_min, py_max, flt, fmul.
  set (a := (A / n)%Q) in *. set (b := (B / n)%Q) in *. clearbody a b. clear Hn.
  assert (Heps : (0 < 1e-6 /\ 1e-6 < 1)%Q) by (split; reflexivity).
  set (eps := 1e-6%Q) in *. clearbody eps.
  destruct (Qltb b a) eqn:Hmin;
    [apply Qltb_lt in Hmin|apply Qltb_ge in Hmin];
    match goal with |- context [Qltb ?x ?y] => destruct (Qltb x y) eqn:Hmax end;
    [apply Qltb_lt in Hmax|apply Qltb_ge in Hmax|apply Qltb_lt in Hmax|apply Qltb_ge in Hmax];
    eexists; (split; [reflexivity|]);
    (split; [lra|split; [lra|intros Hc; specialize (Hab Hc); lra]]).
Qed.

Lemma column_nonempty (rows : matrix) i dist :
  FinalRobust.column rows i = Ok dist -> dist <> [].
Proof.
  unfold FinalRobust.column. destruct rows as [|r rows]; [discriminate|].
  intros Hcol Hnil. apply for_each_ok_length in Hcol. subst dist. discriminate.
Qed.

(** Every p-value the bootstrap procedure returns is a number between 1e-6
    and 2, and at most 1 for a non-zero original coefficient. *)
Lemma bootstrap_p_values_range (original_coefs : list Q) (bootstrap_coefs : matrix)
    (ps : list pyfloat) (i : nat) (p : pyfloat) :
  FinalRobust.p_values_of original_coefs bootstrap_coefs = Ok ps ->
  ps !! i = Some p ->
  exists q c, p = Fin q /\ original_coefs !! i = Some c
              /\ (1e-6 <= q)%Q /\ (q <= 2)%Q /\ (~ (c == 0)%Q -> (q <= 1)%Q).
Proof.
  unfold FinalRobust.p_values_of. intros Hps Hp.
  destruct (for_each_lookup_inv _ _ _ _ _ Hps Hp) as ([j c] & Hjc & Hf).
  apply list_lookup_imap_Some in Hjc as (c' & Hc' & [= -> ->]).
  destruct (FinalRobust.column bootstrap_coefs i) as [dist|e] eqn:Hcol; [|discriminate].
  cbn [mbind result_bind mret result_ret] in Hf. injection Hf as <-.
  destruct (two_tailed_bounds dist c' (column_nonempty _ _ _ Hcol)) as (q & Hq & Hbounds).
  exists q, c'. auto.
Qed.

(** With a zero original coefficient and bootstrap coefficients that are all
    zero the two tails coincide and the value is 2. *)
Lemma two_tailed_all_zero (dist : list Q) :
  dist <> [] -> Forall (fun d => d == 0)%Q dist -> feq (FinalRobust.two_tailed dist 0) (Fin 2).
Proof.
  intros Hdist Hzero. unfold FinalRobust.two_tailed.
  assert (Hge : map (fun d => indicator (Qgeb d (Qabs 0))) dist = map (fun _ => 1%Q) dist).
  { apply map_ext_in. intros d Hd. rewrite Forall_forall in Hzero.
    apply list_elem_of_In in Hd. specialize (Hzero d Hd).
    unfold Qgeb. replace (Qle_bool (Qabs 0) d) with true; [reflexivity|].
    symmetry. apply Qle_bool_iff. change (Qabs 0) with 0%Q. lra. }
  assert (Hle : map (fun d => indicator (Qle_bool d (- Qabs 0))) dist = map (fun _ => 1%Q) dist).
  { apply map_ext_in. intros d Hd. rewrite Forall_forall in Hzero.
    apply list_elem_of_In in Hd. specialize (Hzero d Hd).
    replace (Qle_bool d (- Qabs 0)) with true; [reflexivity|].
    symmetry. apply Qle_bool_iff. change (- Qabs 0)%Q with 0%Q. lra. }
  rewrite Hge, Hle.
  rewrite np_mean_nonempty by (destruct dist; [congruence|discriminate]).
  rewrite length_map.
  assert (Hsum : (Qsum (map (fun _ => 1) dist) == inject_Z (Z.of_nat (length dist)))%Q).
  { clear. induction dist as [|d dist IH]; [reflexivity|].
    cbn [map Qsum foldr length]. fold (Qsum (map (fun _ : Q => 1%Q) dist)).
    rewrite IH, Nat2Z.inj_succ, <- Z.add_1_r, inject_Z_plus. change (inject_Z 1) with 1%Q. lra. }
  pose proof (length_pos_Q dist Hdist) as Hn.
  set (n := inject_Z (Z.of_nat (length dist))) in *.
  set (S1 := Qsum (map (fun _ => 1%Q) dist)) in *.
  assert (Hone : (S1 / n == 1)%Q) by (rewrite Hsum; field; lra).
  set (m := (S1 / n)%Q) in *. clearbody m.
  unfold py_min, flt. rewrite (proj2 (Qltb_ge m m)) by lra.
  cbn [fmul]. unfold py_max, flt.
  assert (Heps : (1e-6 < 1)%Q) by reflexivity. set (eps := 1e-6%Q) in *. clearbody eps.
  rewrite (proj2 (Qltb_ge (2 * m) eps)) by lra. cbn [feq]. lra.
Qed.

(** C10 at the failing input.  The first column of the design is zero in
    every row, so the original coefficient and every bootstrap coefficient
    of that column are zero: both tail frequencies are 1 and the procedure
    returns the p-value 2 for it. *)
Theorem zero_coefficient_gets_p_value_two :
  lr_fit (Sklearn := Reference.one_step) 42 singular_design singular_labels = Ok singular_model
  /\ coef_ (Sklearn := Reference.one_step) singular_model !! 0%nat = Some (0 # 40000)%Q
  /\ exists ps,
       fst <$> FinalRobust.calculate_bootstrap_p_values (sk := Reference.one_step)
                 (rnd := Reference.lcg) singular_model singular_design singular_labels 1000 7%N
         = Ok ps
       /\ Forall2 feq ps [Fin 2; Fin 1e-6].
Proof.
  split; [vm_compute; reflexivity|]. split; [vm_compute; reflexivity|].
  eexists. split; [vm_compute; reflexivity|].
  repeat constructor.
Qed.

(** * Further properties of the scripts *)

Import Vocabulary.

Lemma succeeded_returns {A} (m : result A) : succeeded m = true -> exists a, m = Ok a.
Proof. destruct m; [eauto|discriminate]. Qed.

Lemma for_each_raise_inv {A B} (f : A -> result B) (xs : list A) e :
  for_each f xs = Raise e -> exists x, x ∈ xs /\ f x = Raise e.
Proof.
  induction xs as [|x xs IH]; cbn [for_each]; [discriminate|].
  destruct (f x) as [y|e'] eqn:Hx; cbn [mbind result_bind].
  - destruct (for_each f xs) as [ys'|e'']; cbn [mbind result_bind mret result_ret]; [discriminate|].
    intros [= ->]. destruct IH as (x' & Hin & Hx'); [reflexivity|].
    exists x'. split; [now right|exact Hx'].
  - intros [= ->]. exists x. split; [left|exact Hx].
Qed.

Lemma for_fold_raise_inv {A S} (f : S -> A -> result S) (xs : list A) s e :
  for_fold f xs s = Raise e -> exists s' x, x ∈ xs /\ f s' x = Raise e.
Proof.
  revert s; induction xs as [|x xs IH]; intros s; cbn [for_fold]; [discriminate|].
  destruct (f s x) as [s1|e'] eqn:Hx; cbn [mbind result_bind].
  - intros Hrest. destruct (IH _ Hrest) as (s' & x' & Hin & Hx').
    exists s', x'. split; [now right|exact Hx'].
  - intros [= ->]. exists s, x. split; [left|exact Hx].
Qed.

Lemma for_fold_ok_inv {A S} (f : S -> A -> result S) (xs : list A) s s' :
  for_fold f xs s = Ok s' -> Forall (fun x => exists s1 s2, f s1 x = Ok s2) xs.
Proof.
  revert s; induction xs as [|x xs IH]; intros s; cbn [for_fold]; [constructor|].
  destruct (f s x) as [s1|e'] eqn:Hx; cbn [mbind result_bind]; [|discriminate].
  intros Hrest. constructor; eauto.
Qed.

Lemma per_task_length {A} (f : nat -> nat -> A) (l : list nat) :
  length (flat_map (fun i => map (f i) tasks) l) = (8 * length l)%nat.
Proof.
  induction l as [|i l IH]; [reflexivity|].
  cbn [flat_map]. rewrite length_app, IH, length_map. cbn. lia.
Qed.

Lemma elem_of_concat {A} (x : A) (ls : list (list A)) :
  x ∈ concat ls <-> exists l, x ∈ l /\ l ∈ ls.
Proof.
  induction ls as [|l ls IH]; cbn [concat].
  - split; [intros H; now apply elem_of_nil in H|intros (l & _ & H); now apply elem_of_nil in H].
  - rewrite elem_of_app, IH. split.
    + intros [H|(l' & H1 & H2)]; [exists l; split; [exact H|left]|exists l'; split; [exact H1|now right]].
    + intros (l' & H1 & H2). apply elem_of_cons in H2 as [->|H2]; [now left|right; eauto].
Qed.

(** Comparisons of two literal keys, evaluated. *)
Ltac decide_keys :=
  repeat match goal with
         | |- context [String.eqb ?a ?b] =>
             let v := eval vm_compute in (String.eqb a b) in
             match v with
             | true => change (String.eqb a b) with true
             | false => change (String.eqb a b) with false
             end
         end;
  cbv iota.

Section Final.
Context {py : PyRuntime}.

Lemma final_add_attribute_inv (r : row) t feats attr feats' :
  FinalRobust.add_attribute r t feats attr = Ok feats' ->
  is_Some (r !! attr_col "A" attr t) /\ is_Some (r !! attr_col "B" attr t).
Proof.
  unfold FinalRobust.add_attribute, getitem.
  destruct (r !! attr_col "A" attr t); [|discriminate].
  destruct (r !! attr_col "B" attr t); [|discriminate]. eauto.
Qed.

Lemma final_add_attribute_raise (r : row) t feats attr e :
  FinalRobust.add_attribute r t feats attr = Raise e ->
  e = KeyError (attr_col "A" attr t) \/ e = KeyError (attr_col "B" attr t).
Proof.
  intros Hraise.
  destruct (r !! attr_col "A" attr t) as [a|] eqn:Ha; cycle 1.
  { unfold FinalRobust.add_attribute, getitem in Hraise. rewrite Ha in Hraise.
    injection Hraise as <-. now left. }
  destruct (r !! attr_col "B" attr t) as [b|] eqn:Hb; cycle 1.
  { unfold FinalRobust.add_attribute, getitem in Hraise. rewrite Ha, Hb in Hraise.
    injection Hraise as <-. now right. }
  destruct (final_add_attribute_ok r t feats attr) as (f' & Hf' & _); eauto. congruence.
Qed.

Lemma final_build_record_inv (idx : nat) (r : row) t rec :
  FinalRobust.build_record idx r t = Ok rec ->
  FinalRobust.respondent_id rec = idx /\ FinalRobust.task rec = t
  /\ Forall (fun c => is_Some (r !! c)) (required_columns t).
Proof.
  unfold FinalRobust.build_record, getitem.
  destruct (r !! choice_col t) as [ch|] eqn:Hch; [|discriminate].
  destruct (r !! "Grade") as [g|] eqn:Hg; [|discriminate]. cbn [mbind result_bind].
  destruct (for_fold _ attributes []) as [feats|e] eqn:Hfold; [|discriminate].
  cbn [mbind result_bind mret result_ret]. intros [= <-]. split; [reflexivity|]. split; [reflexivity|].
  apply for_fold_ok_inv in Hfold.
  unfold required_columns. constructor; [eauto|]. constructor; [eauto|].
  apply Forall_flat_map. eapply Forall_impl; [exact Hfold|].
  intros attr (s1 & s2 & Hs). apply final_add_attribute_inv in Hs as [Ha Hb].
  repeat constructor; assumption.
Qed.

Lemma required_columns_present (r : row) t :
  Forall (fun c => is_Some (r !! c)) (required_columns t) ->
  is_Some (r !! choice_col t) /\ is_Some (r !! "Grade") /\ attribute_columns_present r t.
Proof.
  unfold required_columns. intros H.
  apply Forall_cons in H as [Hch H]. apply Forall_cons in H as [Hg H].
  split; [exact Hch|]. split; [exact Hg|].
  rewrite Forall_flat_map in H. eapply Forall_impl; [exact H|].
  intros attr Hattr. apply Forall_cons in Hattr as [Ha Hattr]. apply Forall_cons in Hattr as [Hb _].
  auto.
Qed.

Lemma final_build_record_ok (idx : nat) (r : row) t :
  Forall (fun c => is_Some (r !! c)) (required_columns t) ->
  returns (FinalRobust.build_record idx r t).
Proof.
  intros H. apply required_columns_present in H as ([ch Hch] & [g Hg] & Hattrs).
  unfold FinalRobust.build_record.
  rewrite (getitem_some _ _ _ Hch), (getitem_some _ _ _ Hg). cbn [mbind result_bind].
  destruct (final_features_ok r t Hattrs) as (feats & -> & _). cbn. red. eauto.
Qed.

Lemma final_build_record_raise (idx : nat) (r : row) t e :
  FinalRobust.build_record idx r t = Raise e ->
  exists c, e = KeyError c /\ c ∈ required_columns t.
Proof.
  unfold FinalRobust.build_record, getitem, required_columns.
  destruct (r !! choice_col t) as [ch|] eqn:Hch; cycle 1.
  { intros [= <-]. eexists; split; [reflexivity|]. left. }
  destruct (r !! "Grade") as [g|] eqn:Hg; cycle 1.
  { intros [= <-]. eexists; split; [reflexivity|]. right; left. }
  cbn [mbind result_bind].
  destruct (for_fold _ attributes []) as [feats|e'] eqn:Hfold; [discriminate|].
  cbn [mbind result_bind]. intros [= ->].
  apply for_fold_raise_inv in Hfold as (s & attr & Hattr & Hraise).
  apply final_add_attribute_raise in Hraise.
  assert (Hin : forall alt, alt = "A" \/ alt = "B" ->
                  attr_col alt attr t
                  ∈ flat_map (fun attr => [attr_col "A" attr t; attr_col "B" attr t]) attributes).
  { intros alt Halt. apply list_elem_of_In, in_flat_map. exists attr.
    split; [now apply list_elem_of_In|]. destruct Halt as [-> | ->]; cbn; auto. }
  destruct Hraise as [-> | ->]; eexists; (split; [reflexivity|]); right; right; apply Hin; auto.
Qed.

(** X1. The frame has one record per respondent and task, in the order of the
    table and of the tasks. *)
Theorem final_frame_has_eight_records_per_respondent (df : list row)
    (cd : list FinalRobust.choice_record) :
  FinalRobust.convert_to_choice_format_final df = Ok cd ->
  map (fun rec => (FinalRobust.respondent_id rec, FinalRobust.task rec)) cd
  = flat_map (fun i => map (pair i) tasks) (seq 0 (length df))
  /\ length cd = (8 * length df)%nat.
Proof.
  unfold FinalRobust.convert_to_choice_format_final.
  destruct (for_each _ (iterrows df)) as [per_row|e] eqn:Hrows; [|discriminate].
  cbn [mbind result_bind mret result_ret]. intros [= <-].
  assert (Hkeys : map (fun rec => (FinalRobust.respondent_id rec, FinalRobust.task rec)) (concat per_row)
                  = flat_map (fun i => map (pair i) tasks) (seq 0 (length df))).
  { apply for_each_ok_inv in Hrows. unfold iterrows in Hrows.
    assert (Hgen : forall k (rows : list row) per,
              Forall2 (fun (x : nat * row) y => (let '(idx, r) := x in
                         for_each (FinalRobust.build_record idx r) tasks) = Ok y)
                      (imap (fun i r => (k + i, r)) rows) per ->
              map (fun rec => (FinalRobust.respondent_id rec, FinalRobust.task rec)) (concat per)
              = flat_map (fun i => map (pair i) tasks) (seq k (length rows))).
    { clear. intros k rows. revert k. induction rows as [|r rows IH]; intros k per Hper.
      - inversion Hper; subst. reflexivity.
      - rewrite imap_cons in Hper. inversion Hper as [|x y xs ys Hhead Htail]; subst.
        cbn [length seq flat_map concat]. rewrite map_app. f_equal.
        + rewrite Nat.add_0_r in Hhead. apply for_each_ok_inv in Hhead.
          clear -Hhead. induction Hhead as [|t rec ts recs Hrec _ IHrec]; [reflexivity|].
          cbn [map]. apply final_build_record_inv in Hrec as (-> & -> & _). now rewrite IHrec.
        + apply (IH (S k)). erewrite imap_ext; [exact Htail|].
          intros i x _. cbn. f_equal. lia. }
    apply (Hgen 0 df per_row). exact Hrows. }
  split; [exact Hkeys|].
  apply (f_equal length) in Hkeys. rewrite length_map in Hkeys.
  now rewrite Hkeys, per_task_length, length_seq.
Qed.

(** X2. The conversion returns exactly when every row holds the choice column,
    the grade and both alternatives' columns of all seven attributes for all
    eight tasks; otherwise it raises the KeyError of such a column. *)
Theorem final_frame_needs_every_column (df : list row) :
  (returns (FinalRobust.convert_to_choice_format_final df) <-> Forall complete_row df)
  /\ (forall e, FinalRobust.convert_to_choice_format_final df = Raise e ->
        exists c t, e = KeyError c /\ t ∈ tasks /\ c ∈ required_columns t).
Proof.
  unfold FinalRobust.convert_to_choice_format_final. split; [split|].
  - intros [cd Hcd].
    destruct (for_each _ (iterrows df)) as [per_row|e] eqn:Hrows; [|discriminate].
    apply for_each_ok_inv in Hrows. apply Forall_forall. intros r Hr.
    apply list_elem_of_lookup in Hr as [i Hi].
    assert (Hx : iterrows df !! i = Some (i, r)).
    { unfold iterrows. apply list_lookup_imap_Some. eauto. }
    destruct (Forall2_lookup_l _ _ _ _ _ Hrows Hx) as (recs & _ & Hrecs).
    apply for_each_ok_inv in Hrecs. apply Forall_forall. intros t Ht.
    apply list_elem_of_lookup in Ht as [j Hj].
    destruct (Forall2_lookup_l _ _ _ _ _ Hrecs Hj) as (rec & _ & Hrec).
    now apply final_build_record_inv in Hrec.
  - intros Hall.
    destruct (for_each_total (fun '(idx, r) => for_each (FinalRobust.build_record idx r) tasks)
                (iterrows df)) as (per_row & -> & _); [|cbn; red; eauto].
    apply Forall_forall. intros [i r] Hir. apply list_elem_of_lookup in Hir as [j Hj].
    apply list_lookup_imap_Some in Hj as (r' & Hr' & [= -> ->]).
    rewrite Forall_forall in Hall. specialize (Hall r' (list_elem_of_lookup_2 _ _ _ Hr')).
    destruct (for_each_total (FinalRobust.build_record j r') tasks) as (recs & -> & _); [|eauto].
    eapply Forall_impl; [exact Hall|]. intros t Ht. now apply final_build_record_ok.
  - intros e.
    destruct (for_each _ (iterrows df)) as [per_row|e'] eqn:Hrows; [discriminate|].
    cbn [mbind result_bind]. intros [= ->].
    apply for_each_raise_inv in Hrows as ([i r] & _ & Hrow).
    apply for_each_raise_inv in Hrow as (t & Ht & Hrec).
    apply final_build_record_raise in Hrec as (c & -> & Hc). eauto.
Qed.


(** *** Exchanging the alternatives *)

Lemma negate_dict_set (d : list (string * Z)) k v :
  negate (dict_set d k v) = dict_set (negate d) k (- v)%Z.
Proof.
  unfold negate. induction d as [|[k' v'] d IH]; [reflexivity|].
  cbn [dict_set map fst snd]. destruct (String.eqb k' k); cbn [map fst snd]; [reflexivity|].
  now rewrite IH.
Qed.

Lemma binary_coding_scalar (value : cell) attr :
  String.eqb attr "Pricing" = false ->
  exists z, FinalRobust.get_effects_coding_final value attr = FinalRobust.Scalar z.
Proof.
  intros E. unfold FinalRobust.get_effects_coding_final, FinalRobust.pm. rewrite E.
  repeat match goal with |- context [if String.eqb attr ?s then _ else _] =>
           destruct (String.eqb attr s) end; eauto.
Qed.

Lemma final_add_attribute_mirrored (r r' : row) t feats attr feats' :
  r' !! attr_col "A" attr t = r !! attr_col "B" attr t ->
  r' !! attr_col "B" attr t = r !! attr_col "A" attr t ->
  FinalRobust.add_attribute r t feats attr = Ok feats' ->
  FinalRobust.add_attribute r' t (negate feats) attr = Ok (negate feats').
Proof.
  intros HA HB. unfold FinalRobust.add_attribute, getitem. rewrite HA, HB.
  destruct (r !! attr_col "A" attr t) as [a_val|]; [|discriminate].
  destruct (r !! attr_col "B" attr t) as [b_val|]; [|discriminate].
  cbn [mbind result_bind].
  destruct (String.eqb attr "Pricing") eqn:E.
  - apply String.eqb_eq in E; subst attr.
    destruct (pricing_coding_shape a_val) as (a1 & a2 & a3 & a4 & a5 & ->).
    destruct (pricing_coding_shape b_val) as (b1 & b2 & b3 & b4 & b5 & ->).
    cbn. intros [= <-]. rewrite !negate_dict_set. repeat f_equal; lia.
  - destruct (binary_coding_scalar a_val attr E) as [a ->].
    destruct (binary_coding_scalar b_val attr E) as [b ->].
    intros [= <-]. rewrite negate_dict_set. repeat f_equal; lia.
Qed.

(** X3. Exchanging the two alternatives of a task negates every coded
    difference of its record, and turns a choice of A into a choice of B. *)
Theorem exchanged_alternatives_negate_the_record (idx : nat) (r r' : row) (t : nat)
    (rec : FinalRobust.choice_record) (a b : string) :
  mirrored r r' t ->
  r !! choice_col t = Some (CStr a) ->
  r' !! choice_col t = Some (CStr b) ->
  (a = "A" /\ b = "B") \/ (a = "B" /\ b = "A") ->
  is_Some (r' !! "Grade") ->
  FinalRobust.build_record idx r t = Ok rec ->
  exists rec',
    FinalRobust.build_record idx r' t = Ok rec'
    /\ FinalRobust.features rec' = negate (FinalRobust.features rec)
    /\ FinalRobust.choice rec' = (1 - FinalRobust.choice rec)%Z.
Proof.
  intros Hmirror Hch Hch' Hab [g' Hg']. unfold FinalRobust.build_record.
  rewrite (getitem_some _ _ _ Hch), (getitem_some _ _ _ Hch'), (getitem_some _ _ _ Hg').
  unfold getitem. destruct (r !! "Grade") as [g|]; [|discriminate]. cbn [mbind result_bind].
  destruct (for_fold (FinalRobust.add_attribute r t) attributes []) as [feats|e] eqn:Hfold;
    [|discriminate].
  cbn [mbind result_bind mret result_ret]. intros [= <-].
  assert (Hgen : forall attrs d d',
            Forall (fun attr => r' !! attr_col "A" attr t = r !! attr_col "B" attr t
                                /\ r' !! attr_col "B" attr t = r !! attr_col "A" attr t) attrs ->
            for_fold (FinalRobust.add_attribute r t) attrs d = Ok d' ->
            for_fold (FinalRobust.add_attribute r' t) attrs (negate d) = Ok (negate d')).
  { induction attrs as [|attr attrs IH]; intros d d' Hall; cbn [for_fold].
    - now intros [= <-].
    - apply Forall_cons in Hall as [[HA HB] Hall].
      destruct (FinalRobust.add_attribute r t d attr) as [d1|e] eqn:Hstep; [|discriminate].
      cbn [mbind result_bind]. intros Hrest.
      rewrite (final_add_attribute_mirrored r r' t d attr d1 HA HB Hstep).
      cbn [mbind result_bind]. now apply IH. }
  change (@nil (string * Z)) with (negate []).
  rewrite (Hgen attributes [] feats Hmirror Hfold). cbn [mbind result_bind mret result_ret].
  eexists. split; [reflexivity|]. split; [reflexivity|]. cbn [FinalRobust.choice].
  destruct Hab as [[-> ->]|[-> ->]]; reflexivity.
Qed.

(** *** The Pricing columns *)

Lemma pricing_coding_sum (value : cell) :
  exists f1 f2 f3 f4 f5,
    FinalRobust.get_effects_coding_final value "Pricing" = FinalRobust.pricing_levels f1 f2 f3 f4 f5
    /\ (2 * (f1 + f2 + f3 + f4) + 5 * f5 = -3)%Z.
Proof.
  unfold FinalRobust.get_effects_coding_final. cbn [String.eqb Ascii.eqb Bool.eqb].
  repeat match goal with |- context [if ?c then _ else _] => destruct c end;
    do 5 eexists; (split; [reflexivity|reflexivity]).
Qed.

Lemma final_add_attribute_pricing (r : row) t feats attr feats' :
  attr ∈ attributes ->
  FinalRobust.add_attribute r t feats attr = Ok feats' ->
  pricing_relation feats -> pricing_relation feats'.
Proof.
  intros Hattr. unfold FinalRobust.add_attribute, getitem.
  destruct (r !! attr_col "A" attr t) as [a_val|]; [|discriminate].
  destruct (r !! attr_col "B" attr t) as [b_val|]; [|discriminate].
  cbn [mbind result_bind].
  destruct (String.eqb attr "Pricing") eqn:E.
  - apply String.eqb_eq in E; subst attr.
    destruct (pricing_coding_sum a_val) as (a1 & a2 & a3 & a4 & a5 & -> & Ha).
    destruct (pricing_coding_sum b_val) as (b1 & b2 & b3 & b4 & b5 & -> & Hb).
    cbn. intros [= <-] _. unfold pricing_relation. rewrite !dict_get_set. decide_keys. cbn. lia.
  - destruct (binary_coding_scalar a_val attr E) as [a ->].
    destruct (binary_coding_scalar b_val attr E) as [b ->].
    intros [= <-]. unfold pricing_relation. rewrite !dict_get_set.
    unfold attributes in Hattr.
    repeat (apply elem_of_cons in Hattr as [-> | Hattr]); try discriminate E;
      [..|now apply elem_of_nil in Hattr]; decide_keys; trivial.
Qed.

Lemma final_record_pricing (idx : nat) (r : row) t rec :
  FinalRobust.build_record idx r t = Ok rec -> pricing_relation (FinalRobust.features rec).
Proof.
  unfold FinalRobust.build_record, getitem.
  destruct (r !! choice_col t); [|discriminate]. destruct (r !! "Grade"); [|discriminate].
  cbn [mbind result_bind].
  destruct (for_fold _ attributes []) as [feats|e] eqn:Hfold; [|discriminate].
  cbn [mbind result_bind mret result_ret]. intros [= <-]. cbn [FinalRobust.features].
  assert (Hgen : forall attrs d d',
            (forall attr, attr ∈ attrs -> attr ∈ attributes) ->
            for_fold (FinalRobust.add_attribute r t) attrs d = Ok d' ->
            pricing_relation d -> pricing_relation d').
  { induction attrs as [|attr attrs IH]; intros d d' Hsub; cbn [for_fold].
    - now intros [= <-].
    - destruct (FinalRobust.add_attribute r t d attr) as [d1|e] eqn:Hstep; [|discriminate].
      cbn [mbind result_bind]. intros Hrest Hd. apply (IH d1 d'); [|exact Hrest|].
      + intros x Hx. apply Hsub. now right.
      + eapply final_add_attribute_pricing; [|exact Hstep|exact Hd]. apply Hsub. left. }
  apply (Hgen attributes [] feats); [auto|exact Hfold|reflexivity].
Qed.

Lemma final_record_columns (idx : nat) (r : row) t rec :
  FinalRobust.build_record idx r t = Ok rec ->
  (FinalRobust.features rec).*1 = concat (map coded_columns attributes).
Proof.
  intros Hrec. pose proof (final_build_record_inv idx r t rec Hrec) as (_ & _ & Hcols).
  apply required_columns_present in Hcols as ([ch Hch] & [g Hg] & Hattrs).
  revert Hrec. unfold FinalRobust.build_record.
  rewrite (getitem_some _ _ _ Hch), (getitem_some _ _ _ Hg). cbn [mbind result_bind].
  destruct (final_features_ok r t Hattrs) as (feats & -> & Hkeys).
  cbn [mbind result_bind mret result_ret]. now intros [= <-].
Qed.

Lemma final_frame_records (df : list row) cd rec :
  FinalRobust.convert_to_choice_format_final df = Ok cd -> rec ∈ cd ->
  exists idx r t, FinalRobust.build_record idx r t = Ok rec.
Proof.
  unfold FinalRobust.convert_to_choice_format_final.
  destruct (for_each _ (iterrows df)) as [per_row|e] eqn:Hrows; [|discriminate].
  cbn [mbind result_bind mret result_ret]. intros [= <-] Hrec.
  apply elem_of_concat in Hrec as (recs & Hrec & Hrecs).
  destruct (for_each_elem _ _ _ _ Hrows Hrecs) as ([idx r] & _ & Hrow).
  destruct (for_each_elem _ _ _ _ Hrow Hrec) as (t & _ & Hbuild). eauto.
Qed.

(** X4. Every row of the design matrix of [run_robust_analysis] is orthogonal to
    a fixed non-zero weight vector: twice the first four Pricing columns plus
    five times [Pricing_12.99] is zero in every record, so the columns of the
    matrix are linearly dependent whatever the survey answers are. *)
Theorem pricing_columns_are_linearly_dependent (df : list row)
    (cd : list FinalRobust.choice_record) :
  FinalRobust.convert_to_choice_format_final df = Ok cd ->
  let feature_cols :=
    filter (fun c => FinalRobust.is_feature c = true) (FinalRobust.columns cd) in
  (cd <> [] -> length feature_cols = length pricing_weights)
  /\ Forall (fun x => dot x pricing_weights == 0)%Q
             (map (FinalRobust.design_row feature_cols) cd).
Proof.
  intros Hcd feature_cols.
  assert (Hcols : cd <> [] -> feature_cols = concat (map coded_columns attributes)).
  { intros Hne. subst feature_cols. destruct cd as [|rec0 cd']; [congruence|].
    destruct (final_frame_records df _ rec0 Hcd) as (idx & r & t & Hrec); [left|].
    cbn [FinalRobust.columns]. rewrite (final_record_columns idx r t rec0 Hrec).
    vm_compute. reflexivity. }
  split; [intros Hne; now rewrite (Hcols Hne)|].
  apply Forall_forall. intros x Hx. apply list_elem_of_fmap in Hx as (rec & -> & Hrec).
  rewrite Hcols by (intros ->; now apply elem_of_nil in Hrec).
  destruct (final_frame_records df cd rec Hcd Hrec) as (idx & r & t & Hbuild).
  pose proof (final_record_pricing idx r t rec Hbuild) as Hrel.
  unfold pricing_relation in Hrel. cbv zeta in Hrel.
  let l := eval vm_compute in (concat (map coded_columns attributes)) in
  change (concat (map coded_columns attributes)) with l.
  unfold FinalRobust.design_row, pricing_weights, dot. cbn [map zip_with Qsum foldr].
  apply (f_equal inject_Z) in Hrel.
  rewrite inject_Z_plus, !inject_Z_mult, !inject_Z_plus in Hrel.
  change (inject_Z 2) with 2%Q in Hrel. change (inject_Z 5) with 5%Q in Hrel.
  change (inject_Z 0) with 0%Q in Hrel.
  etransitivity; [|rewrite <- Hrel; reflexivity]. ring.
Qed.

End Final.

(** ** final_robust_conjoint_analysis.py: the bootstrap *)

Section BootstrapRange.
Context {sk : Sklearn} {rnd : NpRandom}.

(** X5. The bootstrap returns one p-value per coefficient; each is a number
    between 1e-6 and 2, and at most 1 when the fitted coefficient is not
    zero. *)
Theorem bootstrap_p_values_are_bounded (model : lr_model) (X : matrix) (y : list Z)
    (n_bootstrap : nat) (g g' : rng_state) (ps : list pyfloat) :
  FinalRobust.calculate_bootstrap_p_values model X y n_bootstrap g = Ok (ps, g') ->
  Forall2 (fun c p => exists q, p = Fin q /\ (1e-6 <= q)%Q /\ (q <= 2)%Q
                                /\ (~ (c == 0)%Q -> (q <= 1)%Q))
          (coef_ model) ps.
Proof.
  unfold FinalRobust.calculate_bootstrap_p_values.
  destruct (FinalRobust.bootstrap_loop _ _ _ _ _) as [[rows g1]|e]; [|discriminate].
  cbn [mbind result_bind].
  destruct (FinalRobust.p_values_of (coef_ model) rows) as [ps'|e] eqn:Hps; [|discriminate].
  cbn [mbind result_bind mret result_ret]. intros [= <- <-].
  apply Forall2_same_length_lookup. split.
  - unfold FinalRobust.p_values_of in Hps. apply for_each_ok_length in Hps.
    now rewrite length_imap in Hps.
  - intros i c p Hc Hp.
    destruct (bootstrap_p_values_range _ _ _ _ _ Hps Hp) as (q & c' & -> & Hc' & Hbounds).
    rewrite Hc in Hc'. injection Hc' as <-. eauto.
Qed.

(** X6. Without iterations the array of bootstrap coefficients has one
    dimension and indexing its columns fails: the call raises IndexError as
    soon as the model has a coefficient. *)
Theorem bootstrap_without_iterations_raises (model : lr_model) (X : matrix) (y : list Z)
    (g : rng_state) :
  coef_ model <> [] ->
  FinalRobust.calculate_bootstrap_p_values model X y 0 g = Raise IndexError.
Proof.
  intros Hne. unfold FinalRobust.calculate_bootstrap_p_values, FinalRobust.p_values_of.
  cbn [seq FinalRobust.bootstrap_loop mbind result_bind].
  destruct (coef_ model) as [|c coefs]; [congruence|]. reflexivity.
Qed.

Lemma bootstrap_loop_all_failed (original_coefs : list Q) (X : matrix) (y : list Z) :
  length y = length X ->
  (forall i indices X' y', iloc X indices = Ok X' -> iloc y indices = Ok y' ->
                           raises (lr_fit i X' y')) ->
  forall iterations g,
  exists g',
    FinalRobust.bootstrap_loop original_coefs X y iterations g
    = Ok (repeat original_coefs (length iterations), g').
Proof.
  intros Hy Hfail. induction iterations as [|i rest IH]; intros g; cbn [FinalRobust.bootstrap_loop].
  - eauto.
  - destruct (random_choice (length X) g) as [indices g1] eqn:Hdraw.
    pose proof (random_choice_range (length X) g) as [_ Hrange]. rewrite Hdraw in Hrange.
    cbn [fst] in Hrange.
    destruct (iloc_in_range X indices Hrange) as (X_boot & HX & _).
    destruct (iloc_in_range y indices) as (y_boot & Hyb & _); [now rewrite Hy|].
    rewrite HX, Hyb. cbn [mbind result_bind].
    destruct (Hfail i indices X_boot y_boot HX Hyb) as [e ->].
    destruct (IH g1) as [g2 ->]. cbn [mbind result_bind mret result_ret length repeat]. eauto.
Qed.

Lemma column_of_repeat (coefs : list Q) (n i : nat) (c : Q) :
  (0 < n)%nat -> coefs !! i = Some c ->
  FinalRobust.column (repeat coefs n) i = Ok (repeat c n).
Proof.
  intros Hn Hc.
  assert (Hall : forall k, for_each (fun r : list Q => at_index r i) (repeat coefs k)
                           = Ok (repeat c k)).
  { induction k as [|k IH]; [reflexivity|].
    cbn [repeat for_each]. rewrite (at_index_some _ _ _ Hc), IH. reflexivity. }
  unfold FinalRobust.column. destruct n as [|n]; [lia|]. apply (Hall (S n)).
Qed.

Lemma indicator_sum_repeat (P : Q -> bool) (c : Q) (n : nat) :
  (Qsum (map (fun d => indicator (P d)) (repeat c n))
   == indicator (P c) * inject_Z (Z.of_nat n))%Q.
Proof.
  induction n as [|n IH]; [cbn; ring|].
  cbn [repeat map Qsum foldr]. fold (Qsum (map (fun d => indicator (P d)) (repeat c n))).
  rewrite IH, Nat2Z.inj_succ, <- Z.add_1_r, inject_Z_plus. change (inject_Z 1) with 1%Q. ring.
Qed.

Lemma two_tailed_of_constant (c : Q) (n : nat) :
  (0 < n)%nat -> ~ (c == 0)%Q -> FinalRobust.two_tailed (repeat c n) c = Fin 1e-6.
Proof.
  intros Hn Hc. unfold FinalRobust.two_tailed.
  assert (Hne : repeat c n <> []) by (destruct n; [lia|discriminate]).
  rewrite !np_mean_nonempty by (destruct (repeat c n); [congruence|discriminate]).
  rewrite !length_map, repeat_length.
  pose proof (indicator_sum_repeat (fun d => Qgeb d (Qabs c)) c n) as Hge.
  pose proof (indicator_sum_repeat (fun d => Qle_bool d (- Qabs c)) c n) as Hle.
  cbv beta in Hge, Hle.
  assert (Hpos : (0 < inject_Z (Z.of_nat n))%Q).
  { rewrite <- (repeat_length c n). now apply length_pos_Q. }
  set (A := Qsum (map (fun d => indicator (Qgeb d (Qabs c))) (repeat c n))) in *.
  set (B := Qsum (map (fun d => indicator (Qle_bool d (- Qabs c))) (repeat c n))) in *.
  set (m := inject_Z (Z.of_nat n)) in *.
  assert (Htails : ((A / m == 1 /\ B / m == 0) \/ (A / m == 0 /\ B / m == 1))%Q).
  { destruct (Qlt_le_dec 0 c) as [Hc0|Hc0].
    - left. rewrite Hge, Hle. unfold Qgeb.
      rewrite (proj2 (Qle_bool_iff (Qabs c) c)) by (rewrite Qabs_pos; lra).
      destruct (Qle_bool c (- Qabs c)) eqn:E.
      { apply Qle_bool_iff in E. rewrite Qabs_pos in E; lra. }
      unfold indicator. split; field; lra.
    - right. assert (Hneg : (c < 0)%Q).
      { destruct (Qeq_dec c 0) as [Hz|Hz]; [contradiction|]. lra. }
      rewrite Hge, Hle. unfold Qgeb.
      rewrite (proj2 (Qle_bool_iff c (- Qabs c))) by (rewrite Qabs_neg; lra).
      destruct (Qle_bool (Qabs c) c) eqn:E.
      { apply Qle_bool_iff in E. rewrite Qabs_neg in E; lra. }
      unfold indicator. split; field; lra. }
  set (a := (A / m)%Q) in *. set (b := (B / m)%Q) in *. clearbody a b.
  unfold py_min, py_max, flt, fmul.
  assert (Heps : (0 < 1e-6)%Q) by reflexivity. set (eps := 1e-6%Q) in *.
  destruct Htails as [[Ha Hb]|[Ha Hb]].
  - rewrite (proj2 (Qltb_lt b a)) by lra. rewrite (proj2 (Qltb_lt (2 * b) eps)) by lra. reflexivity.
  - rewrite (proj2 (Qltb_ge b a)) by lra. rewrite (proj2 (Qltb_lt (2 * a) eps)) by lra. reflexivity.
Qed.

(** X7. A refit that raises is replaced by the original coefficients.  When
    every refit on a resample raises, each bootstrap column is constant and
    every non-zero coefficient gets the smallest p-value, 1e-6. *)
Theorem failed_refits_give_the_smallest_p_value (model : lr_model) (X : matrix) (y : list Z)
    (n_bootstrap : nat) (g : rng_state) :
  (0 < n_bootstrap)%nat ->
  length y = length X ->
  (forall i indices X' y', iloc X indices = Ok X' -> iloc y indices = Ok y' ->
                           raises (lr_fit i X' y')) ->
  exists ps g',
    FinalRobust.calculate_bootstrap_p_values model X y n_bootstrap g = Ok (ps, g')
    /\ Forall2 (fun c p => ~ (c == 0)%Q -> p = Fin 1e-6) (coef_ model) ps.
Proof.
  intros Hn Hy Hfail. unfold FinalRobust.calculate_bootstrap_p_values.
  destruct (bootstrap_loop_all_failed (coef_ model) X y Hy Hfail (seq 0 n_bootstrap) g)
    as [g' ->].
  cbn [mbind result_bind]. rewrite length_seq.
  unfold FinalRobust.p_values_of.
  destruct (for_each_total
              (fun '(i, c) => coef_dist ← FinalRobust.column (repeat (coef_ model) n_bootstrap) i;
                              mret (FinalRobust.two_tailed coef_dist c))
              (imap (fun i c => (i, c)) (coef_ model))) as (ps & Hps & Hlen).
  { apply Forall_forall. intros [i c] Hic. apply list_elem_of_lookup in Hic as [j Hj].
    apply list_lookup_imap_Some in Hj as (c' & Hc' & [= -> ->]).
    rewrite (column_of_repeat _ _ _ _ Hn Hc'). cbn. eauto. }
  rewrite Hps. cbn [mbind result_bind mret result_ret].
  exists ps, g'. split; [reflexivity|].
  apply Forall2_same_length_lookup. split; [now rewrite Hlen, length_imap|].
  intros i c p Hc Hp Hnz.
  destruct (for_each_lookup_inv _ _ _ _ _ Hps Hp) as ([j c'] & Hjc & Hf).
  apply list_lookup_imap_Some in Hjc as (c'' & Hc'' & [= -> ->]).
  rewrite Hc in Hc''. injection Hc'' as <-.
  rewrite (column_of_repeat _ _ _ _ Hn Hc) in Hf. cbn [mbind result_bind mret result_ret] in Hf.
  injection Hf as <-. now apply two_tailed_of_constant.
Qed.

End BootstrapRange.

(** ** corrected_attribute_analysis.py: the statistics of one level *)

Lemma select_counts {A} (l : list A) :
  forall ma mb : list bool,
  length ma = length l -> length mb = length l ->
  (length (CorrectedAttribute.select (zip_with orb ma mb) l)
   + length (CorrectedAttribute.select (zip_with (fun a b => negb a && negb b) ma mb) l)
   = length l
   /\ length (CorrectedAttribute.select (zip_with orb ma mb) l)
      <= length (CorrectedAttribute.select ma l) + length (CorrectedAttribute.select mb l)
   /\ length (CorrectedAttribute.select ma l) + length (CorrectedAttribute.select mb l)
      <= 2 * length (CorrectedAttribute.select (zip_with orb ma mb) l))%nat.
Proof.
  induction l as [|x l IH]; intros [|a ma] [|b mb] Ha Hb; try discriminate; [cbn; lia|].
  injection Ha as Ha. injection Hb as Hb. specialize (IH ma mb Ha Hb).
  destruct a, b; cbn [zip_with orb negb andb CorrectedAttribute.select length]; lia.
Qed.

Lemma select_forall {A} (P : A -> Prop) (l : list A) (mask : list bool) :
  Forall P l -> Forall P (CorrectedAttribute.select mask l).
Proof.
  intros Hl. revert mask. induction Hl as [|x l Hx _ IH]; intros [|[] mask];
    cbn [CorrectedAttribute.select]; auto.
Qed.

Lemma frame_col_length cd col cells :
  CorrectedAttribute.frame_col cd col = Ok cells -> length cells = length cd.
Proof.
  unfold CorrectedAttribute.frame_col. destruct cd as [|r cd]; [discriminate|].
  apply for_each_ok_length.
Qed.

Lemma zsum_of_flags (l : list Z) :
  Forall (fun c => c = 0 \/ c = 1)%Z l ->
  (0 <= CorrectedAttribute.Zsum l <= Z.of_nat (length l))%Z.
Proof.
  induction 1 as [|c l Hc _ IH]; cbn [CorrectedAttribute.Zsum foldr length]; [lia|].
  fold (CorrectedAttribute.Zsum l). lia.
Qed.

Lemma share_of_flags (l : list Z) :
  Forall (fun c => c = 0 \/ c = 1)%Z l ->
  (0 <= match l with [] => 0.5 | _ => CorrectedAttribute.mean_z l end <= 1)%Q.
Proof.
  intros Hl. destruct l as [|c l]; [split; discriminate|].
  pose proof (zsum_of_flags _ Hl) as [H0 H1].
  pose proof (length_pos_Q (c :: l) ltac:(discriminate)) as Hpos.
  unfold CorrectedAttribute.mean_z.
  assert (Hlo : (0 <= inject_Z (CorrectedAttribute.Zsum (c :: l)))%Q)
    by (change 0%Q with (inject_Z 0); now rewrite <- Zle_Qle).
  assert (Hhi : (inject_Z (CorrectedAttribute.Zsum (c :: l))
                 <= inject_Z (Z.of_nat (length (c :: l))))%Q) by now rewrite <- Zle_Qle.
  split; [apply Qle_shift_div_l; lra|apply Qle_shift_div_r; lra].
Qed.

Lemma corrected_frame_flags (df : list row) cd :
  CorrectedAttribute.convert_to_choice_format_corrected df = Ok cd ->
  Forall (fun c => c = 0 \/ c = 1)%Z (map CorrectedAttribute.choice cd).
Proof.
  unfold CorrectedAttribute.convert_to_choice_format_corrected.
  destruct (for_each _ (iterrows df)) as [per_row|e] eqn:Hrows; [|discriminate].
  cbn [mbind result_bind mret result_ret]. intros [= <-].
  apply Forall_fmap, Forall_forall. intros rec Hrec.
  apply elem_of_concat in Hrec as (recs & Hrec & Hrecs).
  destruct (for_each_elem _ _ _ _ Hrows Hrecs) as ([idx r] & _ & Hrow).
  destruct (for_each_elem _ _ _ _ Hrow Hrec) as (t & _ & Hbuild).
  revert Hbuild. unfold CorrectedAttribute.build_record.
  destruct (getitem r (choice_col t)) as [ch|e]; [|discriminate].
  destruct (getitem r "Grade") as [g|e]; [|discriminate]. cbn [mbind result_bind].
  destruct (for_fold _ attributes []) as [d|e]; [|discriminate].
  cbn [mbind result_bind mret result_ret]. intros [= <-]. cbn.
  destruct (cell_eq_str ch "A"); auto.
Qed.

Section LevelStatistics.
Context {sp : SciPy}.

(** X8. The choice sets that show a level and those that do not partition the
    frame, and the number of observations of the level counts a choice set
    once or twice, twice when both alternatives show the level. *)
Theorem level_presence_partitions_the_frame (cd : list CorrectedAttribute.choice_record)
    (attr lvl : string) (res : CorrectedAttribute.level_result) :
  CorrectedAttribute.analyze_level cd attr lvl = Ok res ->
  (CorrectedAttribute.present_n res + CorrectedAttribute.absent_n res = length cd
   /\ CorrectedAttribute.present_n res <= CorrectedAttribute.n_observations res
   /\ CorrectedAttribute.n_observations res <= 2 * CorrectedAttribute.present_n res)%nat.
Proof.
  unfold CorrectedAttribute.analyze_level.
  destruct (CorrectedAttribute.frame_col cd ("A_" +:+ attr)) as [a_col|e] eqn:Ha; [|discriminate].
  destruct (CorrectedAttribute.frame_col cd ("B_" +:+ attr)) as [b_col|e] eqn:Hb; [|discriminate].
  cbn [mbind result_bind mret result_ret]. intros [= <-].
  cbn [CorrectedAttribute.present_n CorrectedAttribute.absent_n CorrectedAttribute.n_observations].
  apply frame_col_length in Ha, Hb.
  pose proof (select_counts (map CorrectedAttribute.choice cd)
                (map (fun c => cell_eq_str c lvl) a_col) (map (fun c => cell_eq_str c lvl) b_col))
    as Hcounts.
  rewrite !length_map in Hcounts. specialize (Hcounts Ha Hb). lia.
Qed.

(** X9. On a frame built by [convert_to_choice_format_corrected] the choice
    share of a level and its two components are proportions, and the
    reported effect lies between -50 and +50 percentage points. *)
Theorem choice_share_is_a_proportion (df : list row) (cd : list CorrectedAttribute.choice_record)
    (attr lvl : string) (res : CorrectedAttribute.level_result) :
  CorrectedAttribute.convert_to_choice_format_corrected df = Ok cd ->
  CorrectedAttribute.analyze_level cd attr lvl = Ok res ->
  (0 <= CorrectedAttribute.a_choice_share res <= 1
   /\ 0 <= CorrectedAttribute.b_choice_share res <= 1
   /\ 0 <= CorrectedAttribute.choice_share res <= 1
   /\ -50 <= CorrectedAttribute.effect_pp res <= 50)%Q.
Proof.
  intros Hcd. apply corrected_frame_flags in Hcd. unfold CorrectedAttribute.analyze_level.
  destruct (CorrectedAttribute.frame_col cd ("A_" +:+ attr)) as [a_col|e]; [|discriminate].
  destruct (CorrectedAttribute.frame_col cd ("B_" +:+ attr)) as [b_col|e]; [|discriminate].
  cbn [mbind result_bind mret result_ret]. intros [= <-].
  cbn [CorrectedAttribute.a_choice_share CorrectedAttribute.b_choice_share
       CorrectedAttribute.choice_share CorrectedAttribute.effect_pp].
  set (a_data := CorrectedAttribute.select (map (fun c => cell_eq_str c lvl) a_col)
                   (map CorrectedAttribute.choice cd)).
  set (b_data := CorrectedAttribute.select (map (fun c => cell_eq_str c lvl) b_col)
                   (map CorrectedAttribute.choice cd)).
  assert (Hfa : Forall (fun c => c = 0 \/ c = 1)%Z a_data) by now apply select_forall.
  assert (Hfb : Forall (fun c => c = 0 \/ c = 1)%Z (map (fun c => 1 - c)%Z b_data)).
  { apply Forall_fmap. eapply Forall_impl; [apply (select_forall _ _ _ Hcd)|].
    intros c [-> | ->]; cbn; auto. }
  pose proof (share_of_flags a_data Hfa) as Hsa.
  assert (Hsb : (0 <= match b_data with
                      | [] => 0.5
                      | _ => CorrectedAttribute.mean_z (map (fun c => 1 - c)%Z b_data)
                      end <= 1)%Q).
  { pose proof (share_of_flags _ Hfb) as H. destruct b_data; exact H. }
  set (sa := match a_data with [] => 0.5%Q | _ => CorrectedAttribute.mean_z a_data end) in *.
  set (sb := match b_data with
             | [] => 0.5%Q
             | _ => CorrectedAttribute.mean_z (map (fun c => 1 - c)%Z b_data)
             end) in *.
  assert (Hshare : (0 <= (if (0 <? length a_data + length b_data)%nat
                          then (sa * CorrectedAttribute.qlen a_data
                                + sb * CorrectedAttribute.qlen b_data)
                               / inject_Z (Z.of_nat (length a_data + length b_data))
                          else 0.5) <= 1)%Q).
  { destruct (0 <? length a_data + length b_data)%nat eqn:Hpos; [|split; discriminate].
    apply Nat.ltb_lt in Hpos. unfold CorrectedAttribute.qlen.
    rewrite Nat2Z.inj_add, inject_Z_plus.
    assert (Hna : (0 <= inject_Z (Z.of_nat (length a_data)))%Q)
      by (change 0%Q with (inject_Z 0); rewrite <- Zle_Qle; lia).
    assert (Hnb : (0 <= inject_Z (Z.of_nat (length b_data)))%Q)
      by (change 0%Q with (inject_Z 0); rewrite <- Zle_Qle; lia).
    assert (Hn : (0 < inject_Z (Z.of_nat (length a_data)) + inject_Z (Z.of_nat (length b_data)))%Q).
    { rewrite <- inject_Z_plus. change 0%Q with (inject_Z 0). rewrite <- Zlt_Qlt. lia. }
    clearbody sa sb. set (na := inject_Z (Z.of_nat (length a_data))) in *.
    set (nb := inject_Z (Z.of_nat (length b_data))) in *. clearbody na nb.
    split; [apply Qle_shift_div_l; [exact Hn|]; nra|apply Qle_shift_div_r; [exact Hn|]; nra]. }
  clearbody sa sb. split; [exact Hsa|]. split; [exact Hsb|]. split; [exact Hshare|].
  match type of Hshare with (0 <= ?s <= 1)%Q => set (share := s) in * end.
  clearbody share. lra.
Qed.

(** X10. A level that no choice set shows is reported like a level without any
    effect: choice share 0.5, effect 0 and p-value 1. *)
Theorem unseen_level_is_reported_as_neutral (cd : list CorrectedAttribute.choice_record)
    (attr lvl : string) (res : CorrectedAttribute.level_result) :
  CorrectedAttribute.analyze_level cd attr lvl = Ok res ->
  CorrectedAttribute.n_observations res = 0%nat ->
  CorrectedAttribute.choice_share res = 0.5%Q
  /\ (CorrectedAttribute.effect_pp res == 0)%Q
  /\ CorrectedAttribute.p_value res = Fin 1.0
  /\ CorrectedAttribute.present_n res = 0%nat.
Proof.
  unfold CorrectedAttribute.analyze_level.
  destruct (CorrectedAttribute.frame_col cd ("A_" +:+ attr)) as [a_col|e] eqn:Ha; [|discriminate].
  destruct (CorrectedAttribute.frame_col cd ("B_" +:+ attr)) as [b_col|e] eqn:Hb; [|discriminate].
  cbn [mbind result_bind mret result_ret]. intros [= <-].
  cbn [CorrectedAttribute.present_n CorrectedAttribute.n_observations
       CorrectedAttribute.choice_share CorrectedAttribute.effect_pp CorrectedAttribute.p_value].
  intros Hzero. rewrite Hzero. cbn [Nat.ltb Nat.leb].
  apply frame_col_length in Ha, Hb.
  pose proof (select_counts (map CorrectedAttribute.choice cd)
                (map (fun c => cell_eq_str c lvl) a_col) (map (fun c => cell_eq_str c lvl) b_col))
    as Hcounts.
  rewrite !length_map in Hcounts. specialize (Hcounts Ha Hb).
  destruct Hcounts as (_ & Hle & _).
  assert (Hpresent : CorrectedAttribute.select
                       (zip_with orb (map (fun c => cell_eq_str c lvl) a_col)
                                 (map (fun c => cell_eq_str c lvl) b_col))
                       (map CorrectedAttribute.choice cd) = []).
  { apply length_zero_iff_nil. lia. }
  rewrite Hpresent. split; [reflexivity|]. split; [reflexivity|]. split; reflexivity.
Qed.

End LevelStatistics.

(** ** improved_conditional_logit.py: dummy differences and result rows *)

Lemma in_diff_spec needle (a b : cell) :
  match ImprovedLogit.in_diff needle a b with
  | Ok v => (-1 <= v <= 1)%Z /\ is_text a = true /\ is_text b = true
  | Raise e => e = TypeError /\ (is_text a = false \/ is_text b = false)
  end.
Proof.
  unfold ImprovedLogit.in_diff, py_in. destruct a as [sa| |], b as [sb| |]; cbn; auto.
  destruct (contains needle sa), (contains needle sb); cbn; repeat split; lia.
Qed.

Lemma in_dummies_spec levels (a b : cell) :
  levels <> [] ->
  match ImprovedLogit.in_dummies levels a b with
  | Ok d => Forall (fun kv => (-1 <= kv.2 <= 1)%Z) d /\ is_text a = true /\ is_text b = true
  | Raise e => e = TypeError /\ (is_text a = false \/ is_text b = false)
  end.
Proof.
  intros Hne. unfold ImprovedLogit.in_dummies.
  assert (Hset : forall (d : list (string * Z)) k v,
            Forall (fun kv => (-1 <= kv.2 <= 1)%Z) d -> (-1 <= v <= 1)%Z ->
            Forall (fun kv => (-1 <= kv.2 <= 1)%Z) (dict_set d k v)).
  { induction d as [|[k' v'] d IH]; intros k v Hd Hv; cbn [dict_set].
    - constructor; [exact Hv|constructor].
    - apply Forall_cons in Hd as [Hv' Hd]. destruct (String.eqb k' k); constructor; auto. }
  assert (Hgen : forall acc, Forall (fun kv => (-1 <= kv.2 <= 1)%Z) acc ->
            match for_fold (fun d '(name, needle) =>
                              v ← ImprovedLogit.in_diff needle a b; mret (dict_set d name v))
                           levels acc with
            | Ok d => Forall (fun kv => (-1 <= kv.2 <= 1)%Z) d
            | Raise e => e = TypeError /\ (is_text a = false \/ is_text b = false)
            end).
  { clear Hne. induction levels as [|[name needle] levels IH]; intros acc Hacc; cbn [for_fold];
      [exact Hacc|].
    pose proof (in_diff_spec needle a b) as Hstep.
    destruct (ImprovedLogit.in_diff needle a b) as [v|e]; cbn [mbind result_bind mret result_ret];
      [|exact Hstep].
    apply IH, Hset; [exact Hacc|apply Hstep]. }
  specialize (Hgen [] (Forall_nil_2 _)).
  destruct levels as [|[name needle] levels]; [congruence|]. cbn [for_fold] in *.
  pose proof (in_diff_spec needle a b) as Hstep.
  destruct (ImprovedLogit.in_diff needle a b) as [v|e]; cbn [mbind result_bind mret result_ret] in *;
    [|exact Hstep].
  destruct (for_fold _ levels _); [|exact Hgen]. split; [exact Hgen|apply Hstep].
Qed.

(** X11. The dummy differences of an attribute are -1, 0 or 1 under the columns
    of that attribute.  Tutor, compared with [==], accepts every cell; the
    other attributes, tested with [in], raise TypeError as soon as one of
    the two cells is not text (a missing value is a float). *)
Theorem dummy_differences_need_text :
  Forall (fun attr => forall a b : cell,
            match ImprovedLogit.create_attribute_dummies attr a b with
            | Ok d => d.*1 = dummy_columns attr
                      /\ Forall (fun kv => (-1 <= kv.2 <= 1)%Z) d
                      /\ (attr = "Tutor" \/ (is_text a = true /\ is_text b = true))
            | Raise e => e = TypeError /\ attr <> "Tutor"
                         /\ (is_text a = false \/ is_text b = false)
            end)
         attributes.
Proof.
  unfold attributes. repeat apply Forall_cons_2; [| | | | | | |constructor]; intros a b.
  { cbn. split; [reflexivity|]. split; [|now left].
    destruct (cell_eq_str a "Female AI tutor"), (cell_eq_str b "Female AI tutor"),
      (cell_eq_str a "Male AI tutor"), (cell_eq_str b "Male AI tutor");
      repeat constructor; cbn; lia. }
  all: match goal with
       | |- match ImprovedLogit.create_attribute_dummies ?attr _ _ with _ => _ end =>
           pose proof (create_attribute_dummies_keys attr a b) as Hkeys;
           let body := eval cbv beta iota delta [ImprovedLogit.create_attribute_dummies
                                                   String.eqb Ascii.eqb Bool.eqb] in
                         (ImprovedLogit.create_attribute_dummies attr a b) in
           change (ImprovedLogit.create_attribute_dummies attr a b) with body in *
       end;
    match goal with
    | |- match ImprovedLogit.in_dummies ?levels _ _ with _ => _ end =>
        pose proof (in_dummies_spec levels a b ltac:(discriminate)) as Hspec;
        destruct (ImprovedLogit.in_dummies levels a b) as [d|e]
    end;
    [destruct Hspec as (Hrange & Ha & Hb); split; [now apply Hkeys|]; split; [exact Hrange|];
     right; now split
    |destruct Hspec as (-> & Htext); split; [reflexivity|]; split; [discriminate|exact Htext]].
Qed.

(** X12. For the level texts of the study the dummy differences of an attribute
    cancel: in a choice set whose two alternatives show listed levels, the
    difference columns of each attribute add up to zero. *)
Theorem level_differences_cancel :
  Forall (fun attr => forall la lb : string,
            la ∈ study_levels attr -> lb ∈ study_levels attr ->
            exists d, ImprovedLogit.create_attribute_dummies attr (CStr la) (CStr lb) = Ok d
                      /\ total d.*2 = 0%Z)
         attributes.
Proof.
  unfold attributes. repeat apply Forall_cons_2; [| | | | | | |constructor]; intros la lb Ha Hb;
    vm_compute in Ha, Hb;
    repeat (apply elem_of_cons in Ha as [-> | Ha]); try (now apply elem_of_nil in Ha);
    repeat (apply elem_of_cons in Hb as [-> | Hb]); try (now apply elem_of_nil in Hb);
    (eexists; split; [vm_compute; reflexivity|reflexivity]).
Qed.

Lemma filter_split_permutation {A} (h : A -> bool) (l : list A) :
  (filter (fun x => h x = true) l ++ filter (fun x => h x = false) l)%list ≡ₚ l.
Proof.
  induction l as [|x l IH]; [reflexivity|].
  rewrite !filter_cons. destruct (h x) eqn:E.
  - rewrite decide_True by reflexivity. rewrite decide_False by discriminate.
    cbn. now rewrite IH.
  - rewrite decide_False by discriminate. rewrite decide_True by reflexivity.
    rewrite <- Permutation_middle. now rewrite IH.
Qed.

Lemma forall_filter {A} (P : A -> Prop) (Q : A -> Prop) `{forall x, Decision (Q x)} (l : list A) :
  Forall P l -> Forall P (filter Q l).
Proof.
  rewrite !Forall_forall. intros Hl x Hx. apply list_elem_of_filter in Hx as [_ Hx]. auto.
Qed.

Lemma placeholder_rows_codes (excluded : list string) :
  Forall (fun f => is_Some (ImprovedLogit.get_level_info (replace f "_diff" ""))) excluded ->
  map level_code (ImprovedLogit.placeholder_rows excluded)
  = map (fun f => replace f "_diff" "") excluded.
Proof.
  unfold ImprovedLogit.placeholder_rows.
  induction 1 as [|f fs [[attr lvl] Hf] _ IH]; [reflexivity|].
  cbn [map concat]. rewrite Hf. cbn [app map level_code ImprovedLogit.placeholder].
  now rewrite IH.
Qed.

Section Reporting.
Context {sm : Statsmodels}.

Lemma estimated_rows_codes (res : logit_result) (pp_effects : list pyfloat)
    (features : list string) (rows : list level_row) :
  Forall (fun f => is_Some (ImprovedLogit.get_level_info (replace f "_diff" ""))) features ->
  ImprovedLogit.estimated_rows res pp_effects features = Ok rows ->
  map level_code rows = map (fun f => replace f "_diff" "") features.
Proof.
  intros Hknown. unfold ImprovedLogit.estimated_rows.
  match goal with |- context [for_each ?f _] => set (F := f) end.
  assert (Hgen : forall k per,
            for_each F (imap (fun i f => ((k + i)%nat, f)) features) = Ok per ->
            map level_code (concat per) = map (fun f => replace f "_diff" "") features).
  { induction Hknown as [|f fs [[attr lvl] Hf] _ IH]; intros k per.
    - cbn. now intros [= <-].
    - rewrite imap_cons. cbn [for_each].
      destruct (F ((k + 0)%nat, f)) as [y|e] eqn:Hy; [|discriminate].
      assert (Hcode : map level_code y = [replace f "_diff" ""]).
      { unfold F in Hy. cbv beta iota zeta in Hy. rewrite Hf in Hy.
        destruct (at_index (params res) (k + 0)) as [c|e]; [|discriminate].
        destruct (at_index (bse res) (k + 0)) as [se|e]; [|discriminate].
        destruct (at_index (pvalues res) (k + 0)) as [p|e]; [|discriminate].
        destruct (at_index (conf_int res) (k + 0)) as [ci|e]; [|discriminate].
        destruct (at_index pp_effects (k + 0)) as [pe|e]; [|discriminate].
        cbn [mbind result_bind mret result_ret] in Hy. now injection Hy as <-. }
      cbn [mbind result_bind mret result_ret].
      rewrite (imap_ext _ (fun i f => ((S k + i)%nat, f))) by (intros; cbn; f_equal; lia).
      destruct (for_each F _) as [per'|e] eqn:Hrest; [|discriminate].
      cbn [mbind result_bind mret result_ret]. intros [= <-].
      cbn [concat map]. rewrite map_app, Hcode. cbn [app]. f_equal. eapply IH. exact Hrest. }
  destruct (for_each F _) as [per|e] eqn:Hper; [|discriminate].
  cbn [mbind result_bind mret result_ret]. intros [= <-]. apply (Hgen 0%nat). exact Hper.
Qed.

(** X13. A run that returns reports every difference column of the frame exactly
    once, as an estimate or as an excluded placeholder: seventeen rows, one
    per attribute level. *)
Theorem every_difference_column_is_reported (df : list row)
    (cd : list ImprovedLogit.choice_record) (out : ImprovedLogit.model_output) :
  ImprovedLogit.convert_to_choice_format df = Ok cd ->
  ImprovedLogit.run_conditional_logit_model cd = Ok out ->
  map level_code (ImprovedLogit.results out)
    ≡ₚ map (fun f => replace f "_diff" "") (ImprovedLogit.diff_features cd)
  /\ length (ImprovedLogit.results out) = 17%nat.
Proof.
  intros Hcd. pose proof (improved_frame_keys df cd Hcd) as Hkeys.
  assert (Hknown : Forall (fun f => is_Some (ImprovedLogit.get_level_info (replace f "_diff" "")))
                          (ImprovedLogit.diff_features cd)).
  { apply Forall_forall. intros f Hf.
    destruct (improved_diff_features_known cd f Hkeys Hf) as (_ & attr & lvl & ->). eauto. }
  unfold ImprovedLogit.run_conditional_logit_model.
  destruct (bool_decide ("chosen_a" ∈ ImprovedLogit.columns cd)) eqn:Hcol; [|discriminate].
  cbn [mbind result_bind].
  destruct (logit_fit _ _) as [res|e]; [|discriminate]. cbn [mbind result_bind].
  destruct (ImprovedLogit.calculate_ame _ _ _) as [pp|e]; [|discriminate]. cbn [mbind result_bind].
  destruct (ImprovedLogit.estimated_rows _ _ _) as [rows|e] eqn:Hrows; [|discriminate].
  cbn [mbind result_bind mret result_ret]. intros [= <-]. cbn [ImprovedLogit.results].
  assert (Hperm : map level_code (rows ++ ImprovedLogit.placeholder_rows
                                            (ImprovedLogit.collinear_features cd))
                    ≡ₚ map (fun f => replace f "_diff" "") (ImprovedLogit.diff_features cd)).
  { unfold ImprovedLogit.collinear_features. unfold ImprovedLogit.final_features in Hrows.
    rewrite map_app.
    rewrite (estimated_rows_codes _ _ _ _ (forall_filter _ _ _ Hknown) Hrows).
    rewrite (placeholder_rows_codes _ (forall_filter _ _ _ Hknown)).
    rewrite <- map_app. apply Permutation_map.
    apply (filter_split_permutation (ImprovedLogit.has_variation cd)). }
  split; [exact Hperm|].
  apply Permutation_length in Hperm. rewrite !length_map in Hperm. rewrite Hperm.
  destruct cd as [|rec cd']; [discriminate|].
  apply Forall_cons in Hkeys as [Hrec _].
  unfold ImprovedLogit.diff_features, ImprovedLogit.columns. rewrite Hrec. reflexivity.
Qed.

End Reporting.

(** ** conditional_logit_analysis.py: the result rows *)

Lemma alt_placeholder_rows_codes (excluded : list string) :
  Forall (fun code => code ∈ ConditionalLogit.level_codes) excluded ->
  map level_code (ConditionalLogit.placeholder_rows excluded) = excluded.
Proof.
  unfold ConditionalLogit.placeholder_rows.
  induction 1 as [|code codes Hcode _ IH]; [reflexivity|].
  destruct (level_code_known code Hcode) as (_ & lv & Hinfo).
  cbn [map concat]. rewrite Hinfo. cbn [app map level_code ConditionalLogit.placeholder].
  now rewrite IH.
Qed.

Section AltReporting.
Context {sm : Statsmodels}.

Lemma alt_estimated_rows_codes (res : logit_result) (pp_effects : list pyfloat)
    (features : list string) (rows : list level_row) :
  Forall (fun f => is_Some (ConditionalLogit.level_info (replace f "_diff" ""))) features ->
  ConditionalLogit.estimated_rows res pp_effects features = Ok rows ->
  map level_code rows = map (fun f => replace f "_diff" "") features.
Proof.
  intros Hknown. unfold ConditionalLogit.estimated_rows.
  match goal with |- context [for_each ?f _] => set (F := f) end.
  assert (Hgen : forall k per,
            for_each F (imap (fun i f => ((k + i)%nat, f)) features) = Ok per ->
            map level_code (concat per) = map (fun f => replace f "_diff" "") features).
  { induction Hknown as [|f fs [lv Hf] _ IH]; intros k per.
    - cbn. now intros [= <-].
    - rewrite imap_cons. cbn [for_each].
      destruct (F ((k + 0)%nat, f)) as [y|e] eqn:Hy; [|discriminate].
      assert (Hcode : map level_code y = [replace f "_diff" ""]).
      { unfold F in Hy. cbv beta iota zeta in Hy. rewrite Hf in Hy.
        destruct (at_index (params res) (k + 0)) as [c|e]; [|discriminate].
        destruct (at_index (bse res) (k + 0)) as [se|e]; [|discriminate].
        destruct (at_index (pvalues res) (k + 0)) as [p|e]; [|discriminate].
        destruct (at_index (conf_int res) (k + 0)) as [ci|e]; [|discriminate].
        destruct (at_index pp_effects (k + 0)) as [pe|e]; [|discriminate].
        cbn [mbind result_bind mret result_ret] in Hy. now injection Hy as <-. }
      cbn [mbind result_bind mret result_ret].
      rewrite (imap_ext _ (fun i f => ((S k + i)%nat, f))) by (intros; cbn; f_equal; lia).
      destruct (for_each F _) as [per'|e] eqn:Hrest; [|discriminate].
      cbn [mbind result_bind mret result_ret]. intros [= <-].
      cbn [concat map]. rewrite map_app, Hcode. cbn [app]. f_equal. eapply IH. exact Hrest. }
  destruct (for_each F _) as [per|e] eqn:Hper; [|discriminate].
  cbn [mbind result_bind mret result_ret]. intros [= <-]. apply (Hgen 0%nat). exact Hper.
Qed.

(** X14. Whatever the long frame is, a run that returns reports each of the
    seventeen level codes exactly once: estimated, excluded for want of
    variation, or excluded because its difference column sums to zero. *)
Theorem every_level_code_is_reported_once (cd0 : ConditionalLogit.long_frame)
    (out : ConditionalLogit.model_output) :
  ConditionalLogit.run_conditional_logit_model cd0 = Ok out ->
  map level_code (ConditionalLogit.results out) ≡ₚ ConditionalLogit.level_codes
  /\ length (ConditionalLogit.results out) = 17%nat.
Proof.
  unfold ConditionalLogit.run_conditional_logit_model.
  destruct (ConditionalLogit.create_dummy_variables cd0) as [choice_data|e]; [|discriminate].
  cbn [mbind result_bind]. unfold ConditionalLogit.run_alternative_conditional_logit. cbv zeta.
  set (cd := ConditionalLogit.rows choice_data).
  set (varies := fun code => flt (Fin 1e-10) (ConditionalLogit.series_var
                                                (ConditionalLogit.dummy_column cd code))).
  set (feature_cols := filter (fun code => _ = true) ConditionalLogit.level_codes).
  set (collinear := filter (fun code => _ = false) ConditionalLogit.level_codes).
  assert (Hfc : Forall (fun code => code ∈ ConditionalLogit.level_codes) feature_cols).
  { apply Forall_forall. intros code Hc. now apply list_elem_of_filter in Hc as [_ Hc]. }
  assert (Hco : Forall (fun code => code ∈ ConditionalLogit.level_codes) collinear).
  { apply Forall_forall. intros code Hc. now apply list_elem_of_filter in Hc as [_ Hc]. }
  destruct (ConditionalLogit.difference_frame cd feature_cols) as [dd|e]; [|discriminate].
  cbn [mbind result_bind].
  destruct dd as [|d0 dd'].
  { intros Hout. exfalso. revert Hout.
    destruct feature_cols; cbn [mbind result_bind]; discriminate. }
  set (dd := d0 :: dd') in *. cbn [mbind result_bind].
  destruct (logit_fit _ _) as [res|e]; [|discriminate]. cbn [mbind result_bind].
  destruct (ConditionalLogit.calculate_ame_alternative _ _ _) as [pp|e]; [|discriminate].
  cbn [mbind result_bind].
  destruct (ConditionalLogit.estimated_rows _ _ _) as [rows|e] eqn:Hrows; [|discriminate].
  cbn [mbind result_bind mret result_ret]. intros [= <-]. cbn [ConditionalLogit.results].
  assert (Hstrip : forall fs, Forall (fun code => code ∈ ConditionalLogit.level_codes) fs ->
            map (fun f => replace f "_diff" "") (ConditionalLogit.diff_names fs) = fs).
  { unfold ConditionalLogit.diff_names. induction 1 as [|code fs Hcode _ IH]; [reflexivity|].
    cbn [map]. rewrite IH. now destruct (level_code_known code Hcode) as (-> & _). }
  assert (Hknown : Forall (fun f => is_Some (ConditionalLogit.level_info (replace f "_diff" "")))
                          (ConditionalLogit.diff_names feature_cols)).
  { unfold ConditionalLogit.diff_names. apply Forall_fmap. eapply Forall_impl; [exact Hfc|].
    intros code Hcode. destruct (level_code_known code Hcode) as (Hstripped & lv & Hinfo).
    change (is_Some (ConditionalLogit.level_info (replace (code +:+ "_diff") "_diff" ""))).
    rewrite Hstripped, Hinfo. eauto. }
  assert (Hperm : map level_code
                    (rows ++ ConditionalLogit.placeholder_rows
                               (collinear ++ map (fun f => replace f "_diff" "")
                                               (ConditionalLogit.collinear_diff_features dd feature_cols)))
                  ≡ₚ ConditionalLogit.level_codes).
  { unfold ConditionalLogit.final_features in Hrows.
    rewrite map_app, (alt_estimated_rows_codes _ _ _ _ (forall_filter _ _ _ Hknown) Hrows).
    rewrite alt_placeholder_rows_codes; cycle 1.
    { apply Forall_app. split; [exact Hco|]. apply Forall_fmap, Forall_forall.
      intros f Hf. apply list_elem_of_filter in Hf as [_ Hf].
      unfold ConditionalLogit.diff_names in Hf. apply list_elem_of_fmap in Hf as (code & -> & Hcode).
      rewrite Forall_forall in Hfc.
      destruct (level_code_known code (Hfc code Hcode)) as (Hstripped & _).
      change (replace (code +:+ "_diff") "_diff" "" ∈ ConditionalLogit.level_codes).
      rewrite Hstripped. now apply Hfc. }
    unfold ConditionalLogit.collinear_diff_features.
    rewrite (Permutation_app_comm collinear), app_assoc, <- map_app.
    rewrite (filter_split_permutation (ConditionalLogit.has_variation dd)).
    rewrite (Hstrip feature_cols Hfc). apply (filter_split_permutation varies). }
  split; [exact Hperm|].
  apply Permutation_length in Hperm. now rewrite length_map in Hperm.
Qed.

End AltReporting.

(** ** Marginal effects at the edges *)

Lemma for_each_enumerate_short {A B C} (g : B -> C) (l : list B) (names : list A) (k : nat) :
  k <= length l -> length l < k + length names ->
  for_each (fun '(i, _) => x ← at_index l i; mret (g x)) (imap (fun i f => (k + i, f)) names)
  = Raise IndexError.
Proof.
  revert k; induction names as [|n names IH]; intros k Hk Hlen; [cbn in Hlen; lia|].
  cbn [length] in Hlen. rewrite imap_cons. cbn [for_each]. cbv beta iota.
  rewrite Nat.add_0_r.
  destruct (l !! k) as [x|] eqn:Hx.
  - rewrite (at_index_some _ _ _ Hx). cbn [mbind result_bind mret result_ret].
    rewrite (imap_ext _ (fun i f => (S k + i, f))) by (intros; cbn; f_equal; lia).
    apply lookup_lt_Some in Hx. rewrite IH by lia. reflexivity.
  - replace (at_index l k) with (@Raise B IndexError); [reflexivity|].
    unfold at_index. now rewrite Hx.
Qed.

Section MarginalEffects.
Context {sm : Statsmodels}.

(** X15. [calculate_ame] reads one parameter per feature name: with more names
    than parameters it raises IndexError.  With no fitted probability the
    mean of the derivative is NaN and every effect is reported as NaN, not
    as an error. *)
Theorem marginal_effects_at_the_edges (res : logit_result) (X : design) (features : list string) :
  (length (params res) < length features ->
   ImprovedLogit.calculate_ame res X features = Raise IndexError)
  /\ (length features <= length (params res) -> predict res = [] ->
      ImprovedLogit.calculate_ame res X features = Ok (map (fun _ => NaN) features)).
Proof.
  unfold ImprovedLogit.calculate_ame. split.
  - intros Hlen.
    apply (for_each_enumerate_short
             (fun coef => fmul (fmul (np_mean (map (fun p => p * (1 - p))%Q (predict res)))
                                     (Fin coef)) (Fin 100))
             (params res) features 0); lia.
  - intros Hlen Hempty.
    rewrite (for_each_enumerate
               (fun coef => fmul (fmul (np_mean (map (fun p => p * (1 - p))%Q (predict res)))
                                       (Fin coef)) (Fin 100))) by exact Hlen.
    rewrite Hempty. cbn [map np_mean fmul]. f_equal.
    assert (Hgen : forall (l : list Q) n, n <= length l ->
              map (fun _ : Q => NaN) (take n l) = repeat NaN n).
    { induction l as [|x l IH]; intros [|n] Hn; cbn in *; try reflexivity; try lia.
      now rewrite IH by lia. }
    rewrite Hgen by exact Hlen. clear. induction features; cbn; congruence.
Qed.

End MarginalEffects.


(** ** conjoint_analysis.py and enhanced_conjoint_analysis.py: the long frames *)

(** X16. Each task contributes the record of alternative A and then that of B.
    A record is marked chosen exactly when the choice equals its label, so
    at most one of the two is; the two ratings are copied to the chosen
    record and are NaN on every other one. *)
Theorem ratings_are_kept_on_the_chosen_record (idx : nat) (r : row) (t : nat)
    (recs : list ConjointAnalysis.long_record) :
  ConjointAnalysis.build_task idx r t = Ok recs ->
  exists ra rb ch,
    recs = [ra; rb] /\ r !! choice_col t = Some ch
    /\ ConjointAnalysis.option_ ra = "A" /\ ConjointAnalysis.option_ rb = "B"
    /\ (ConjointAnalysis.chosen ra + ConjointAnalysis.chosen rb <= 1)%Z
    /\ Forall (fun rec =>
                 if cell_eq_str ch (ConjointAnalysis.option_ rec)
                 then ConjointAnalysis.chosen rec = 1%Z
                      /\ r !! learning_col t = Some (ConjointAnalysis.perceived_learning rec)
                      /\ r !! enjoyment_col t = Some (ConjointAnalysis.expected_enjoyment rec)
                 else ConjointAnalysis.chosen rec = 0%Z
                      /\ ConjointAnalysis.perceived_learning rec = CNaN
                      /\ ConjointAnalysis.expected_enjoyment rec = CNaN)
              recs.
Proof.
  unfold ConjointAnalysis.build_task, getitem.
  destruct (r !! choice_col t) as [ch|] eqn:Hch; [|discriminate].
  cbn [mbind result_bind for_each].
  assert (Hopt : forall opt rec,
            ConjointAnalysis.build_option idx r t ch opt = Ok rec ->
            ConjointAnalysis.option_ rec = opt
            /\ if cell_eq_str ch opt
               then ConjointAnalysis.chosen rec = 1%Z
                    /\ r !! learning_col t = Some (ConjointAnalysis.perceived_learning rec)
                    /\ r !! enjoyment_col t = Some (ConjointAnalysis.expected_enjoyment rec)
               else ConjointAnalysis.chosen rec = 0%Z
                    /\ ConjointAnalysis.perceived_learning rec = CNaN
                    /\ ConjointAnalysis.expected_enjoyment rec = CNaN).
  { intros opt rec. unfold ConjointAnalysis.build_option, getitem.
    fold (learning_col t). fold (enjoyment_col t).
    destruct (cell_eq_str ch opt).
    - destruct (r !! learning_col t) as [pl|]; [|discriminate].
      destruct (r !! enjoyment_col t) as [ee|]; [|discriminate].
      destruct (r !! "Grade"); [|discriminate]. destruct (r !! "Prolific_ID"); [|discriminate].
      cbn [mbind result_bind mret result_ret]. intros [= <-]. cbn. auto.
    - cbn [mbind result_bind].
      destruct (r !! "Grade"); [|discriminate]. destruct (r !! "Prolific_ID"); [|discriminate].
      cbn [mbind result_bind mret result_ret]. intros [= <-]. cbn. auto. }
  destruct (ConjointAnalysis.build_option idx r t ch "A") as [ra|e] eqn:Ha; [|discriminate].
  destruct (ConjointAnalysis.build_option idx r t ch "B") as [rb|e] eqn:Hb; [|discriminate].
  cbn [mbind result_bind mret result_ret]. intros [= <-].
  destruct (Hopt "A" ra Ha) as [HoA HA]. destruct (Hopt "B" rb Hb) as [HoB HB].
  exists ra, rb, ch. split; [reflexivity|]. split; [reflexivity|].
  split; [exact HoA|]. split; [exact HoB|]. split.
  - destruct ch as [s| |]; cbn [cell_eq_str] in HA, HB;
      try (destruct HA as (-> & _); destruct HB as (-> & _); lia).
    destruct (String.eqb s "A") eqn:EA.
    + apply String.eqb_eq in EA. subst s. cbn in HB.
      destruct HA as (-> & _); destruct HB as (-> & _); lia.
    + destruct HA as (-> & _). destruct (String.eqb s "B"); destruct HB as (-> & _); lia.
  - constructor; [rewrite HoA; exact HA|].
    constructor; [rewrite HoB; exact HB|constructor].
Qed.

(** X17. A task gets a rating record exactly when its choice is A or B and the
    perceived-learning rating is not missing; the record then carries that
    choice and rating.  The choice record is written in every case. *)
Theorem rating_record_needs_choice_and_rating (idx : nat) (r : row) (t : nat)
    (cr : EnhancedConjoint.choice_record) (rs : list EnhancedConjoint.rating_record) :
  EnhancedConjoint.build_task idx r t = Ok (cr, rs) ->
  exists ch,
    r !! choice_col t = Some ch /\ EnhancedConjoint.chosen_option cr = ch
    /\ EnhancedConjoint.task cr = t /\ EnhancedConjoint.respondent_id cr = idx
    /\ match EnhancedConjoint.chosen_label ch, r !! learning_col t with
       | Some _, Some pl =>
           if isna pl then rs = []
           else exists rr, rs = [rr] /\ EnhancedConjoint.perceived_learning rr = pl
                           /\ EnhancedConjoint.r_chosen_option rr = ch
                           /\ r !! enjoyment_col t = Some (EnhancedConjoint.expected_enjoyment rr)
       | Some _, None => False
       | None, _ => rs = []
       end.
Proof.
  unfold EnhancedConjoint.build_task, getitem.
  fold (learning_col t). fold (enjoyment_col t).
  destruct (r !! choice_col t) as [ch|]; [|discriminate].
  destruct (r !! "Grade") as [g|]; [|discriminate].
  destruct (r !! "Prolific_ID") as [pid|]; [|discriminate].
  cbn [mbind result_bind]. intros Hout. exists ch. split; [reflexivity|].
  destruct (EnhancedConjoint.chosen_label ch) as [lbl|].
  - destruct (r !! learning_col t) as [pl|]; [|discriminate].
    cbn [mbind result_bind] in Hout. destruct (isna pl).
    + injection Hout as <- <-. auto.
    + destruct (r !! enjoyment_col t) as [ee|]; [|discriminate].
      cbn [mbind result_bind mret result_ret] in Hout. injection Hout as <- <-.
      repeat split. eexists. split; [reflexivity|]. auto.
  - injection Hout as <- <-. auto.
Qed.

(** ** simple_conjoint_results.py: one difference per attribute *)

Ltac decide_order :=
  split; intros;
  first [ lia | reflexivity
        | exfalso; first [ lia | match goal with H : _ |- _ => vm_compute in H; discriminate H end ] ].

(** X18. The coded difference of an attribute never fails and changes sign when
    the alternatives are exchanged.  For Pricing, coded in a single column,
    it is positive exactly when alternative A shows the cheaper level, zero
    exactly when both show the same level, and it lies between -2 and 2. *)
Theorem simple_difference_orders_the_prices {py : PyRuntime} (a b : cell) (attr : string) :
  exists d d' : Q,
    SimpleChoice.get_effects_difference a b attr = Done d
    /\ SimpleChoice.get_effects_difference b a attr = Done d'
    /\ (d' == - d)%Q
    /\ (attr = "Pricing" ->
        ((0 < d)%Q <-> price_rank a < price_rank b)
        /\ ((d == 0)%Q <-> price_rank a = price_rank b)
        /\ (-2 <= d)%Q /\ (d <= 2)%Q).
Proof.
  unfold SimpleChoice.get_effects_difference, SimpleChoice.effects_code, SimpleChoice.pm, price_rank.
  destruct (String.eqb attr "Pricing") eqn:E.
  - apply String.eqb_eq in E. subst attr. cbn [String.eqb Ascii.eqb Bool.eqb].
    destruct (contains "School pays" (py_str a)), (contains "$4.99" (py_str a)),
      (contains "$7.99" (py_str a)), (contains "$9.99" (py_str a)),
      (contains "School pays" (py_str b)), (contains "$4.99" (py_str b)),
      (contains "$7.99" (py_str b)), (contains "$9.99" (py_str b));
      cbn [SimpleChoice.pricing_levels dict_get String.eqb Ascii.eqb Bool.eqb default];
      (do 2 eexists; split; [reflexivity|]; split; [reflexivity|]; split; [reflexivity|];
       intros _; split; [decide_order|]; split; [decide_order|]; split; discriminate).
  - assert (Hne : attr <> "Pricing") by (intros ->; discriminate E).
    repeat match goal with |- context [if String.eqb attr ?s then _ else _] =>
             destruct (String.eqb attr s) end;
      repeat match goal with |- context [contains ?k ?s] => destruct (contains k s) end;
      (do 2 eexists; split; [reflexivity|]; split; [reflexivity|]; split; [reflexivity|];
       intros Hp; contradiction).
Qed.

(** ** conjoint_analysis.py: the market simulation *)

Lemma qsum_positive (l : list Q) :
  l <> [] -> Forall (fun x => 0 < x)%Q l -> (0 < Qsum l)%Q.
Proof.
  intros Hne Hpos. destruct Hpos as [|x l Hx Hl]; [congruence|]. clear Hne.
  cbn [Qsum foldr]. fold (Qsum l).
  assert (Hrest : (0 <= Qsum l)%Q).
  { clear -Hl. induction Hl as [|y l Hy _ IH]; cbn [Qsum foldr]; [discriminate|].
    fold (Qsum l). lra. }
  lra.
Qed.

Lemma qsum_scaled (l : list Q) (d : Q) :
  (Qsum (map (fun e => e / d) l) == Qsum l / d)%Q.
Proof.
  induction l as [|x l IH]; cbn [map Qsum foldr].
  - unfold Qdiv. ring.
  - fold (Qsum (map (fun e => e / d)%Q l)). fold (Qsum l). rewrite IH. unfold Qdiv. ring.
Qed.

Lemma scenario_table_nonempty {V} (u : list (string * V) -> V)
    (scenarios : list (string * list (string * string))) (f : list (string * string) -> V)
    (d : list (string * V)) :
  (scenarios <> [] \/ d <> []) ->
  foldl (fun d '(name, config) => dict_set d name (f config)) d scenarios <> [].
Proof.
  revert d. induction scenarios as [|[name config] scenarios IH]; intros d Hne; cbn [foldl].
  - destruct Hne; congruence.
  - apply IH. right. destruct d as [|[k v] d]; cbn [dict_set]; [discriminate|].
    destruct (String.eqb k name); discriminate.
Qed.

Section Simulation.
Context {ex : NumPyExp}.

(** X19. The simulation turns the total utilities into a probability
    distribution over the scenarios: every probability is positive, they
    add up to one, and a scenario with a larger total utility gets a larger
    probability. *)
Theorem simulated_probabilities_form_a_distribution (u : utility_table)
    (scenarios : list (string * list (string * string))) :
  scenarios <> [] ->
  let rows := simulation_rows u scenarios in
  rows <> []
  /\ (Qsum (map choice_probability rows) == 1)%Q
  /\ Forall (fun r => 0 < choice_probability r /\ choice_probability r <= 1)%Q rows
  /\ forall r1 r2, r1 ∈ rows -> r2 ∈ rows ->
       (value (scenario_utility r1) < value (scenario_utility r2))%Q ->
       (choice_probability r1 < choice_probability r2)%Q.
Proof.
  intros Hne. unfold simulation_rows. cbv zeta.
  set (table := foldl _ [] scenarios).
  assert (Htable : table <> []).
  { subst table. apply (scenario_table_nonempty (fun _ => PyInt 0) scenarios (total_utility u)).
    now left. }
  set (exps := map (fun kv : string * number => np_exp (value kv.2)) table).
  assert (Hpos : Forall (fun x => 0 < x)%Q exps).
  { subst exps. apply Forall_fmap, Forall_forall. intros kv _. apply np_exp_positive. }
  assert (Hexps : exps <> []) by (subst exps; destruct table; [congruence|discriminate]).
  pose proof (qsum_positive exps Hexps Hpos) as Hden.
  set (den := Qsum exps) in *.
  assert (Hrows : zip_with (fun (kv : string * number) e =>
                              {| scenario := kv.1; scenario_utility := kv.2;
                                 choice_probability := (e / den)%Q |}) table exps
                  = map (fun kv : string * number =>
                           {| scenario := kv.1; scenario_utility := kv.2;
                              choice_probability := (np_exp (value kv.2) / den)%Q |}) table).
  { subst exps. generalize den. clear. intros d.
    induction table as [|kv table IH]; [reflexivity|].
    cbn [map zip_with]. now rewrite IH. }
  fold exps. fold den. rewrite Hrows. split; [destruct table; [congruence|discriminate]|].
  split.
  { rewrite map_map. cbn [choice_probability].
    change (map (fun kv : string * number => (np_exp (value kv.2) / den)%Q) table)
      with (map ((fun e => e / den)%Q ∘ (fun kv : string * number => np_exp (value kv.2))) table).
    rewrite (list_fmap_compose (fun kv : string * number => np_exp (value kv.2))
               (fun e => e / den)%Q table).
    change (list_fmap _ _ ?f ?l) with (map f l).
    fold exps. rewrite qsum_scaled. change (den / den == 1)%Q. field. lra. }
  assert (Hle : forall e, e ∈ exps -> (e <= den)%Q).
  { subst den. clear -Hpos. induction Hpos as [|x l Hx Hl IH]; intros e He.
    - now apply elem_of_nil in He.
    - cbn [Qsum foldr]. fold (Qsum l).
      assert (Hrest : (0 <= Qsum l)%Q).
      { clear -Hl. induction Hl as [|y l Hy _ IH]; cbn [Qsum foldr]; [discriminate|].
        fold (Qsum l). lra. }
      apply elem_of_cons in He as [-> | He]; [lra|]. specialize (IH e He). lra. }
  split.
  { apply Forall_fmap, Forall_forall. intros kv Hkv. cbn [choice_probability].
    pose proof (np_exp_positive (value kv.2)) as He.
    assert (Hin : np_exp (value kv.2) ∈ exps).
    { subst exps. apply list_elem_of_fmap. eauto. }
    specialize (Hle _ Hin).
    split; [apply Qlt_shift_div_l; lra|apply Qle_shift_div_r; lra]. }
  intros r1 r2 Hr1 Hr2 Hlt.
  apply list_elem_of_fmap in Hr1 as (kv1 & -> & _).
  apply list_elem_of_fmap in Hr2 as (kv2 & -> & _).
  cbn [choice_probability scenario_utility] in *.
  pose proof (np_exp_increasing _ _ Hlt) as Hexp.
  apply Qlt_shift_div_l; [exact Hden|].
  assert (Heq : (np_exp (value kv1.2) / den * den == np_exp (value kv1.2))%Q) by (field; lra).
  rewrite Heq. exact Hexp.
Qed.

End Simulation.

(** ** The importance scores of both analyzers *)

Lemma value_sub (a b : number) : (value (num_sub a b) == value a - value b)%Q.
Proof.
  destruct a, b; cbn [num_sub value]; try reflexivity.
  unfold Z.sub. rewrite inject_Z_plus, inject_Z_opp. reflexivity.
Qed.

Lemma value_add (a b : number) : (value (num_add a b) == value a + value b)%Q.
Proof.
  destruct a, b; cbn [num_add value]; try reflexivity.
  rewrite inject_Z_plus. reflexivity.
Qed.

Lemma value_abs_nonneg (a : number) : (0 <= value (num_abs a))%Q.
Proof.
  destruct a; cbn [num_abs value]; [|apply Qabs_nonneg].
  unfold Qle, inject_Z. cbn. lia.
Qed.

Lemma extremes_bracket (l : list number) (b : number) :
  (value (min_from b l) <= value b <= value (max_from b l))%Q.
Proof.
  revert b. induction l as [|x l IH]; intros b; cbn [min_from max_from]; [lra|].
  pose proof (IH (if num_lt x b then x else b)) as [Hmin _].
  pose proof (IH (if num_lt b x then x else b)) as [_ Hmax].
  unfold num_lt in *.
  destruct (Qltb (value x) (value b)) eqn:E1; destruct (Qltb (value b) (value x)) eqn:E2;
    try apply Qltb_lt in E1; try apply Qltb_lt in E2;
    try apply Qltb_ge in E1; try apply Qltb_ge in E2; lra.
Qed.

Lemma raw_importance_nonneg (attr : string) (levels : list (string * number)) (v : number) :
  raw_importance attr levels = Done v -> (0 <= value v)%Q.
Proof.
  unfold raw_importance. cbv zeta. destruct (String.eqb attr "pricing").
  - destruct (levels.*2) as [|v0 vs]; [discriminate|]. intros [= <-].
    rewrite value_sub. pose proof (extremes_bracket vs v0). lra.
  - destruct (levels.*2) as [|v0 [|v1 ?]]; try discriminate. intros [= <-].
    apply value_abs_nonneg.
Qed.

Lemma dict_set_fresh {V} (d : list (string * V)) (k : string) (v : V) :
  k ∉ d.*1 -> dict_set d k v = (d ++ [(k, v)])%list.
Proof.
  induction d as [|[k' v'] d IH]; intros Hk; cbn [dict_set app]; [reflexivity|].
  rewrite fmap_cons in Hk. cbn [fst] in Hk. apply not_elem_of_cons in Hk as [Hne Hk].
  destruct (String.eqb k' k) eqn:E; [apply String.eqb_eq in E; congruence|].
  now rewrite IH.
Qed.

Lemma dict_set_forall {V} (P : V -> Prop) (d : list (string * V)) (k : string) (v : V) :
  Forall (fun kv => P kv.2) d -> P v -> Forall (fun kv => P kv.2) (dict_set d k v).
Proof.
  intros Hd Hv. induction Hd as [|[k' v'] d Hkv Hd IH]; cbn [dict_set].
  - constructor; [exact Hv|constructor].
  - destruct (String.eqb k' k); constructor; auto.
Qed.

Lemma dict_set_nodup {V} (d : list (string * V)) (k : string) (v : V) :
  NoDup d.*1 -> NoDup (dict_set d k v).*1.
Proof.
  induction d as [|[k' v'] d IH]; intros Hnd; cbn [dict_set].
  - cbn. apply NoDup_singleton.
  - rewrite fmap_cons in Hnd. cbn [fst] in Hnd. apply NoDup_cons in Hnd as [Hk' Hnd].
    destruct (String.eqb k' k) eqn:E.
    + apply String.eqb_eq in E. subst k'. rewrite fmap_cons. cbn [fst].
      apply NoDup_cons. split; assumption.
    + rewrite fmap_cons. cbn [fst]. apply NoDup_cons. split; [|auto].
      rewrite dict_set_keys. unfold set_key.
      destruct (existsb (String.eqb k) d.*1); [exact Hk'|].
      rewrite elem_of_app, list_elem_of_singleton. intros [Hin | ->]; [contradiction|].
      now rewrite String.eqb_refl in E.
Qed.

Lemma raw_scores_spec (u : utility_table) : forall acc raw,
  fold_each (fun imp '(attr, levels) =>
               v ← raw_importance attr levels; mret (dict_set imp attr v)) u acc = Done raw ->
  NoDup acc.*1 -> Forall (fun kv : string * number => 0 <= value kv.2)%Q acc ->
  NoDup raw.*1 /\ Forall (fun kv : string * number => 0 <= value kv.2)%Q raw.
Proof.
  induction u as [|[attr levels] u IH]; intros acc raw H Hnd Hpos; cbn [fold_each] in H.
  - injection H as <-. now split.
  - destruct (raw_importance attr levels) as [v|] eqn:Ev;
      cbn [mbind outcome_bind mret outcome_ret] in H; [|discriminate].
    apply IH in H; [exact H|now apply dict_set_nodup|].
    apply (dict_set_forall (fun v => 0 <= value v)%Q); [exact Hpos|].
    exact (raw_importance_nonneg _ _ _ Ev).
Qed.

Lemma value_foldl_add (l : list number) (a : number) :
  (value (foldl num_add a l) == value a + Qsum (map value l))%Q.
Proof.
  revert a. induction l as [|x l IH]; intros a; cbn [foldl map Qsum foldr].
  - ring.
  - fold (Qsum (map value l)). rewrite IH, value_add. ring.
Qed.

Lemma shares_spec (T : number) (l : list (string * number)) : forall acc imp,
  fold_each (fun imp '(attr, v) =>
               share ← num_div v T; mret (dict_set imp attr (times_100 share))) l acc = Done imp ->
  NoDup (acc.*1 ++ l.*1) ->
  exists shares,
    Forall2 (fun (kv : string * number) s => num_div kv.2 T = Done s) l shares
    /\ imp = (acc ++ zip_with (fun (kv : string * number) s => (kv.1, times_100 s)) l shares)%list.
Proof.
  induction l as [|[k v] l IH]; intros acc imp H Hnd; cbn [fold_each] in H.
  - injection H as <-. exists []. split; [constructor|]. cbn. now rewrite app_nil_r.
  - destruct (num_div v T) as [s|] eqn:Es;
      cbn [mbind outcome_bind mret outcome_ret] in H; [|discriminate].
    rewrite fmap_cons in Hnd. cbn [fst] in Hnd.
    assert (Hk : k ∉ acc.*1).
    { apply NoDup_app in Hnd as (_ & Hdis & _). intros Hin. apply (Hdis k Hin). left. }
    rewrite dict_set_fresh in H by exact Hk.
    apply IH in H as (shares & Hf & ->).
    + exists (s :: shares). split; [constructor; assumption|].
      cbn [zip_with]. now rewrite <- app_assoc.
    + rewrite fmap_app. cbn. now rewrite <- app_assoc.
Qed.

Lemma num_div_nonzero (v T : number) :
  ~ (value T == 0)%Q -> num_div v T = Done (Finite (value v / value T)).
Proof.
  intros Hnz. unfold num_div.
  assert (Hq : Qeq_bool (value T) 0 = false).
  { destruct (Qeq_bool (value T) 0) eqn:E; [|reflexivity].
    apply Qeq_bool_iff in E. contradiction. }
  destruct v, T; cbn [value] in *; rewrite ?Hq; try reflexivity.
  destruct (z0 =? 0)%Z eqn:E; [|reflexivity].
  apply Z.eqb_eq in E. subst. exfalso. apply Hnz. reflexivity.
Qed.

Lemma num_div_zero (v T : number) (s : quotient) :
  (value T == 0)%Q -> (value v == 0)%Q -> num_div v T = Done s -> s = NotANumber.
Proof.
  intros HT Hv. unfold num_div. apply Qeq_bool_iff in HT, Hv.
  destruct v, T; cbn [value] in *; rewrite ?HT, ?Hv; try (intros [= <-]; reflexivity).
  destruct (z0 =? 0)%Z eqn:E; [discriminate|].
  apply Qeq_bool_iff in HT. unfold Qeq in HT. cbn in HT. apply Z.eqb_neq in E. lia.
Qed.

Lemma qsum_nonneg (l : list Q) : Forall (fun x => 0 <= x)%Q l -> (0 <= Qsum l)%Q.
Proof.
  induction 1 as [|x l Hx _ IH]; cbn [Qsum foldr]; [discriminate|]. fold (Qsum l). lra.
Qed.

Lemma qsum_bounds (l : list Q) :
  Forall (fun x => 0 <= x)%Q l -> Forall (fun x => x <= Qsum l)%Q l.
Proof.
  induction 1 as [|x l Hx Hl IH]; [constructor|]. cbn [Qsum foldr]. fold (Qsum l).
  pose proof (qsum_nonneg l Hl). constructor; [lra|].
  eapply Forall_impl; [exact IH|]. cbn. intros y Hy. lra.
Qed.

Lemma qsum_percent (l : list Q) (d : Q) :
  (Qsum (map (fun x => x / d * 100) l) == Qsum l / d * 100)%Q.
Proof.
  induction l as [|x l IH]; cbn [map Qsum foldr].
  - unfold Qdiv. ring.
  - fold (Qsum (map (fun x => x / d * 100)%Q l)). fold (Qsum l). rewrite IH.
    unfold Qdiv. ring.
Qed.

(** X20. The importance scores are percentages: when the call returns, either
    every score is a number between 0 and 100 and the scores add up to 100,
    or (the raw importances are all zero) every score is NaN.  No score is
    infinite. *)
Theorem importance_scores_are_percentages (u : utility_table)
    (imp : list (string * quotient)) :
  _calculate_importance u = Done imp ->
  (exists qs, imp.*2 = map Finite qs
              /\ Forall (fun q => 0 <= q /\ q <= 100)%Q qs
              /\ (Qsum qs == 100)%Q)
  \/ Forall (fun kv => kv.2 = NotANumber) imp.
Proof.
  unfold _calculate_importance.
  destruct (fold_each _ u []) as [raw|] eqn:Hraw;
    cbn [mbind outcome_bind]; [|discriminate].
  cbv zeta. intros H.
  apply raw_scores_spec in Hraw as [Hnd Hpos]; [|constructor|constructor].
  apply shares_spec in H as (shares & Hf & ->); [|exact Hnd].
  cbn [app]. set (T := py_sum raw.*2) in *.
  assert (Hvals : Forall (fun x => 0 <= x)%Q (map value raw.*2)).
  { apply Forall_fmap, Forall_fmap. exact Hpos. }
  assert (HT : (value T == Qsum (map value raw.*2))%Q).
  { subst T. unfold py_sum. rewrite value_foldl_add. cbn [value]. ring. }
  clearbody T. destruct (Qeq_dec (value T) 0) as [Hz|Hnz].
  - right.
    assert (Hzero : Forall (fun kv : string * number => value kv.2 == 0)%Q raw).
    { pose proof (qsum_bounds _ Hvals) as Hb.
      rewrite !Forall_fmap in Hb. rewrite Forall_forall in Hb, Hpos.
      apply Forall_forall. intros kv Hkv. specialize (Hb kv Hkv). specialize (Hpos kv Hkv).
      cbn in Hb, Hpos. lra. }
    clear -Hf Hzero Hz. induction Hf as [|kv s l shares Hs Hf IH]; cbn [zip_with]; [constructor|].
    apply Forall_cons in Hzero as [Hkv Hzero]. constructor; [|auto].
    cbn [snd]. now rewrite (num_div_zero _ _ _ Hz Hkv Hs).
  - left. exists (map (fun x => x / value T * 100)%Q (map value raw.*2)). split.
    { clear -Hf Hnz. induction Hf as [|kv s l shares Hs Hf IH]; cbn [zip_with]; [reflexivity|].
      rewrite num_div_nonzero in Hs by exact Hnz. injection Hs as <-.
      rewrite !fmap_cons. cbn [snd map times_100]. f_equal. exact IH. }
    assert (HTpos : (0 < value T)%Q).
    { pose proof (qsum_nonneg _ Hvals). lra. }
    split.
    + pose proof (qsum_bounds _ Hvals) as Hb.
      apply Forall_fmap, Forall_forall. intros x Hx. cbn.
      rewrite Forall_forall in Hvals, Hb. specialize (Hvals x Hx). specialize (Hb x Hx).
      assert (H0 : (0 <= x / value T)%Q) by (apply Qle_shift_div_l; lra).
      assert (H1 : (x / value T <= 1)%Q) by (apply Qle_shift_div_r; lra).
      lra.
    + rewrite qsum_percent, <- HT. field. lra.
Qed.

(** ** Utilities from the coefficients *)

Lemma level_utility_set (u : utility_table) (a l : string) (v : number) (u' : utility_table)
    (a' l' : string) :
  set_level u a l v = Done u' ->
  level_utility u' a' l' =
    if String.eqb a a' then (if String.eqb l l' then Some v else level_utility u a' l')
    else level_utility u a' l'.
Proof.
  unfold set_level. destruct (dict_get u a) as [levels|] eqn:E; [|discriminate].
  intros [= <-]. unfold level_utility. rewrite dict_get_set.
  destruct (String.eqb a a') eqn:Ea; [|reflexivity].
  apply String.eqb_eq in Ea. subst a'. rewrite E. apply dict_get_set.
Qed.

Lemma set_pair_lookup (u : utility_table) (A U D : string) (c : Q) (u' : utility_table)
    (a l : string) :
  EnhancedUtilities.set_pair u A U D c = Done u' ->
  level_utility u' a l =
    if String.eqb A a then
      if String.eqb D l then Some (NpFloat (- c))
      else if String.eqb U l then Some (NpFloat c) else level_utility u a l
    else level_utility u a l.
Proof.
  unfold EnhancedUtilities.set_pair.
  destruct (set_level u A U (NpFloat c)) as [u1|] eqn:E1; cbn [mbind outcome_bind]; [|discriminate].
  intros E2.
  rewrite (level_utility_set _ _ _ _ _ a l E2), (level_utility_set _ _ _ _ _ a l E1).
  destruct (String.eqb A a); reflexivity.
Qed.

Lemma enumerated_snd {A} (g : nat -> nat) (l : list A) :
  (imap (fun i f => (g i, f)) l).*2 = l.
Proof.
  revert g. induction l as [|x l IH]; intros g; [reflexivity|].
  cbn [imap]. rewrite fmap_cons. cbn [snd]. f_equal. apply (IH (g ∘ S)).
Qed.

Lemma enumerated_forall {A} (P : nat * A -> Prop) (l : list A) :
  (forall i f, l !! i = Some f -> P (i, f)) ->
  Forall P (imap (fun i f => (i, f)) l).
Proof.
  intros H. apply Forall_forall. intros [i f] Hin.
  apply list_elem_of_lookup in Hin as [k Hk].
  apply list_lookup_imap_Some in Hk as (f' & Hf' & [= -> ->]). auto.
Qed.

(** What holds before the loop over the feature names and is kept by every
    assignment holds after it. *)
Lemma utilities_loop_keeps
    (assign : utility_table -> string -> Q -> outcome utility_table)
    (coefficients : list Q) (P : utility_table -> Prop) (known : string -> Prop) :
  (forall u f c u', known f -> P u -> assign u f c = Done u' -> P u') ->
  forall (l : list (nat * string)) u0 u,
    fold_each (fun u '(i, feature) =>
                 coef ← lift (at_index coefficients i); assign u feature coef) l u0 = Done u ->
    Forall (fun p => known p.2) l -> P u0 -> P u.
Proof.
  intros Hstep. induction l as [|[i f] l IH]; intros u0 u H Hl HP; cbn [fold_each] in H.
  - now injection H as <-.
  - apply Forall_cons in Hl as [Hf Hl].
    destruct (at_index coefficients i) as [c|]; cbn [lift mbind outcome_bind] in H; [|discriminate].
    destruct (assign u0 f c) as [u1|] eqn:E1; [|discriminate].
    apply (IH u1 u H Hl). exact (Hstep _ _ _ _ Hf HP E1).
Qed.

(** A loop none of whose names is assigned returns the table it started
    from. *)
Lemma utilities_loop_idle
    (assign : utility_table -> string -> Q -> outcome utility_table)
    (coefficients : list Q) (l : list (nat * string)) (u0 : utility_table) :
  Forall (fun p => (p.1 < length coefficients)%nat /\ forall u c, assign u p.2 c = Done u) l ->
  fold_each (fun u '(i, feature) =>
               coef ← lift (at_index coefficients i); assign u feature coef) l u0 = Done u0.
Proof.
  induction 1 as [|[i f] l [Hi Hf] Hl IH]; cbn [fold_each]; [reflexivity|].
  cbn [fst snd] in Hi, Hf. unfold at_index.
  destruct (coefficients !! i) as [c|] eqn:Ec.
  - cbn [lift mbind outcome_bind]. rewrite Hf. exact IH.
  - apply lookup_ge_None in Ec. lia.
Qed.

Ltac decide_contains :=
  repeat match goal with
         | |- context [contains ?a ?b] =>
             let v := eval vm_compute in (contains a b) in
             match v with
             | true => change (contains a b) with true
             | false => change (contains a b) with false
             end
         end;
  cbv iota.

Ltac split_members H :=
  repeat (apply elem_of_cons in H as [H|H]); [..|now apply elem_of_nil in H].

Lemma enhanced_assign_cases (u : utility_table) (f : string) (c : Q) (u' : utility_table) :
  EnhancedUtilities.assign u f c = Done u' ->
  u' = u
  \/ set_level u "pricing" "$4.99" (NpFloat c) = Done u'
  \/ exists A U D, (A, U, D) ∈ binary_levels /\ EnhancedUtilities.set_pair u A U D c = Done u'.
Proof.
  unfold EnhancedUtilities.assign, binary_levels.
  repeat match goal with
         | |- context [if contains ?a f then _ else _] => destruct (contains a f)
         end;
    intros H;
    first [ left; congruence
          | right; left; exact H
          | right; right; do 3 eexists; split; [|exact H]; set_solver ].
Qed.

(** X21. Whatever the feature names are, the difference coefficients give the
    two levels of every two-level attribute opposite utilities, and the
    pricing levels other than $4.99 keep the int 0 they start with. *)
Theorem difference_utilities_mirror_each_other (feature_names : list string)
    (coefficients : list Q) (u : utility_table) (imp : list (string * quotient)) :
  EnhancedUtilities._calculate_utilities_from_coefficients feature_names coefficients
    = Done (u, imp) ->
  Forall (fun '(attr, up, down) =>
            exists x y, level_utility u attr up = Some x
                        /\ level_utility u attr down = Some y
                        /\ (value x + value y == 0)%Q) binary_levels
  /\ Forall (fun level => level_utility u "pricing" level = Some (PyInt 0))
            ["Free"; "$7.99"; "$9.99"; "$12.99"].
Proof.
  unfold EnhancedUtilities._calculate_utilities_from_coefficients.
  destruct (fold_each _ _ initial_utilities) as [u1|] eqn:Hloop;
    cbn [mbind outcome_bind]; [|discriminate].
  destruct (_calculate_importance u1) as [imp1|]; cbn [mbind outcome_bind mret outcome_ret];
    [|discriminate].
  intros [= <- <-]. pattern u1.
  match goal with
  | |- ?P u1 =>
      refine (utilities_loop_keeps EnhancedUtilities.assign coefficients P (fun _ => True)
                _ _ _ _ Hloop _ _)
  end.
  - intros u0 f c u' _ [Hpairs Hprices] Hassign.
    rewrite Forall_forall in Hpairs. rewrite Forall_forall in Hprices.
    apply enhanced_assign_cases in Hassign as [-> | [Hset | (A & U & D & Hin & Hset)]].
    + split; apply Forall_forall; assumption.
    + split; apply Forall_forall.
      * intros [[a up] down] Hal. specialize (Hpairs _ Hal). cbn beta iota in Hpairs.
        rewrite !(level_utility_set _ _ _ _ _ _ _ Hset).
        unfold binary_levels in Hal. split_members Hal; injection Hal as -> -> ->;
          decide_keys; exact Hpairs.
      * intros level Hl. specialize (Hprices _ Hl).
        rewrite (level_utility_set _ _ _ _ _ _ _ Hset).
        split_members Hl; subst level; decide_keys; exact Hprices.
    + split; apply Forall_forall.
      * intros [[a up] down] Hal. specialize (Hpairs _ Hal). cbn beta iota in Hpairs.
        rewrite !(set_pair_lookup _ _ _ _ _ _ _ _ Hset).
        unfold binary_levels in Hal, Hin.
        split_members Hin; injection Hin as -> -> ->;
          split_members Hal; injection Hal as -> -> ->; decide_keys;
          first [ exact Hpairs
                | exists (NpFloat c), (NpFloat (- c)); split; [reflexivity|];
                  split; [reflexivity|]; cbn [value]; ring ].
      * intros level Hl. specialize (Hprices _ Hl).
        rewrite (set_pair_lookup _ _ _ _ _ _ _ _ Hset).
        unfold binary_levels in Hin.
        split_members Hin; injection Hin as -> -> ->; decide_keys; exact Hprices.
  - apply Forall_forall. auto.
  - split; apply Forall_forall.
    + intros [[a up] down] Hal. unfold binary_levels in Hal.
      split_members Hal; injection Hal as -> -> ->;
        exists (PyInt 0), (PyInt 0); repeat split; reflexivity.
    + intros level Hl. split_members Hl; subst level; reflexivity.
Qed.

(** X22. In the frame the palette and the two messages are the columns
    [color_palette_diff], [message_success__diff] and
    [message_failure__diff], and no test of the loop finds [color_diff],
    [message_success_diff] or [message_failure_diff] in a column name of
    the frame: the utilities of these three attributes stay at the int 0.
    When none of the four other difference columns is among the features,
    no utility is set at all and the importance scores fail on the division
    by the total 0. *)
Theorem palette_and_messages_are_never_estimated (feature_names : list string)
    (coefficients : list Q) :
  Forall (fun f => f ∈ EnhancedUtilities.model_columns) feature_names ->
  (forall u imp,
      EnhancedUtilities._calculate_utilities_from_coefficients feature_names coefficients
        = Done (u, imp) ->
      Forall (fun '(attr, level) => level_utility u attr level = Some (PyInt 0))
             palette_and_messages)
  /\ ((length feature_names <= length coefficients)%nat ->
      Forall (fun f => f ∉ mapped_differences) feature_names ->
      EnhancedUtilities._calculate_utilities_from_coefficients feature_names coefficients
        = Failed ZeroDivisionError).
Proof.
  intros Hknown. split.
  - intros u imp. unfold EnhancedUtilities._calculate_utilities_from_coefficients.
    destruct (fold_each _ _ initial_utilities) as [u1|] eqn:Hloop;
      cbn [mbind outcome_bind]; [|discriminate].
    destruct (_calculate_importance u1) as [imp1|]; cbn [mbind outcome_bind mret outcome_ret];
      [|discriminate].
    intros [= <- <-]. pattern u1.
    match goal with
    | |- ?P u1 =>
        refine (utilities_loop_keeps EnhancedUtilities.assign coefficients P
                  (fun f => f ∈ EnhancedUtilities.model_columns) _ _ _ _ Hloop _ _)
    end.
    + intros u0 f c u' Hf HP. rewrite Forall_forall in HP.
      let l := eval vm_compute in EnhancedUtilities.model_columns in
      change EnhancedUtilities.model_columns with l in Hf.
      unfold EnhancedUtilities.assign.
      split_members Hf; subst f; decide_contains; intros Hset; apply Forall_forall;
        intros [a l] Hal; specialize (HP _ Hal); cbn beta iota in HP;
        unfold palette_and_messages in Hal;
        split_members Hal; injection Hal as -> ->;
        first [ injection Hset as <-; exact HP
              | rewrite (set_pair_lookup _ _ _ _ _ _ _ _ Hset); decide_keys; exact HP
              | rewrite (level_utility_set _ _ _ _ _ _ _ Hset); decide_keys; exact HP ].
    + apply enumerated_forall. intros i f Hi. cbn [snd].
      rewrite Forall_forall in Hknown. apply Hknown, list_elem_of_lookup. eauto.
    + apply Forall_forall. intros [a l] Hal. unfold palette_and_messages in Hal.
      split_members Hal; injection Hal as -> ->; reflexivity.
  - intros Hlen Hnone. unfold EnhancedUtilities._calculate_utilities_from_coefficients.
    rewrite utilities_loop_idle; [reflexivity|].
    apply enumerated_forall. intros i f Hi. cbn [fst snd]. split.
    { apply lookup_lt_Some in Hi. lia. }
    rewrite Forall_forall in Hknown, Hnone.
    assert (Hf : f ∈ feature_names) by (apply list_elem_of_lookup; eauto).
    specialize (Hknown f Hf). specialize (Hnone f Hf).
    let l := eval vm_compute in EnhancedUtilities.model_columns in
    change EnhancedUtilities.model_columns with l in Hknown.
    unfold mapped_differences in Hnone. intros u c. unfold EnhancedUtilities.assign.
    split_members Hknown; subst f; decide_contains;
      first [ reflexivity | exfalso; apply Hnone; set_solver ].
Qed.

(** ** conjoint_analysis.py: utilities of the kept dummy columns *)

Lemma conjoint_assign_estimated (al : string * string) (u : utility_table) (c : Q) :
  al ∈ estimated_levels ->
  ConjointUtilities.assign u (feature_name al) c = set_level u al.1 al.2 (NpFloat c).
Proof.
  intros H. unfold estimated_levels in H.
  split_members H; subst al; vm_compute; reflexivity.
Qed.

Lemma level_utility_initial (al : string * string) :
  al ∈ (estimated_levels ++ reference_levels)%list ->
  level_utility initial_utilities al.1 al.2 = Some (PyInt 0).
Proof.
  intros H. unfold estimated_levels, reference_levels in H. cbn [app] in H.
  split_members H; subst al; reflexivity.
Qed.

Lemma conjoint_loop (coefficients : list Q) : forall (l : list (nat * string)) u0 u,
  fold_each (fun u '(i, feature) =>
               coef ← lift (at_index coefficients i);
               ConjointUtilities.assign u feature coef) l u0 = Done u ->
  NoDup l.*2 ->
  Forall (fun p => exists al, al ∈ estimated_levels /\ p.2 = feature_name al) l ->
  (forall i al, al ∈ estimated_levels -> (i, feature_name al) ∈ l ->
     exists c, coefficients !! i = Some c
               /\ level_utility u al.1 al.2 = Some (NpFloat c))
  /\ (forall al, feature_name al ∉ l.*2 ->
        level_utility u al.1 al.2 = level_utility u0 al.1 al.2).
Proof.
  induction l as [|[i f] l IH]; intros u0 u H Hnd Hl; cbn [fold_each] in H.
  - injection H as <-. split; [|reflexivity].
    intros i al _ Hin. now apply elem_of_nil in Hin.
  - rewrite fmap_cons in Hnd. cbn [snd] in Hnd. apply NoDup_cons in Hnd as [Hf Hnd].
    apply Forall_cons in Hl as [(al0 & Hal0 & Hname) Hl]. cbn [snd] in Hname. subst f.
    unfold at_index in H.
    destruct (coefficients !! i) as [c|] eqn:Ec; cbn [lift mbind outcome_bind] in H;
      [|discriminate].
    rewrite (conjoint_assign_estimated _ _ _ Hal0) in H.
    destruct (set_level u0 al0.1 al0.2 (NpFloat c)) as [u1|] eqn:E1; [|discriminate].
    destruct (IH u1 u H Hnd Hl) as [IHa IHb].
    assert (Hhead : level_utility u al0.1 al0.2 = Some (NpFloat c)).
    { rewrite (IHb al0 Hf), (level_utility_set _ _ _ _ _ _ _ E1).
      now rewrite !String.eqb_refl. }
    split.
    + intros j al Hal Hin. apply elem_of_cons in Hin as [[= -> Heq] | Hin].
      * exists c. split; [exact Ec|].
        destruct (decide (al = al0)) as [->|Hne]; [exact Hhead|].
        exfalso. clear -Hal Hal0 Heq Hne. unfold estimated_levels in Hal, Hal0.
        split_members Hal; subst al; split_members Hal0; subst al0;
          first [ congruence | vm_compute in Heq; discriminate Heq ].
      * exact (IHa j al Hal Hin).
    + intros al Hout. rewrite fmap_cons in Hout. cbn [snd] in Hout.
      apply not_elem_of_cons in Hout as [Hne Hout].
      rewrite (IHb al Hout), (level_utility_set _ _ _ _ _ _ _ E1).
      destruct (String.eqb al0.1 al.1) eqn:Ea; [|reflexivity].
      destruct (String.eqb al0.2 al.2) eqn:El; [|reflexivity].
      apply String.eqb_eq in Ea, El. exfalso. apply Hne.
      destruct al, al0; cbn [fst snd] in *. now subst.
Qed.

(** X23. On distinct names of kept dummy columns, every level named by a
    feature gets the coefficient at the position of that feature, and every
    other level, the reference levels among them, keeps the int 0. *)
Theorem estimated_levels_get_their_coefficients (feature_names : list string)
    (coefficients : list Q) (u : utility_table) (imp : list (string * quotient)) :
  NoDup feature_names ->
  Forall (fun f => f ∈ map feature_name estimated_levels) feature_names ->
  ConjointUtilities._calculate_utilities feature_names coefficients = Done (u, imp) ->
  (forall i al, al ∈ estimated_levels -> feature_names !! i = Some (feature_name al) ->
     exists c, coefficients !! i = Some c
               /\ level_utility u al.1 al.2 = Some (NpFloat c))
  /\ (forall al, al ∈ (estimated_levels ++ reference_levels)%list ->
        feature_name al ∉ feature_names ->
        level_utility u al.1 al.2 = Some (PyInt 0)).
Proof.
  intros Hnd Hknown. unfold ConjointUtilities._calculate_utilities.
  destruct (fold_each _ _ initial_utilities) as [u1|] eqn:Hloop;
    cbn [mbind outcome_bind]; [|discriminate].
  destruct (_calculate_importance u1) as [imp1|]; cbn [mbind outcome_bind mret outcome_ret];
    [|discriminate].
  intros [= <- <-].
  apply conjoint_loop in Hloop as [Ha Hb].
  - split.
    + intros i al Hal Hi. apply (Ha i al Hal).
      apply list_elem_of_lookup. exists i. apply list_lookup_imap_Some. eauto.
    + intros al Hal Hout. rewrite Hb; [now apply level_utility_initial|].
      now rewrite (enumerated_snd id).
  - now rewrite (enumerated_snd id).
  - apply enumerated_forall. intros i f Hi. cbn [snd].
    rewrite Forall_forall in Hknown.
    assert (Hf : f ∈ feature_names) by (apply list_elem_of_lookup; eauto).
    specialize (Hknown f Hf). apply list_elem_of_fmap in Hknown as (al & -> & Hal). eauto.
Qed.

(** ** conditional_logit_analysis.py: the dummy columns *)

Lemma forall2_compose {A B C} (P : A -> B -> Prop) (Q : B -> C -> Prop)
    (l1 : list A) (l2 : list B) (l3 : list C) :
  Forall2 P l1 l2 -> Forall2 Q l2 l3 -> Forall2 (fun a c => exists b, P a b /\ Q b c) l1 l3.
Proof.
  intros H. revert l3. induction H as [|a b l1 l2 Hab _ IH]; intros l3 H23.
  - inversion H23. constructor.
  - inversion H23 as [|? c ? l3' Hbc H23']; subst. constructor; [eauto|]. now apply IH.
Qed.

Lemma cell_eq_str_true (v : cell) (s : string) : cell_eq_str v s = true -> v = CStr s.
Proof.
  destruct v as [s'| |]; cbn; try discriminate. intros H. apply String.eqb_eq in H. now subst.
Qed.

Lemma nodup_fmap_elem {A B} (f : A -> B) (l : list A) (x y : A) :
  NoDup (f <$> l) -> x ∈ l -> y ∈ l -> f x = f y -> x = y.
Proof.
  induction l as [|a l IH]; intros Hnd Hx Hy Hxy; [now apply elem_of_nil in Hx|].
  rewrite fmap_cons in Hnd. apply NoDup_cons in Hnd as [Ha Hnd].
  apply elem_of_cons in Hx as [-> | Hx]; apply elem_of_cons in Hy as [-> | Hy].
  - reflexivity.
  - exfalso. apply Ha. rewrite Hxy. apply list_elem_of_fmap. eauto.
  - exfalso. apply Ha. rewrite <- Hxy. apply list_elem_of_fmap. eauto.
  - now apply IH.
Qed.

Lemma shows_iff (r : ConditionalLogit.alt_record) (lv : ConditionalLogit.level_def) :
  ConditionalLogit.shows r lv = true
  <-> dict_get (ConditionalLogit.attrs r) (ConditionalLogit.lv_attribute lv)
      = Some (CStr (ConditionalLogit.lv_value lv)).
Proof.
  unfold ConditionalLogit.shows.
  destruct (dict_get (ConditionalLogit.attrs r) (ConditionalLogit.lv_attribute lv)) as [v|].
  - split.
    + intros H. now rewrite (cell_eq_str_true _ _ H).
    + intros [= ->]. cbn. apply String.eqb_refl.
  - split; discriminate.
Qed.

Lemma add_dummy_inv (cd : ConditionalLogit.long_frame) (lv : ConditionalLogit.level_def)
    (cd1 : ConditionalLogit.long_frame) :
  ConditionalLogit.add_dummy cd lv = Ok cd1 ->
  ConditionalLogit.lv_attribute lv ∈ ConditionalLogit.attr_columns cd
  /\ ConditionalLogit.attr_columns cd1 = ConditionalLogit.attr_columns cd
  /\ Forall2 (fun r r1 =>
                ConditionalLogit.attrs r1 = ConditionalLogit.attrs r
                /\ ConditionalLogit.chosen r1 = ConditionalLogit.chosen r
                /\ ConditionalLogit.alternative r1 = ConditionalLogit.alternative r
                /\ ConditionalLogit.choice_set_id r1 = ConditionalLogit.choice_set_id r
                /\ ConditionalLogit.dummies r1
                   = dict_set (ConditionalLogit.dummies r) (ConditionalLogit.lv_code lv)
                              (if ConditionalLogit.shows r lv then 1 else 0)%Z)
             (ConditionalLogit.rows cd) (ConditionalLogit.rows cd1).
Proof.
  unfold ConditionalLogit.add_dummy.
  destruct (bool_decide _) eqn:Hcol; [|discriminate].
  apply bool_decide_eq_true in Hcol. intros [= <-].
  split; [exact Hcol|]. split; [reflexivity|]. cbn [ConditionalLogit.rows].
  apply Forall2_fmap_r, Forall_Forall2_diag, Forall_forall. intros r _.
  cbn. repeat split; reflexivity.
Qed.

Lemma add_dummy_raise (cd : ConditionalLogit.long_frame) (lv : ConditionalLogit.level_def)
    (e : exn) :
  ConditionalLogit.add_dummy cd lv = Raise e ->
  (ConditionalLogit.lv_attribute lv ∉ ConditionalLogit.attr_columns cd)
  /\ e = KeyError (ConditionalLogit.lv_attribute lv).
Proof.
  unfold ConditionalLogit.add_dummy.
  destruct (bool_decide _) eqn:Hcol; [discriminate|].
  apply bool_decide_eq_false in Hcol. intros [= <-]. now split.
Qed.

Lemma fold_dummies (lvs : list ConditionalLogit.level_def) :
  forall cd cd',
    for_fold ConditionalLogit.add_dummy lvs cd = Ok cd' ->
    NoDup (ConditionalLogit.lv_code <$> lvs) ->
    ConditionalLogit.attr_columns cd' = ConditionalLogit.attr_columns cd
    /\ Forall2 (fun r r' =>
                  dummy_coded lvs r r'
                  /\ forall code, code ∉ ConditionalLogit.lv_code <$> lvs ->
                       dict_get (ConditionalLogit.dummies r') code
                       = dict_get (ConditionalLogit.dummies r) code)
               (ConditionalLogit.rows cd) (ConditionalLogit.rows cd').
Proof.
  induction lvs as [|lv lvs IH]; intros cd cd' H Hnd; cbn [for_fold] in H.
  - injection H as <-. split; [reflexivity|].
    apply Forall_Forall2_diag, Forall_forall. intros r _.
    split; [|reflexivity]. unfold dummy_coded. repeat split.
    intros lv Hin. now apply elem_of_nil in Hin.
  - destruct (ConditionalLogit.add_dummy cd lv) as [cd1|] eqn:E1;
      cbn [mbind result_bind] in H; [|discriminate].
    rewrite fmap_cons in Hnd. apply NoDup_cons in Hnd as [Hfresh Hnd].
    apply add_dummy_inv in E1 as (_ & Hcols & E1).
    destruct (IH _ _ H Hnd) as [Hcols' Hrows].
    split; [congruence|].
    pose proof (forall2_compose _ _ _ _ _ E1 Hrows) as Hc.
    eapply Forall2_impl; [exact Hc|]. cbn beta.
    intros r r' (r1 & (Ha & Hch & Hal & Hid & Hd)
                 & [(Ha' & Hch' & Hal' & Hid' & Hlv) Hkeep]).
    split.
    + unfold dummy_coded. repeat split; try congruence.
      intros lv0 Hin. apply elem_of_cons in Hin as [-> | Hin].
      * exists (if ConditionalLogit.shows r lv then 1 else 0)%Z. split.
        { rewrite (Hkeep _ Hfresh), Hd, dict_get_set, String.eqb_refl. reflexivity. }
        rewrite <- shows_iff. destruct (ConditionalLogit.shows r lv).
        -- split; [now right|]. split; reflexivity.
        -- split; [now left|]. split; discriminate.
      * destruct (Hlv lv0 Hin) as (z & Hz & Hrange & Hiff). exists z.
        rewrite Ha in Hiff. repeat split; try assumption; apply Hiff.
    + intros code Hcode. rewrite fmap_cons in Hcode.
      apply not_elem_of_cons in Hcode as [Hne Hcode].
      rewrite (Hkeep _ Hcode), Hd, dict_get_set.
      destruct (String.eqb (ConditionalLogit.lv_code lv) code) eqn:E; [|reflexivity].
      apply String.eqb_eq in E. congruence.
Qed.

Lemma fold_dummies_returns (lvs : list ConditionalLogit.level_def) :
  forall cd,
    Forall (fun lv => ConditionalLogit.lv_attribute lv ∈ ConditionalLogit.attr_columns cd) lvs ->
    returns (for_fold ConditionalLogit.add_dummy lvs cd).
Proof.
  induction lvs as [|lv lvs IH]; intros cd Hcols; cbn [for_fold]; [now exists cd|].
  apply Forall_cons in Hcols as [Hlv Hcols].
  destruct (ConditionalLogit.add_dummy cd lv) as [cd1|e] eqn:E1.
  - cbn [mbind result_bind]. apply IH.
    apply add_dummy_inv in E1 as (_ & -> & _). exact Hcols.
  - apply add_dummy_raise in E1 as [Hout _]. contradiction.
Qed.

Lemma fold_dummies_raise (lvs : list ConditionalLogit.level_def) :
  forall cd e,
    for_fold ConditionalLogit.add_dummy lvs cd = Raise e ->
    exists lv, lv ∈ lvs
               /\ (ConditionalLogit.lv_attribute lv ∉ ConditionalLogit.attr_columns cd)
               /\ e = KeyError (ConditionalLogit.lv_attribute lv).
Proof.
  induction lvs as [|lv lvs IH]; intros cd e; cbn [for_fold]; [discriminate|].
  destruct (ConditionalLogit.add_dummy cd lv) as [cd1|e1] eqn:E1; cbn [mbind result_bind].
  - intros H. destruct (IH _ _ H) as (lv' & Hin & Hout & He).
    apply add_dummy_inv in E1 as (_ & Hcols & _). rewrite Hcols in Hout.
    exists lv'. split; [now right|]. now split.
  - intros [= <-]. apply add_dummy_raise in E1 as [Hout He].
    exists lv. split; [left|]. now split.
Qed.

(** X24. The dummy columns are one-hot.  [create_dummy_variables] returns when
    the frame has the seven attribute columns, with or without rows, and
    otherwise raises the KeyError of an attribute column the frame lacks.
    When it returns, every record keeps its columns, the column of each of
    the 17 levels is 1 when the record shows exactly the text of the level
    and 0 otherwise, and no record has 1 in the columns of two levels of
    the same attribute. *)
Theorem dummies_are_one_hot (cd : ConditionalLogit.long_frame) :
  (Forall (fun attr => attr ∈ ConditionalLogit.attr_columns cd) attributes ->
   returns (ConditionalLogit.create_dummy_variables cd))
  /\ (forall e, ConditionalLogit.create_dummy_variables cd = Raise e ->
        exists attr, attr ∈ attributes /\ (attr ∉ ConditionalLogit.attr_columns cd)
                     /\ e = KeyError attr)
  /\ (forall cd', ConditionalLogit.create_dummy_variables cd = Ok cd' ->
        ConditionalLogit.attr_columns cd' = ConditionalLogit.attr_columns cd
        /\ Forall2 (fun r r' =>
                      dummy_coded ConditionalLogit.get_all_attribute_levels r r'
                      /\ forall lv1 lv2,
                           lv1 ∈ ConditionalLogit.get_all_attribute_levels ->
                           lv2 ∈ ConditionalLogit.get_all_attribute_levels ->
                           ConditionalLogit.lv_attribute lv1 = ConditionalLogit.lv_attribute lv2 ->
                           dict_get (ConditionalLogit.dummies r') (ConditionalLogit.lv_code lv1)
                             = Some 1%Z ->
                           dict_get (ConditionalLogit.dummies r') (ConditionalLogit.lv_code lv2)
                             = Some 1%Z ->
                           lv1 = lv2)
                   (ConditionalLogit.rows cd) (ConditionalLogit.rows cd')).
Proof.
  assert (Hattrs : Forall (fun lv => ConditionalLogit.lv_attribute lv ∈ attributes)
                          ConditionalLogit.get_all_attribute_levels).
  { apply (bool_decide_unpack _). vm_compute. exact I. }
  unfold ConditionalLogit.create_dummy_variables. split; [|split].
  - intros Hcols. apply fold_dummies_returns.
    rewrite Forall_forall in Hcols. eapply Forall_impl; [exact Hattrs|].
    intros lv Hlv. now apply Hcols.
  - intros e H. apply fold_dummies_raise in H as (lv & Hin & Hout & He).
    exists (ConditionalLogit.lv_attribute lv). split; [|now split].
    rewrite Forall_forall in Hattrs. now apply Hattrs.
  - intros cd' H.
    apply fold_dummies in H as [Hcols H]; [|apply (bool_decide_unpack _); vm_compute; exact I].
    split; [exact Hcols|].
    eapply Forall2_impl; [exact H|]. cbn beta. intros r r' [Hcoded _].
    split; [exact Hcoded|].
    intros lv1 lv2 H1 H2 Hattr Hd1 Hd2.
    destruct Hcoded as (_ & _ & _ & _ & Hlv).
    destruct (Hlv lv1 H1) as (z1 & Hz1 & _ & Hx1). destruct (Hlv lv2 H2) as (z2 & Hz2 & _ & Hx2).
    rewrite Hd1 in Hz1. injection Hz1 as <-. rewrite Hd2 in Hz2. injection Hz2 as <-.
    pose proof (proj1 Hx1 eq_refl) as Hv1. pose proof (proj1 Hx2 eq_refl) as Hv2.
    rewrite Hattr, Hv2 in Hv1. injection Hv1 as Hval.
    apply (nodup_fmap_elem
             (fun lv => (ConditionalLogit.lv_attribute lv, ConditionalLogit.lv_value lv))
             ConditionalLogit.get_all_attribute_levels); [|assumption|assumption|congruence].
    apply (bool_decide_unpack _). vm_compute. exact I.
Qed.

(** ** simple_conjoint_results.py: the frame of coded differences *)

Lemma each_done_elem {A B} (f : A -> outcome B) (xs : list A) (ys : list B) (y : B) :
  each f xs = Done ys -> y ∈ ys -> exists x, x ∈ xs /\ f x = Done y.
Proof.
  revert ys. induction xs as [|x xs IH]; intros ys; cbn [each].
  - intros [= <-] Hy. now apply elem_of_nil in Hy.
  - destruct (f x) as [y0|] eqn:E0; cbn [mbind outcome_bind]; [|discriminate].
    destruct (each f xs) as [ys'|]; cbn [mbind outcome_bind mret outcome_ret]; [|discriminate].
    intros [= <-] Hy. apply elem_of_cons in Hy as [-> | Hy].
    + exists x. split; [left|exact E0].
    + destruct (IH ys' eq_refl Hy) as (x' & Hx' & Hfx'). exists x'. split; [now right|exact Hfx'].
Qed.

Lemma each_done_length {A B} (f : A -> outcome B) (xs : list A) (ys : list B) :
  each f xs = Done ys -> length ys = length xs.
Proof.
  revert ys. induction xs as [|x xs IH]; intros ys; cbn [each].
  - now intros [= <-].
  - destruct (f x) as [y0|]; cbn [mbind outcome_bind]; [|discriminate].
    destruct (each f xs) as [ys'|]; cbn [mbind outcome_bind mret outcome_ret]; [|discriminate].
    intros [= <-]. cbn [length]. now rewrite (IH ys' eq_refl).
Qed.

Lemma each_failed_inv {A B} (f : A -> outcome B) (xs : list A) (e : failure) :
  each f xs = Failed e -> exists x, x ∈ xs /\ f x = Failed e.
Proof.
  induction xs as [|x xs IH]; cbn [each]; [discriminate|].
  destruct (f x) as [y0|e0] eqn:E0; cbn [mbind outcome_bind].
  - destruct (each f xs) as [ys'|e1]; cbn [mbind outcome_bind mret outcome_ret]; [discriminate|].
    intros [= ->]. destruct (IH eq_refl) as (x' & Hx' & Hfx').
    exists x'. split; [now right|exact Hfx'].
  - intros [= ->]. exists x. split; [left|exact E0].
Qed.

Lemma fold_each_failed_inv {A S} (f : S -> A -> outcome S) (xs : list A) (s : S) (e : failure) :
  fold_each f xs s = Failed e -> exists s' x, x ∈ xs /\ f s' x = Failed e.
Proof.
  revert s. induction xs as [|x xs IH]; intros s; cbn [fold_each]; [discriminate|].
  destruct (f s x) as [s1|e1] eqn:E1; cbn [mbind outcome_bind].
  - intros H. destruct (IH _ H) as (s' & x' & Hx' & Hf). exists s', x'. split; [now right|exact Hf].
  - intros [= ->]. exists s, x. split; [left|exact E1].
Qed.

Lemma fold_each_keeps {A S} (f : S -> A -> outcome S) (P : S -> Prop) (xs : list A) :
  (forall s x s', f s x = Done s' -> P s -> P s') ->
  forall s s', fold_each f xs s = Done s' -> P s -> P s'.
Proof.
  intros Hstep. induction xs as [|x xs IH]; intros s s'; cbn [fold_each].
  - now intros [= <-].
  - destruct (f s x) as [s1|] eqn:E1; cbn [mbind outcome_bind]; [|discriminate].
    intros H HP. apply (IH _ _ H). exact (Hstep _ _ _ E1 HP).
Qed.

Lemma lifted_getitem_failed (r : row) (c : string) (e : failure) :
  lift (getitem r c) = Failed e -> e = Builtin (KeyError c).
Proof.
  unfold getitem. destruct (r !! c); cbn [lift]; [discriminate|]. now intros [= <-].
Qed.

Section SimpleFrame.
Context {py : PyRuntime}.

Lemma simple_difference_bounded (a b : cell) (attr : string) :
  exists d, SimpleChoice.get_effects_difference a b attr = Done d /\ (-2 <= d)%Q /\ (d <= 2)%Q.
Proof.
  unfold SimpleChoice.get_effects_difference, SimpleChoice.effects_code, SimpleChoice.pm.
  repeat match goal with |- context [if String.eqb attr ?s then _ else _] =>
           destruct (String.eqb attr s) end;
    repeat match goal with |- context [contains ?k ?s] => destruct (contains k s) end;
    cbn [SimpleChoice.pricing_levels dict_get String.eqb Ascii.eqb Bool.eqb default];
    (eexists; split; [reflexivity|]; split; discriminate).
Qed.

Lemma simple_add_attribute_failed (r : row) (t : nat) (d : list (string * Q)) (attr : string)
    (e : failure) :
  SimpleChoice.add_attribute r t d attr = Failed e -> exists c, e = Builtin (KeyError c).
Proof.
  unfold SimpleChoice.add_attribute.
  destruct (lift (getitem r (attr_col "A" attr t))) as [a|ea] eqn:Ea; cbn [mbind outcome_bind].
  2:{ intros [= <-]. eauto using lifted_getitem_failed. }
  destruct (lift (getitem r (attr_col "B" attr t))) as [b|eb] eqn:Eb; cbn [mbind outcome_bind].
  2:{ intros [= <-]. eauto using lifted_getitem_failed. }
  destruct (simple_difference_bounded a b attr) as (v & -> & _). discriminate.
Qed.

Lemma simple_add_attribute_done (r : row) (t : nat) (d d' : list (string * Q)) (attr : string) :
  SimpleChoice.add_attribute r t d attr = Done d' ->
  exists v, d' = dict_set d (attr +:+ "_diff") v /\ (-2 <= v)%Q /\ (v <= 2)%Q.
Proof.
  unfold SimpleChoice.add_attribute.
  destruct (lift (getitem r (attr_col "A" attr t))) as [a|]; cbn [mbind outcome_bind];
    [|discriminate].
  destruct (lift (getitem r (attr_col "B" attr t))) as [b|]; cbn [mbind outcome_bind];
    [|discriminate].
  destruct (simple_difference_bounded a b attr) as (v & -> & Hv).
  cbn [mbind outcome_bind mret outcome_ret]. intros [= <-]. eauto.
Qed.

Lemma simple_diffs_keys (r : row) (t : nat) (attrs : list string) :
  forall d d',
    fold_each (SimpleChoice.add_attribute r t) attrs d = Done d' ->
    d'.*1 = foldl set_key d.*1 (map (fun attr => attr +:+ "_diff") attrs).
Proof.
  induction attrs as [|attr attrs IH]; intros d d'; cbn [fold_each map foldl].
  - now intros [= <-].
  - destruct (SimpleChoice.add_attribute r t d attr) as [d1|] eqn:E1; cbn [mbind outcome_bind];
      [|discriminate].
    intros H. rewrite (IH _ _ H).
    apply simple_add_attribute_done in E1 as (v & -> & _). now rewrite dict_set_keys.
Qed.

Lemma simple_build_record_failed (idx : nat) (r : row) (t : nat) (e : failure) :
  SimpleChoice.build_record idx r t = Failed e -> exists c, e = Builtin (KeyError c).
Proof.
  unfold SimpleChoice.build_record.
  destruct (lift (getitem r (choice_col t))) as [ch|e1] eqn:E1; cbn [mbind outcome_bind].
  2:{ intros [= <-]. eauto using lifted_getitem_failed. }
  destruct (lift (getitem r "Grade")) as [g|e2] eqn:E2; cbn [mbind outcome_bind].
  2:{ intros [= <-]. eauto using lifted_getitem_failed. }
  destruct (fold_each (SimpleChoice.add_attribute r t) attributes []) as [d|e3] eqn:E3;
    cbn [mbind outcome_bind mret outcome_ret]; [discriminate|].
  intros [= <-]. apply fold_each_failed_inv in E3 as (d & attr & _ & Hf).
  exact (simple_add_attribute_failed _ _ _ _ _ Hf).
Qed.

Lemma simple_build_record_done (idx : nat) (r : row) (t : nat)
    (rec : SimpleChoice.choice_record) :
  SimpleChoice.build_record idx r t = Done rec ->
  SimpleChoice.respondent_id rec = idx /\ SimpleChoice.task rec = t
  /\ (SimpleChoice.diffs rec).*1 = map (fun attr => attr +:+ "_diff") attributes
  /\ Forall (fun kv => -2 <= kv.2 /\ kv.2 <= 2)%Q (SimpleChoice.diffs rec).
Proof.
  unfold SimpleChoice.build_record.
  destruct (lift (getitem r (choice_col t))) as [ch|]; cbn [mbind outcome_bind]; [|discriminate].
  destruct (lift (getitem r "Grade")) as [g|]; cbn [mbind outcome_bind]; [|discriminate].
  destruct (fold_each (SimpleChoice.add_attribute r t) attributes []) as [d|] eqn:E3;
    cbn [mbind outcome_bind mret outcome_ret]; [|discriminate].
  intros [= <-]. cbn [SimpleChoice.respondent_id SimpleChoice.task SimpleChoice.diffs].
  split; [reflexivity|]. split; [reflexivity|]. split.
  - rewrite (simple_diffs_keys _ _ _ _ _ E3). vm_compute. reflexivity.
  - refine (fold_each_keeps (SimpleChoice.add_attribute r t)
              (fun d => Forall (fun kv : string * Q => -2 <= kv.2 /\ kv.2 <= 2)%Q d)
              attributes _ [] d E3 _); [|constructor].
    intros d0 attr d1 Hstep Hd0. apply simple_add_attribute_done in Hstep as (v & -> & Hv).
    apply (dict_set_forall (fun v => -2 <= v /\ v <= 2)%Q); assumption.
Qed.

(** X25. The frame of coded differences can only fail on a missing column: the
    mixed difference of an int and a dict that [get_effects_difference]
    could raise on never occurs, since both alternatives are coded under
    the same attribute.  A frame that is returned has eight records per
    respondent, each with the seven difference columns in the order of the
    attributes and every difference between -2 and 2. *)
Theorem simple_frame_fails_only_on_a_missing_column (df : list row) :
  (forall e, SimpleChoice.convert_to_choice_format df = Failed e ->
             exists c, e = Builtin (KeyError c))
  /\ (forall cd, SimpleChoice.convert_to_choice_format df = Done cd ->
        length cd = (8 * length df)%nat
        /\ Forall (fun rec =>
                     (SimpleChoice.diffs rec).*1 = map (fun attr => attr +:+ "_diff") attributes
                     /\ Forall (fun kv => -2 <= kv.2 /\ kv.2 <= 2)%Q (SimpleChoice.diffs rec))
                  cd).
Proof.
  unfold SimpleChoice.convert_to_choice_format. split.
  - intros e.
    destruct (each _ (iterrows df)) as [per_row|e1] eqn:E1;
      cbn [mbind outcome_bind mret outcome_ret]; [discriminate|].
    intros [= <-]. apply each_failed_inv in E1 as ([idx r] & _ & Hrow).
    apply each_failed_inv in Hrow as (t & _ & Hrec).
    exact (simple_build_record_failed _ _ _ _ Hrec).
  - intros cd.
    destruct (each _ (iterrows df)) as [per_row|e1] eqn:E1;
      cbn [mbind outcome_bind mret outcome_ret]; [|discriminate].
    intros [= <-]. split.
    + assert (Hrows : Forall (fun l => length l = 8%nat) per_row).
      { apply Forall_forall. intros l Hl.
        destruct (each_done_elem _ _ _ _ E1 Hl) as ([idx r] & _ & Hrow).
        now rewrite (each_done_length _ _ _ Hrow). }
      apply each_done_length in E1. unfold iterrows in E1. rewrite length_imap in E1.
      rewrite <- E1. clear E1. induction Hrows as [|l per_row Hl _ IH]; [reflexivity|].
      cbn [concat length]. rewrite length_app, Hl, IH. lia.
    + apply Forall_forall. intros rec Hrec.
      apply elem_of_concat in Hrec as (l & Hrec & Hl).
      destruct (each_done_elem _ _ _ _ E1 Hl) as ([idx r] & _ & Hrow).
      destruct (each_done_elem _ _ _ _ Hrow Hrec) as (t & _ & Hbuild).
      apply simple_build_record_done in Hbuild as (_ & _ & Hkeys & Hvals). now split.
Qed.

End SimpleFrame.
(** ** The properties on the sample tables *)

Lemma final_frame_has_eight_records_per_respondent_witness :
  map (fun rec => (FinalRobust.respondent_id rec, FinalRobust.task rec)) regular_coded_frame
  = flat_map (fun i => map (pair i) tasks) (seq 0 1)
  /\ length regular_coded_frame = 8%nat.
Proof.
  apply (final_frame_has_eight_records_per_respondent (py := Reference.repr_integral)
           [row_regular] regular_coded_frame).
  vm_compute. reflexivity.
Defined.

Lemma exchanged_alternatives_negate_the_record_witness :
  exists rec rec',
    FinalRobust.build_record (py := Reference.repr_integral) 0 row_regular 1 = Ok rec
    /\ FinalRobust.build_record (py := Reference.repr_integral) 0 row_mirror 1 = Ok rec'
    /\ FinalRobust.features rec' = negate (FinalRobust.features rec)
    /\ FinalRobust.choice rec' = (1 - FinalRobust.choice rec)%Z.
Proof.
  destruct (FinalRobust.build_record (py := Reference.repr_integral) 0 row_regular 1)
    as [rec|e] eqn:Hrec; [|vm_compute in Hrec; discriminate].
  destruct (exchanged_alternatives_negate_the_record (py := Reference.repr_integral)
              0 row_regular row_mirror 1 rec "B" "A") as (rec' & Hrec' & Hfeat & Hchoice).
  - unfold mirrored, attributes.
    repeat (apply Forall_cons_2; [split; vm_compute; reflexivity|]). apply Forall_nil_2.
  - vm_compute. reflexivity.
  - vm_compute. reflexivity.
  - right. split; reflexivity.
  - vm_compute. eauto.
  - exact Hrec.
  - exists rec, rec'. auto.
Defined.

Lemma pricing_columns_are_linearly_dependent_witness :
  let feature_cols :=
    filter (fun c => FinalRobust.is_feature c = true) (FinalRobust.columns regular_coded_frame) in
  (regular_coded_frame <> [] -> length feature_cols = length pricing_weights)
  /\ Forall (fun x => dot x pricing_weights == 0)%Q
            (map (FinalRobust.design_row feature_cols) regular_coded_frame).
Proof.
  apply (pricing_columns_are_linearly_dependent (py := Reference.repr_integral) [row_regular]).
  vm_compute. reflexivity.
Defined.

Lemma bootstrap_p_values_are_bounded_witness :
  exists ps g',
    FinalRobust.calculate_bootstrap_p_values (sk := Reference.one_step) (rnd := Reference.lcg)
      singular_model singular_design singular_labels 10 7%N = Ok (ps, g')
    /\ Forall2 (fun c p => exists q, p = Fin q /\ (1e-6 <= q)%Q /\ (q <= 2)%Q
                                     /\ (~ (c == 0)%Q -> (q <= 1)%Q))
               (coef_ (Sklearn := Reference.one_step) singular_model) ps.
Proof.
  destruct (FinalRobust.calculate_bootstrap_p_values (sk := Reference.one_step)
              (rnd := Reference.lcg) singular_model singular_design singular_labels 10 7%N)
    as [[ps g']|e] eqn:Hps; [|vm_compute in Hps; discriminate].
  exists ps, g'. split; [reflexivity|].
  exact (bootstrap_p_values_are_bounded (sk := Reference.one_step) (rnd := Reference.lcg)
           singular_model singular_design singular_labels 10 7%N g' ps Hps).
Defined.

Lemma bootstrap_without_iterations_raises_witness :
  FinalRobust.calculate_bootstrap_p_values (sk := Reference.one_step) (rnd := Reference.lcg)
    singular_model singular_design singular_labels 0 7%N = Raise IndexError.
Proof.
  apply (bootstrap_without_iterations_raises (sk := Reference.one_step) (rnd := Reference.lcg)).
  vm_compute. discriminate.
Defined.

Lemma one_class_resamples_fail (i : nat) (indices : list nat) (X' : matrix) (y' : list Z) :
  iloc one_class_design indices = Ok X' -> iloc one_class_labels indices = Ok y' ->
  raises (lr_fit (Sklearn := Reference.one_step) i X' y').
Proof.
  intros _ Hy. cbn [lr_fit Reference.one_step]. unfold Reference.one_step_fit.
  assert (Hones : existsb (Z.eqb 0) y' = false).
  { apply not_true_is_false. intros Hex. apply existsb_exists in Hex as (z & Hz & Hzero).
    apply Z.eqb_eq in Hzero. subst z. apply list_elem_of_In in Hz.
    destruct (for_each_elem _ _ _ _ Hy Hz) as (j & _ & Hj).
    unfold at_index, one_class_labels in Hj.
    destruct j as [|[|j]]; cbn in Hj; discriminate. }
  unfold Reference.both_classes. rewrite Hones, andb_false_r.
  destruct X'; red; eauto.
Qed.

Lemma failed_refits_give_the_smallest_p_value_witness :
  exists ps g',
    FinalRobust.calculate_bootstrap_p_values (sk := Reference.one_step) (rnd := Reference.lcg)
      [1 # 2]%Q one_class_design one_class_labels 3 7%N = Ok (ps, g')
    /\ Forall2 (fun c p => ~ (c == 0)%Q -> p = Fin 1e-6) [1 # 2]%Q ps.
Proof.
  apply (failed_refits_give_the_smallest_p_value (sk := Reference.one_step)
           (rnd := Reference.lcg) [1 # 2]%Q one_class_design one_class_labels 3 7%N).
  - lia.
  - reflexivity.
  - exact one_class_resamples_fail.
Defined.

Lemma level_presence_partitions_the_frame_witness :
  exists res,
    CorrectedAttribute.analyze_level (sp := Reference.approx_scipy)
      tutor_frame "Tutor" "Female AI tutor" = Ok res
    /\ (CorrectedAttribute.present_n res + CorrectedAttribute.absent_n res = length tutor_frame
        /\ CorrectedAttribute.present_n res <= CorrectedAttribute.n_observations res
        /\ CorrectedAttribute.n_observations res <= 2 * CorrectedAttribute.present_n res)%nat.
Proof.
  destruct (CorrectedAttribute.analyze_level (sp := Reference.approx_scipy)
              tutor_frame "Tutor" "Female AI tutor") as [res|e] eqn:Hres;
    [|vm_compute in Hres; discriminate].
  exists res. split; [reflexivity|].
  exact (level_presence_partitions_the_frame (sp := Reference.approx_scipy)
           tutor_frame "Tutor" "Female AI tutor" res Hres).
Defined.

Lemma choice_share_is_a_proportion_witness :
  exists res,
    CorrectedAttribute.analyze_level (sp := Reference.approx_scipy)
      regular_level_frame "Tutor" "Female AI tutor" = Ok res
    /\ (0 <= CorrectedAttribute.a_choice_share res <= 1
        /\ 0 <= CorrectedAttribute.b_choice_share res <= 1
        /\ 0 <= CorrectedAttribute.choice_share res <= 1
        /\ -50 <= CorrectedAttribute.effect_pp res <= 50)%Q.
Proof.
  destruct (CorrectedAttribute.analyze_level (sp := Reference.approx_scipy)
              regular_level_frame "Tutor" "Female AI tutor") as [res|e] eqn:Hres;
    [|vm_compute in Hres; discriminate].
  exists res. split; [reflexivity|].
  apply (choice_share_is_a_proportion (sp := Reference.approx_scipy)
           [row_regular] regular_level_frame "Tutor" "Female AI tutor" res); [|exact Hres].
  vm_compute. reflexivity.
Defined.

Lemma unseen_level_is_reported_as_neutral_witness :
  exists res,
    CorrectedAttribute.analyze_level (sp := Reference.approx_scipy)
      tutor_frame "Tutor" "Robot tutor" = Ok res
    /\ CorrectedAttribute.choice_share res = 0.5%Q
    /\ (CorrectedAttribute.effect_pp res == 0)%Q
    /\ CorrectedAttribute.p_value res = Fin 1.0
    /\ CorrectedAttribute.present_n res = 0%nat.
Proof.
  destruct (CorrectedAttribute.analyze_level (sp := Reference.approx_scipy)
              tutor_frame "Tutor" "Robot tutor") as [res|e] eqn:Hres;
    [|vm_compute in Hres; discriminate].
  exists res. split; [reflexivity|].
  apply (unseen_level_is_reported_as_neutral (sp := Reference.approx_scipy)
           tutor_frame "Tutor" "Robot tutor" res Hres).
  vm_compute in Hres. injection Hres as <-. reflexivity.
Defined.

Lemma every_difference_column_is_reported_witness :
  exists out,
    ImprovedLogit.run_conditional_logit_model (sm := Reference.quick_statsmodels) regular_frame
    = Ok out
    /\ map level_code (ImprovedLogit.results out)
         ≡ₚ map (fun f => replace f "_diff" "") (ImprovedLogit.diff_features regular_frame)
    /\ length (ImprovedLogit.results out) = 17%nat.
Proof.
  destruct (succeeded_returns
              (ImprovedLogit.run_conditional_logit_model (sm := Reference.quick_statsmodels)
                 regular_frame)) as [out Hout]; [vm_compute; reflexivity|].
  exists out. split; [exact Hout|].
  apply (every_difference_column_is_reported (sm := Reference.quick_statsmodels)
           [row_regular] regular_frame out); [|exact Hout].
  vm_compute. reflexivity.
Defined.

Lemma every_level_code_is_reported_once_witness :
  exists out,
    ConditionalLogit.run_conditional_logit_model (sm := Reference.quick_statsmodels)
      (ConditionalLogit.data_frame regular_long_frame) = Ok out
    /\ map level_code (ConditionalLogit.results out) ≡ₚ ConditionalLogit.level_codes
    /\ length (ConditionalLogit.results out) = 17%nat.
Proof.
  destruct (succeeded_returns
              (ConditionalLogit.run_conditional_logit_model (sm := Reference.quick_statsmodels)
                 (ConditionalLogit.data_frame regular_long_frame)))
    as [out Hout]; [vm_compute; reflexivity|].
  exists out. split; [exact Hout|].
  exact (every_level_code_is_reported_once (sm := Reference.quick_statsmodels)
           (ConditionalLogit.data_frame regular_long_frame) out Hout).
Defined.

Lemma ratings_are_kept_on_the_chosen_record_witness :
  exists recs ra rb ch,
    ConjointAnalysis.build_task 0 row_regular 1 = Ok recs
    /\ recs = [ra; rb] /\ row_regular !! choice_col 1 = Some ch
    /\ (ConjointAnalysis.chosen ra + ConjointAnalysis.chosen rb <= 1)%Z.
Proof.
  destruct (ConjointAnalysis.build_task 0 row_regular 1) as [recs|e] eqn:Hrecs;
    [|vm_compute in Hrecs; discriminate].
  destruct (ratings_are_kept_on_the_chosen_record 0 row_regular 1 recs Hrecs)
    as (ra & rb & ch & Hshape & Hch & _ & _ & Hsum & _).
  exists recs, ra, rb, ch. auto.
Defined.

Lemma rating_record_needs_choice_and_rating_witness :
  exists cr rs ch,
    EnhancedConjoint.build_task 0 row_regular 1 = Ok (cr, rs)
    /\ row_regular !! choice_col 1 = Some ch
    /\ EnhancedConjoint.chosen_option cr = ch.
Proof.
  destruct (EnhancedConjoint.build_task 0 row_regular 1) as [[cr rs]|e] eqn:Htask;
    [|vm_compute in Htask; discriminate].
  destruct (rating_record_needs_choice_and_rating 0 row_regular 1 cr rs Htask)
    as (ch & Hch & Hcr & _).
  exists cr, rs, ch. auto.
Defined.

Lemma simulated_probabilities_form_a_distribution_witness :
  let rows := simulation_rows (ex := rational_numpy) sample_utilities default_scenarios in
  rows <> [] /\ (Qsum (map choice_probability rows) == 1)%Q.
Proof.
  pose proof (simulated_probabilities_form_a_distribution (ex := rational_numpy)
                sample_utilities default_scenarios) as H.
  cbv zeta in *. destruct H as (Hrows & Hsum & _); [discriminate|].
  split; assumption.
Defined.

Lemma importance_scores_are_percentages_witness :
  exists imp,
    _calculate_importance sample_utilities = Done imp
    /\ ((exists qs, imp.*2 = map Finite qs
                    /\ Forall (fun q => 0 <= q /\ q <= 100)%Q qs
                    /\ (Qsum qs == 100)%Q)
        \/ Forall (fun kv => kv.2 = NotANumber) imp).
Proof.
  destruct (_calculate_importance sample_utilities) as [imp|e] eqn:Himp;
    [|vm_compute in Himp; discriminate].
  exists imp. split; [reflexivity|].
  exact (importance_scores_are_percentages sample_utilities imp Himp).
Defined.

Lemma difference_utilities_mirror_each_other_witness :
  exists u imp,
    EnhancedUtilities._calculate_utilities_from_coefficients
      EnhancedUtilities.model_columns sample_difference_coefficients = Done (u, imp)
    /\ Forall (fun '(attr, up, down) =>
                 exists x y, level_utility u attr up = Some x
                             /\ level_utility u attr down = Some y
                             /\ (value x + value y == 0)%Q) binary_levels.
Proof.
  destruct (EnhancedUtilities._calculate_utilities_from_coefficients
              EnhancedUtilities.model_columns sample_difference_coefficients)
    as [[u imp]|e] eqn:Hrun; [|vm_compute in Hrun; discriminate].
  exists u, imp. split; [reflexivity|].
  exact (proj1 (difference_utilities_mirror_each_other _ _ u imp Hrun)).
Defined.

Lemma palette_and_messages_are_never_estimated_witness :
  (exists u imp,
      EnhancedUtilities._calculate_utilities_from_coefficients
        EnhancedUtilities.model_columns sample_difference_coefficients = Done (u, imp)
      /\ Forall (fun '(attr, level) => level_utility u attr level = Some (PyInt 0))
                palette_and_messages)
  /\ EnhancedUtilities._calculate_utilities_from_coefficients
       ["A_color_palette"; "color_palette_diff"] [0.5; 0.25]%Q = Failed ZeroDivisionError.
Proof.
  split.
  - destruct (EnhancedUtilities._calculate_utilities_from_coefficients
                EnhancedUtilities.model_columns sample_difference_coefficients)
      as [[u imp]|e] eqn:Hrun; [|vm_compute in Hrun; discriminate].
    exists u, imp. split; [reflexivity|].
    refine (proj1 (palette_and_messages_are_never_estimated
                     EnhancedUtilities.model_columns sample_difference_coefficients _)
                  u imp Hrun).
    apply Forall_forall. auto.
  - refine (proj2 (palette_and_messages_are_never_estimated
                     ["A_color_palette"; "color_palette_diff"] [0.5; 0.25]%Q _) _ _).
    + apply Forall_forall. intros f Hf.
      repeat (apply elem_of_cons in Hf as [-> | Hf]); [..|now apply elem_of_nil in Hf];
        vm_compute; repeat first [apply list_elem_of_here | apply list_elem_of_further].
    + cbn. lia.
    + apply Forall_forall. intros f Hf.
      repeat (apply elem_of_cons in Hf as [-> | Hf]); [..|now apply elem_of_nil in Hf];
        unfold mapped_differences; intros Hin;
        repeat (apply elem_of_cons in Hin as [Hin | Hin]; [discriminate Hin|]);
        now apply elem_of_nil in Hin.
Defined.

Lemma estimated_levels_get_their_coefficients_witness :
  exists u imp,
    ConjointUtilities._calculate_utilities (map feature_name estimated_levels)
      sample_coefficients = Done (u, imp)
    /\ level_utility u "pricing" "$4.99" = Some (NpFloat (-0.4))
    /\ level_utility u "pricing" "Free" = Some (PyInt 0).
Proof.
  destruct (ConjointUtilities._calculate_utilities (map feature_name estimated_levels)
              sample_coefficients) as [[u imp]|e] eqn:Hrun;
    [|vm_compute in Hrun; discriminate].
  exists u, imp. split; [reflexivity|].
  destruct (estimated_levels_get_their_coefficients
              (map feature_name estimated_levels) sample_coefficients u imp) as [Hset Hkept].
  - apply (bool_decide_unpack _). vm_compute. exact I.
  - apply Forall_forall. auto.
  - exact Hrun.
  - split.
    + destruct (Hset 3%nat ("pricing", "$4.99")) as (c & Hc & Hu).
      * unfold estimated_levels.
        repeat first [apply list_elem_of_here | apply list_elem_of_further].
      * reflexivity.
      * injection Hc as <-. exact Hu.
    + apply (Hkept ("pricing", "Free")).
      * unfold estimated_levels, reference_levels. cbn [app].
        repeat first [apply list_elem_of_here | apply list_elem_of_further].
      * intros Hin. apply list_elem_of_fmap in Hin as (al & Hname & Hal).
        unfold estimated_levels in Hal.
        repeat (apply elem_of_cons in Hal as [-> | Hal]); [..|now apply elem_of_nil in Hal];
          vm_compute in Hname; discriminate Hname.
Defined.

Lemma dummies_are_one_hot_witness :
  (exists cd',
      ConditionalLogit.create_dummy_variables (ConditionalLogit.data_frame regular_long_frame)
        = Ok cd'
      /\ Forall2 (dummy_coded ConditionalLogit.get_all_attribute_levels)
                 regular_long_frame (ConditionalLogit.rows cd'))
  /\ returns (ConditionalLogit.create_dummy_variables emptied_long_frame).
Proof.
  split.
  - destruct (ConditionalLogit.create_dummy_variables
                (ConditionalLogit.data_frame regular_long_frame)) as [cd'|e] eqn:Hcd;
      [|vm_compute in Hcd; discriminate].
    exists cd'. split; [reflexivity|].
    destruct (dummies_are_one_hot (ConditionalLogit.data_frame regular_long_frame))
      as (_ & _ & Hall).
    destruct (Hall cd' Hcd) as [_ Hrows].
    eapply Forall2_impl; [exact Hrows|]. cbn beta. intros r r' [Hc _]. exact Hc.
  - apply (proj1 (dummies_are_one_hot emptied_long_frame)).
    apply Forall_forall. auto.
Defined.
